(** * Local AI Developer Studio: the sandboxed executor, the plan codec and
      the agent loop of [local_ai_dev_studio.py], embedded in Rocq.

    Of the graphical front end ([App]) the body of the worker thread,
    [_run_agent_thread], is part of the embedding; the windows are not.

    Conventions.

    - A Python [str] is represented by its UTF-8 encoding, a [string] of
      bytes.  Operations that Python defines per character ([len], slices,
      [strip], [splitlines]) go through [Text.chars], which cuts the bytes
      into characters.  A [str] holding a lone surrogate has no such
      encoding and is outside the model.
    - A value decoded from JSON is a [json]; the functions that receive
      such values take a [json] and raise [TypeError] where Python does.
    - Paths are POSIX paths without NUL, with names and a length within
      the limits of the system ([NAME_MAX], [PATH_MAX]); beyond them
      every operation, [Path.exists] included, raises [OSError].  The
      filesystem has directories
      and regular files, no symbolic links and no permissions, so that
      [Path.resolve] is the lexical normalisation of the absolute path and
      an operation fails only for what is or is not at a path.
    - The program runs in the state monad [M] over [World], in which an
      exception is a result [Raise e] that [bind] passes on and
      [try_except] catches.  Only the exceptions that are instances of
      [Exception] are modelled.
    - What the program gets from outside is a field of [Env]: the working
      directory, the [ollama] process, the stop flag that the driving
      thread sets, the shell, and the wording Python gives to values and to
      the exceptions of its library.  The decoder of JSON has neither the
      recursion limit nor the limit on the digits of an integer of
      CPython: on a document beyond them [json.loads] raises
      [RecursionError] or [ValueError], no [JSONDecodeError], and
      [run_cycle] goes on as after any other failure to decode. *)

From Stdlib Require Import ZArith NArith Lia Ascii String List Bool.
From Stdlib Require Import DecimalString.
From stdpp Require Import base option list strings gmap.

Set Default Proof Using "Type".
Set Warnings "-register-all".
Local Open Scope list_scope.

(* ===================================================================== *)
(** ** Text: Python [str] operations on UTF-8 encoded strings *)
(* ===================================================================== *)

Module Text.

Definition code (c : ascii) : N := N_of_ascii c.
Definition chr (n : N) : ascii := ascii_of_N n.
Definition str1 (c : ascii) : string := String c EmptyString.

Definition LF : ascii := chr 10.
Definition CR : ascii := chr 13.
Definition QUOTE : ascii := chr 34.

Fixpoint concat (l : list string) : string :=
  match l with
  | [] => EmptyString
  | s :: l' => s +:+ concat l'
  end.

(** [sep.join(l)] *)
Fixpoint join (sep : string) (l : list string) : string :=
  match l with
  | [] => EmptyString
  | [s] => s
  | s :: l' => s +:+ sep +:+ join sep l'
  end.

(** [s.startswith(p)] *)
Fixpoint startswith (s p : string) : bool :=
  match p, s with
  | EmptyString, _ => true
  | String a p', String b s' => if Ascii.eqb a b then startswith s' p' else false
  | String _ _, EmptyString => false
  end.

(** *** The UTF-8 decoder

    A deterministic automaton over the bytes: [Idle] between characters,
    [Pending acc need lo hi] inside a multi-byte character of which [acc]
    has been read, [need] continuation bytes are missing and the next one
    has to lie in [lo..hi].  An item is [Some ch] for a well-formed
    character and [None] for a maximal ill-formed run, which is what the
    codec's error handler is called on. *)

Inductive ustate :=
| Idle
| Pending (acc : string) (need : nat) (lo hi : N).

Definition in_range (lo hi : N) (c : ascii) : bool :=
  ((lo <=? code c) && (code c <=? hi))%N.

Definition ustart (c : ascii) : list (option string) * ustate :=
  let b := code c in
  if (b <? 0x80)%N then ([Some (str1 c)], Idle)
  else if (b <? 0xC2)%N then ([None], Idle)
  else if (b <? 0xE0)%N then ([], Pending (str1 c) 1 0x80 0xBF)
  else if (b =? 0xE0)%N then ([], Pending (str1 c) 2 0xA0 0xBF)
  else if (b =? 0xED)%N then ([], Pending (str1 c) 2 0x80 0x9F)
  else if (b <? 0xF0)%N then ([], Pending (str1 c) 2 0x80 0xBF)
  else if (b =? 0xF0)%N then ([], Pending (str1 c) 3 0x90 0xBF)
  else if (b <? 0xF4)%N then ([], Pending (str1 c) 3 0x80 0xBF)
  else if (b =? 0xF4)%N then ([], Pending (str1 c) 3 0x80 0x8F)
  else ([None], Idle).

Definition ustep (st : ustate) (c : ascii) : list (option string) * ustate :=
  match st with
  | Idle => ustart c
  | Pending acc need lo hi =>
      if in_range lo hi c then
        match need with
        | 0 | 1 => ([Some (acc +:+ str1 c)], Idle)
        | S k => ([], Pending (acc +:+ str1 c) k 0x80 0xBF)
        end
      else
        let '(out, st') := ustart c in (None :: out, st')
  end.

Fixpoint items_from (st : ustate) (s : string) : list (option string) :=
  match s with
  | EmptyString => match st with Idle => [] | Pending _ _ _ _ => [None] end
  | String c s' => let '(out, st') := ustep st c in out ++ items_from st' s'
  end.

Definition items (s : string) : list (option string) := items_from Idle s.

(** U+FFFD, the replacement character. *)
Definition REPLACEMENT : string :=
  String (chr 0xEF) (String (chr 0xBF) (String (chr 0xBD) EmptyString)).

(** [bytes.decode("utf-8", errors=...)]: [on_error] is what the handler
    puts for an ill-formed run, [REPLACEMENT] for ["replace"] and the
    empty string for ["ignore"]. *)
Definition decode (on_error : string) (bytes : string) : string :=
  concat (map (default on_error) (items bytes)).

(** Well-formed UTF-8, the encodings of the [str] values of the model. *)
Definition well_formed (s : string) : bool :=
  forallb (fun i => bool_decide (is_Some i)) (items s).

(** [s.encode("utf-8")]: the representation itself. *)
Definition encode (s : string) : string := s.

(** The characters of a text. *)
Definition chars (s : string) : list string :=
  map (default REPLACEMENT) (items s).

(** [len(s)], [s[:n]] and [s[-n:]] for [n > 0]. *)
Definition len (s : string) : nat := length (chars s).
Definition first_chars (n : nat) (s : string) : string :=
  concat (take n (chars s)).
Definition last_chars (n : nat) (s : string) : string :=
  concat (drop (length (chars s) - n) (chars s)).

(** [s.lower()] on the letters A-Z.  Python also lowers the letters
    outside ASCII; of those only U+212A (to k) and U+0130 (to i followed
    by U+0307) produce an ASCII letter, and none of the words this program
    compares a lowered text with contains a k or an i. *)
Definition lower_ascii (c : ascii) : ascii :=
  if ((65 <=? code c) && (code c <=? 90))%N then chr (code c + 32) else c.

Fixpoint lower (s : string) : string :=
  match s with
  | EmptyString => EmptyString
  | String c s' => String (lower_ascii c) (lower s')
  end.

(** [c.isspace()]: the characters [str.strip()] removes. *)
Definition utf8 (l : list N) : string :=
  string_of_list_ascii (map chr l).

Definition whitespace : list string :=
  map utf8
    [ [0x09]; [0x0A]; [0x0B]; [0x0C]; [0x0D]; [0x1C]; [0x1D]; [0x1E]; [0x1F];
      [0x20]; [0xC2; 0x85]; [0xC2; 0xA0]; [0xE1; 0x9A; 0x80];
      [0xE2; 0x80; 0x80]; [0xE2; 0x80; 0x81]; [0xE2; 0x80; 0x82];
      [0xE2; 0x80; 0x83]; [0xE2; 0x80; 0x84]; [0xE2; 0x80; 0x85];
      [0xE2; 0x80; 0x86]; [0xE2; 0x80; 0x87]; [0xE2; 0x80; 0x88];
      [0xE2; 0x80; 0x89]; [0xE2; 0x80; 0x8A]; [0xE2; 0x80; 0xA8];
      [0xE2; 0x80; 0xA9]; [0xE2; 0x80; 0xAF]; [0xE2; 0x81; 0x9F];
      [0xE3; 0x80; 0x80] ]%N.

Definition isspace (ch : string) : bool := bool_decide (ch ∈ whitespace).

Fixpoint lstrip_chars (l : list string) : list string :=
  match l with
  | ch :: l' => if isspace ch then lstrip_chars l' else l
  | [] => []
  end.

(** [s.strip()] *)
Definition strip (s : string) : string :=
  concat (rev (lstrip_chars (rev (lstrip_chars (chars s))))).

(** The line boundaries of [str.splitlines()]. *)
Definition linebreaks : list string :=
  map utf8
    [ [0x0A]; [0x0B]; [0x0C]; [0x0D]; [0x1C]; [0x1D]; [0x1E];
      [0xC2; 0x85]; [0xE2; 0x80; 0xA8]; [0xE2; 0x80; 0xA9] ]%N.

Definition islinebreak (ch : string) : bool := bool_decide (ch ∈ linebreaks).

(** [splitlines_from cur l]: the lines of the characters [l], the line
    being read having the characters [cur] (in reverse) so far; [None]
    when no character of the line has been read since the last boundary.
    CR LF is one boundary. *)
Fixpoint splitlines_from (cur : option (list string)) (l : list string)
  : list string :=
  match l with
  | [] => match cur with
          | None => []
          | Some acc => [concat (rev acc)]
          end
  | ch :: l' =>
      if islinebreak ch then
        let line := concat (rev (default [] cur)) in
        match l' with
        | ch' :: l'' =>
            if bool_decide (ch = str1 CR) && bool_decide (ch' = str1 LF)
            then line :: splitlines_from None l''
            else line :: splitlines_from None l'
        | [] => [line]
        end
      else splitlines_from (Some (ch :: default [] cur)) l'
  end.

(** [s.splitlines()] *)
Definition splitlines (s : string) : list string :=
  splitlines_from None (chars s).

(** The translation of line ends that a file opened for reading in text
    mode applies (universal newlines): CR LF and a lone CR become LF. *)
Fixpoint universal_newlines (s : string) : string :=
  match s with
  | EmptyString => EmptyString
  | String c s' =>
      if Ascii.eqb c CR then
        match s' with
        | String c' s'' =>
            if Ascii.eqb c' LF then String LF (universal_newlines s'')
            else String LF (universal_newlines s')
        | EmptyString => String LF EmptyString
        end
      else String c (universal_newlines s')
  end.

(** [str(n)] for a natural number and for an integer. *)
Definition of_nat (n : nat) : string :=
  NilZero.string_of_uint (Nat.to_uint n).
Definition of_Z (z : Z) : string :=
  NilZero.string_of_int (Z.to_int z).

(** [s.find(c)] cut in two: the text before the first [c] and the text
    after it. *)
Fixpoint cut_at (c : ascii) (s : string) : option (string * string) :=
  match s with
  | EmptyString => None
  | String a s' =>
      if Ascii.eqb a c then Some (EmptyString, s')
      else match cut_at c s' with
           | Some (pre, post) => Some (String a pre, post)
           | None => None
           end
  end.

(** [s.split(c)] for a one-character separator. *)
Fixpoint split_on (c : ascii) (s : string) : list string :=
  match s with
  | EmptyString => [EmptyString]
  | String a s' =>
      if Ascii.eqb a c then EmptyString :: split_on c s'
      else match split_on c s' with
           | w :: ws => String a w :: ws
           | [] => [str1 a]
           end
  end.

End Text.

(* ===================================================================== *)
(** ** Paths: [pathlib.PurePosixPath] and [Path.resolve] *)
(* ===================================================================== *)

Module PurePath.

(** A parsed path: whether it starts at the root, and its components.
    Parsing drops the empty and the [.] components and keeps [..].  (Two
    leading slashes, which [pathlib] keeps apart, are read as one:
    [resolve], the only use this program makes of a joined path, reads
    them as one as well.) *)
Record t := mk { absolute : bool; parts : list string }.

Definition keep (w : string) : bool :=
  negb (bool_decide (w = "")) && negb (bool_decide (w = ".")).

(** [Path(s)] *)
Definition parse (s : string) : t :=
  {| absolute := Text.startswith s "/";
     parts := List.filter keep (Text.split_on "/"%char s) |}.

(** [p / s]: an absolute right operand replaces the left one. *)
Definition div (p : t) (s : string) : t :=
  let q := parse s in
  if absolute q then q
  else {| absolute := absolute p; parts := parts p ++ parts q |}.

(** A canonical absolute path: the components below the root directory,
    none of them [..]. *)
Abbreviation canonical := (list string) (only parsing).

(** One more component on a canonical path; [..] of the root is the
    root. *)
Definition enter (cur : canonical) (name : string) : canonical :=
  if bool_decide (name = "..") then removelast cur else cur ++ [name].

(** [p.resolve()] in a process whose working directory is [cwd]. *)
Definition resolve (cwd : canonical) (p : t) : canonical :=
  fold_left enter (parts p) (if absolute p then [] else cwd).

(** [str(p)] of a canonical path. *)
Definition str (p : canonical) : string := "/" +:+ Text.join "/" p.

(** [p.parent] *)
Definition parent (p : canonical) : canonical := removelast p.

(** [p.suffix]: the last component from its last dot on, when that dot
    is neither its first nor its last character. *)
Fixpoint last_dot (s : string) : option (string * string) :=
  match s with
  | EmptyString => None
  | String c s' =>
      match last_dot s' with
      | Some (pre, suf) => Some (String c pre, suf)
      | None =>
          if Ascii.eqb c "."%char then Some (EmptyString, String c s')
          else None
      end
  end.

Definition suffix_of_name (name : string) : string :=
  match last_dot name with
  | Some (String _ _, String dot (String c rest)) => String dot (String c rest)
  | _ => ""
  end.

Definition suffix (p : canonical) : string := suffix_of_name (List.last p "").

(** [q] is [p] or lies below it. *)
Definition within (p q : canonical) : Prop := p `prefix_of` q.

End PurePath.

(* ===================================================================== *)
(** ** Exceptions and results *)
(* ===================================================================== *)

Inductive exn :=
| ValueError (msg : string)
| RuntimeError (msg : string)
| JSONDecodeError (doc : string)
| KeyError (key : string)
| TypeError
| AttributeError
| FileExistsError (path : list string)
| FileNotFoundError (path : list string)
| NotADirectoryError (path : list string)
| IsADirectoryError (path : list string)
| TimeoutExpired
| OSError (msg : string).

Inductive result (A : Type) :=
| Ok (a : A)
| Raise (e : exn).
Arguments Ok {A} a.
Arguments Raise {A} e.

(* ===================================================================== *)
(** ** The filesystem *)
(* ===================================================================== *)

Module Fs.

Inductive node :=
| Dir
| File (bytes : string).

(** The entries below the root directory, by canonical path.  The root
    directory itself always exists. *)
Abbreviation t := (gmap (list string) node) (only parsing).

(** What looking a path up from the root finds: the walk stops at the
    first component that is missing or that is a file with components
    still to come. *)
Inductive walk :=
| Found (n : node)
| Missing
| NotDir.

Fixpoint lookup_from (fs : t) (cur : list string) (todo : list string) : walk :=
  match todo with
  | [] => Found Dir
  | name :: rest =>
      match fs !! (cur ++ [name]) with
      | None => Missing
      | Some (File b) => match rest with [] => Found (File b) | _ => NotDir end
      | Some Dir => lookup_from fs (cur ++ [name]) rest
      end
  end.

Definition lookup (fs : t) (p : list string) : walk := lookup_from fs [] p.

(** [p.exists()], [p.is_file()], [p.is_dir()] *)
Definition exists_ (fs : t) (p : list string) : bool :=
  match lookup fs p with Found _ => true | _ => false end.
Definition is_file (fs : t) (p : list string) : bool :=
  match lookup fs p with Found (File _) => true | _ => false end.
Definition is_dir (fs : t) (p : list string) : bool :=
  match lookup fs p with Found Dir => true | _ => false end.

(** [p.mkdir(parents=True, exist_ok=True)]: the walk from the root makes
    the directories that are missing; it fails on a file, with
    [FileExistsError] when the file is [p] itself. *)
Fixpoint mkdir_from (p : list string) (fs : t) (cur : list string)
    (todo : list string) : result t :=
  match todo with
  | [] => Ok fs
  | name :: rest =>
      match fs !! (cur ++ [name]) with
      | None => mkdir_from p (<[cur ++ [name] := Dir]> fs) (cur ++ [name]) rest
      | Some Dir => mkdir_from p fs (cur ++ [name]) rest
      | Some (File _) =>
          match rest with
          | [] => Raise (FileExistsError p)
          | _ => Raise (NotADirectoryError p)
          end
      end
  end.

Definition mkdir_parents (fs : t) (p : list string) : result t :=
  mkdir_from p fs [] p.

(** [open(p, "w")] and [open(p, "a")]: the bytes the file holds once it
    is open, or the error. *)
Definition open_for (append : bool) (fs : t) (p : list string) : result string :=
  match lookup fs p with
  | Found Dir => Raise (IsADirectoryError p)
  | Found (File b) => Ok (if append then b else "")
  | NotDir => Raise (NotADirectoryError p)
  | Missing =>
      match lookup fs (PurePath.parent p) with
      | Found Dir => Ok ""
      | _ => Raise (FileNotFoundError p)
      end
  end.

(** Writing [data] to [p] in text mode, encoding utf-8.  On POSIX the
    text goes to the file as it is. *)
Definition write (append : bool) (fs : t) (p : list string) (data : string)
  : result t :=
  match open_for append fs p with
  | Ok old => Ok (<[p := File (old +:+ Text.encode data)]> fs)
  | Raise e => Raise e
  end.

(** [p.read_text(encoding="utf-8", errors=...)]: the bytes are decoded
    and, the file being open in text mode, the line ends translated. *)
Definition read_text (on_error : string) (fs : t) (p : list string)
  : result string :=
  match lookup fs p with
  | Found (File b) => Ok (Text.universal_newlines (Text.decode on_error b))
  | Found Dir => Raise (IsADirectoryError p)
  | Missing => Raise (FileNotFoundError p)
  | NotDir => Raise (NotADirectoryError p)
  end.

(** [root.rglob("*")]: every entry that lies strictly below [root] and
    that the walk from the root finds; nothing when [root] is not a
    directory. *)
Definition rglob (fs : t) (root : list string) : list (list string) :=
  if is_dir fs root then
    List.filter
      (fun p => bool_decide (root `prefix_of` p) && negb (bool_decide (p = root))
                && exists_ fs p)
      (map fst (map_to_list fs))
  else [].

End Fs.

(* ===================================================================== *)
(** ** JSON documents and [json.loads] *)
(* ===================================================================== *)

(** The values [json.loads] returns.  An object is a Python [dict]: its
    keys are distinct and in the order of their first insertion.  A number
    with a fraction or an exponent is kept as its text. *)
Inductive json :=
| JNull
| JBool (b : bool)
| JInt (z : Z)
| JFloat (lit : string)
| JStr (s : string)
| JArr (items : list json)
| JObj (pairs : list (string * json)).

Module Json.

(** [d.get(key)] *)
Fixpoint dict_get (key : string) (d : list (string * json)) : option json :=
  match d with
  | [] => None
  | (k, v) :: d' => if bool_decide (k = key) then Some v else dict_get key d'
  end.

(** [d[key] = v] *)
Fixpoint dict_set (key : string) (v : json) (d : list (string * json))
  : list (string * json) :=
  match d with
  | [] => [(key, v)]
  | (k, w) :: d' =>
      if bool_decide (k = key) then (k, v) :: d' else (k, w) :: dict_set key v d'
  end.

Definition is_ch (c : ascii) (x : ascii) : bool := Ascii.eqb c x.

Definition is_ws (c : ascii) : bool :=
  is_ch c " " || is_ch c (Text.chr 9) || is_ch c Text.LF || is_ch c Text.CR.

Fixpoint skip_ws (s : string) : string :=
  match s with
  | String c s' => if is_ws c then skip_ws s' else s
  | EmptyString => EmptyString
  end.

Definition is_digit (c : ascii) : bool :=
  ((48 <=? Text.code c) && (Text.code c <=? 57))%N.

(** The longest run of digits a text starts with, and what follows it. *)
Fixpoint span_digits (s : string) : string * string :=
  match s with
  | String c s' =>
      if is_digit c then let '(d, r) := span_digits s' in (String c d, r)
      else (EmptyString, s)
  | EmptyString => (EmptyString, EmptyString)
  end.

Fixpoint digits_value (acc : Z) (s : string) : Z :=
  match s with
  | String c s' => digits_value (10 * acc + (Z.of_N (Text.code c) - 48)) s'
  | EmptyString => acc
  end.

(** The integer part of a number: [0], or a run of digits that does not
    start with [0]. *)
Definition int_part (s : string) : option (string * string) :=
  match s with
  | String c s' =>
      if is_ch c "0" then Some ("0", s')
      else if is_digit c then Some (span_digits s)
      else None
  | EmptyString => None
  end.

(** The character a text starts with, if it is one of [ok]. *)
Definition opt_char (ok : ascii -> bool) (s : string) : string * string :=
  match s with
  | String c s' => if ok c then (Text.str1 c, s') else ("", s)
  | EmptyString => ("", s)
  end.

Definition frac_part (s : string) : option (string * string) :=
  match s with
  | String c s' =>
      if is_ch c "." then
        match span_digits s' with
        | (EmptyString, _) => None
        | (d, r) => Some (String c d, r)
        end
      else None
  | EmptyString => None
  end.

Definition exp_part (s : string) : option (string * string) :=
  match s with
  | String e s' =>
      if is_ch e "e" || is_ch e "E" then
        let '(sign, s'') := opt_char (fun g => is_ch g "+" || is_ch g "-") s' in
        match span_digits s'' with
        | (EmptyString, _) => None
        | (d, r) => Some (String e (sign +:+ d), r)
        end
      else None
  | EmptyString => None
  end.

(** The part [part] reads off a text, or nothing of it. *)
Definition opt_part (part : string -> option (string * string)) (s : string)
  : string * string :=
  default ("", s) (part s).

(** The number a text starts with, if any: an optional minus sign and an
    integer part, then as much as matches of a fraction (a dot and digits)
    and of an exponent (e or E, an optional sign, digits).  An integer is
    of any size. *)
Definition number (s : string) : option (json * string) :=
  let '(minus, s0) := opt_char (fun c => is_ch c "-") s in
  match int_part s0 with
  | None => None
  | Some (i, r0) =>
      let '(f, r1) := opt_part frac_part r0 in
      let '(e, r2) := opt_part exp_part r1 in
      if bool_decide (f = "") && bool_decide (e = "") then
        Some (JInt (if bool_decide (minus = "") then digits_value 0 i
                    else - digits_value 0 i), r2)
      else
        Some (JFloat (minus +:+ i +:+ f +:+ e), r2)
  end.

Definition hexval (c : ascii) : option N :=
  let b := Text.code c in
  if ((48 <=? b) && (b <=? 57))%N then Some (b - 48)%N
  else if ((97 <=? b) && (b <=? 102))%N then Some (b - 87)%N
  else if ((65 <=? b) && (b <=? 70))%N then Some (b - 55)%N
  else None.

Definition hex4 (a b c d : ascii) : option N :=
  match hexval a, hexval b, hexval c, hexval d with
  | Some x, Some y, Some z, Some w => Some (((x * 16 + y) * 16 + z) * 16 + w)%N
  | _, _, _, _ => None
  end.

(** The UTF-8 bytes of a code point.  A surrogate that stands alone gets
    the three bytes the general scheme gives it. *)
Definition utf8_encode (cp : N) : string :=
  (if cp <? 0x80 then Text.utf8 [cp]
   else if cp <? 0x800 then Text.utf8 [0xC0 + cp / 64; 0x80 + cp mod 64]
   else if cp <? 0x10000 then
     Text.utf8 [0xE0 + cp / 4096; 0x80 + (cp / 64) mod 64; 0x80 + cp mod 64]
   else
     Text.utf8 [0xF0 + cp / 262144; 0x80 + (cp / 4096) mod 64;
                0x80 + (cp / 64) mod 64; 0x80 + cp mod 64])%N.

Definition is_high (u : N) : bool := ((0xD800 <=? u) && (u <=? 0xDBFF))%N.
Definition is_low (u : N) : bool := ((0xDC00 <=? u) && (u <=? 0xDFFF))%N.
Definition join_surrogates (h l : N) : N :=
  (0x10000 + ((h - 0xD800) * 1024 + (l - 0xDC00)))%N.

Definition flush (hi : option N) : string :=
  match hi with Some h => utf8_encode h | None => "" end.

Definition unescape (e : ascii) : option ascii :=
  if is_ch e Text.QUOTE then Some Text.QUOTE
  else if is_ch e "\" then Some "\"%char
  else if is_ch e "/" then Some "/"%char
  else if is_ch e "b" then Some (Text.chr 8)
  else if is_ch e "f" then Some (Text.chr 12)
  else if is_ch e "n" then Some Text.LF
  else if is_ch e "r" then Some Text.CR
  else if is_ch e "t" then Some (Text.chr 9)
  else None.

Definition prepend (pre : string) (r : option (string * string))
  : option (string * string) :=
  match r with
  | Some (s, rest) => Some (pre +:+ s, rest)
  | None => None
  end.

(** [scanstring]: the text of a string literal whose opening quote has
    been read, and what follows its closing quote.  [hi] is a high
    surrogate that the escape just read has produced and that a low one
    may still complete. *)
Fixpoint scanstring (hi : option N) (s : string) : option (string * string) :=
  match s with
  | EmptyString => None
  | String c rest =>
      if is_ch c Text.QUOTE then Some (flush hi, rest)
      else if is_ch c "\" then
        match rest with
        | String e rest1 =>
            if is_ch e "u" then
              match rest1 with
              | String h1 (String h2 (String h3 (String h4 rest2))) =>
                  match hex4 h1 h2 h3 h4 with
                  | None => None
                  | Some u =>
                      match hi with
                      | Some h =>
                          if is_low u then
                            prepend (utf8_encode (join_surrogates h u))
                                    (scanstring None rest2)
                          else if is_high u then
                            prepend (utf8_encode h) (scanstring (Some u) rest2)
                          else
                            prepend (utf8_encode h +:+ utf8_encode u)
                                    (scanstring None rest2)
                      | None =>
                          if is_high u then scanstring (Some u) rest2
                          else prepend (utf8_encode u) (scanstring None rest2)
                      end
                  end
              | _ => None
              end
            else
              match unescape e with
              | Some ch => prepend (flush hi +:+ Text.str1 ch) (scanstring None rest1)
              | None => None
              end
        | EmptyString => None
        end
      else if (Text.code c <? 0x20)%N then None
      else prepend (flush hi +:+ Text.str1 c) (scanstring None rest)
  end.

(** [s] with the word [w] taken off its front. *)
Fixpoint strip_prefix (w s : string) : option string :=
  match w, s with
  | EmptyString, _ => Some s
  | String a w', String b s' => if Ascii.eqb a b then strip_prefix w' s' else None
  | String _ _, EmptyString => None
  end.

Definition literal (s : string) : option (json * string) :=
  match strip_prefix "null" s with
  | Some r => Some (JNull, r)
  | None =>
  match strip_prefix "true" s with
  | Some r => Some (JBool true, r)
  | None =>
  match strip_prefix "false" s with
  | Some r => Some (JBool false, r)
  | None =>
  match number s with
  | Some x => Some x
  | None =>
  match strip_prefix "NaN" s with
  | Some r => Some (JFloat "NaN", r)
  | None =>
  match strip_prefix "Infinity" s with
  | Some r => Some (JFloat "Infinity", r)
  | None =>
  match strip_prefix "-Infinity" s with
  | Some r => Some (JFloat "-Infinity", r)
  | None => None
  end end end end end end end.

(** The scanner.  [scan_once] reads the value a text starts with;
    [JSONObject] and [JSONArray] read on after the opening bracket,
    [object_pairs] after the opening quote of a key and [array_items] at an
    item.  Between two characters read there are at most three calls, so a
    fuel of three times the length of the text, and three, is never used
    up ([JsonFacts.scan_once_fuel]). *)
Fixpoint scan_once (fuel : nat) (s : string) : option (json * string) :=
  match fuel with
  | 0 => None
  | S n =>
      match s with
      | EmptyString => None
      | String c rest =>
          if is_ch c Text.QUOTE then
            match scanstring None rest with
            | Some (str, r) => Some (JStr str, r)
            | None => None
            end
          else if is_ch c "{" then JSONObject n rest
          else if is_ch c "[" then JSONArray n rest
          else literal s
      end
  end
with JSONObject (fuel : nat) (s : string) : option (json * string) :=
  match fuel with
  | 0 => None
  | S n =>
      match skip_ws s with
      | String c r =>
          if is_ch c "}" then Some (JObj [], r)
          else if is_ch c Text.QUOTE then object_pairs n [] r
          else None
      | EmptyString => None
      end
  end
with object_pairs (fuel : nat) (acc : list (string * json)) (s : string)
  : option (json * string) :=
  match fuel with
  | 0 => None
  | S n =>
      match scanstring None s with
      | None => None
      | Some (key, r1) =>
          match skip_ws r1 with
          | String c r2 =>
              if is_ch c ":" then
                match scan_once n (skip_ws r2) with
                | None => None
                | Some (v, r3) =>
                    let acc' := dict_set key v acc in
                    match skip_ws r3 with
                    | String d r4 =>
                        if is_ch d "}" then Some (JObj acc', r4)
                        else if is_ch d "," then
                          match skip_ws r4 with
                          | String q r5 =>
                              if is_ch q Text.QUOTE then object_pairs n acc' r5
                              else None
                          | EmptyString => None
                          end
                        else None
                    | EmptyString => None
                    end
                end
              else None
          | EmptyString => None
          end
      end
  end
with JSONArray (fuel : nat) (s : string) : option (json * string) :=
  match fuel with
  | 0 => None
  | S n =>
      match skip_ws s with
      | String c r =>
          if is_ch c "]" then Some (JArr [], r)
          else array_items n [] (skip_ws s)
      | EmptyString => None
      end
  end
with array_items (fuel : nat) (acc : list json) (s : string)
  : option (json * string) :=
  match fuel with
  | 0 => None
  | S n =>
      match scan_once n s with
      | None => None
      | Some (v, r1) =>
          match skip_ws r1 with
          | String d r2 =>
              if is_ch d "]" then Some (JArr (acc ++ [v]), r2)
              else if is_ch d "," then array_items n (acc ++ [v]) (skip_ws r2)
              else None
          | EmptyString => None
          end
      end
  end.

(** [json.loads(s)]: one value, white space around it and nothing else;
    [None] when the decoder raises [JSONDecodeError]. *)
Definition loads (s : string) : option json :=
  match scan_once (3 * String.length s + 3) (skip_ws s) with
  | Some (v, r) =>
      match skip_ws r with
      | EmptyString => Some v
      | String _ _ => None
      end
  | None => None
  end.

(** A text written with [']  where the document has a double quote. *)
Fixpoint dq (s : string) : string :=
  match s with
  | EmptyString => EmptyString
  | String c s' => String (if Ascii.eqb c "'" then Text.QUOTE else c) (dq s')
  end.

End Json.

(* ===================================================================== *)
(** ** The environment, the state and the monad of the program *)
(* ===================================================================== *)

(** What [subprocess.run] returns. *)
Record CompletedProcess := mkProcess {
  returncode : Z;
  stdout : string;
  stderr : string
}.

(** What the program gets from outside. *)
Record Env := mkEnv {
  (** the working directory of the process *)
  cwd : list string;
  (** [subprocess.run(["ollama", "run", model, prompt], ...)], by the number
      of invocations made before, the model and the prompt *)
  ollama : nat -> string -> string -> result CompletedProcess;
  (** what the [n]-th reading of [stop_requested] finds: the flag is set by
      the thread of the driving surface *)
  stop_flag : nat -> bool;
  (** [subprocess.run(command, shell=True, cwd=dir, ...)], by the number of
      commands run before, the command, the directory and the filesystem:
      the filesystem the command leaves and what the call returns *)
  shell : nat -> json -> list string -> gmap (list string) Fs.node ->
          gmap (list string) Fs.node * result CompletedProcess;
  (** [str(v)] for a value that is no [str] *)
  repr : json -> string;
  (** [str(exc)] for an exception the Python library raises *)
  message : exn -> string
}.

(** The state the program acts on, with the counters the oracles of [Env]
    are indexed by. *)
Record World := mkWorld {
  fs : gmap (list string) Fs.node;
  log : list string;
  polls : nat;
  llm_calls : nat;
  shell_calls : nat
}.

Definition M (A : Type) : Type := World -> result A * World.

Definition ret {A} (a : A) : M A := fun w => (Ok a, w).
Definition raise {A} (e : exn) : M A := fun w => (Raise e, w).
Definition bind {A B} (m : M A) (k : A -> M B) : M B :=
  fun w => match m w with
           | (Ok a, w') => k a w'
           | (Raise e, w') => (Raise e, w')
           end.
(** [try: m  except Exception as exc: h exc] *)
Definition try_except {A} (m : M A) (h : exn -> M A) : M A :=
  fun w => match m w with
           | (Ok a, w') => (Ok a, w')
           | (Raise e, w') => h e w'
           end.
Definition lift {A} (r : result A) : M A := fun w => (r, w).

Notation "'let*' x := m 'in' k" := (bind m (fun x => k))
  (at level 10, x name, m at level 100, k at level 200).
Notation "'do*' m 'in' k" := (bind m (fun _ => k))
  (at level 10, m at level 100, k at level 200).

Definition get_fs : M (gmap (list string) Fs.node) := fun w => (Ok (fs w), w).
Definition put_fs (f : gmap (list string) Fs.node) : M unit :=
  fun w => (Ok tt, mkWorld f (log w) (polls w) (llm_calls w) (shell_calls w)).
(** [self.logger(msg)] *)
Definition logger (msg : string) : M unit :=
  fun w => (Ok tt, mkWorld (fs w) (log w ++ [msg]) (polls w) (llm_calls w) (shell_calls w)).
(** A filesystem operation: the filesystem changes when it succeeds. *)
Definition fs_update (op : gmap (list string) Fs.node -> result (gmap (list string) Fs.node))
  : M unit :=
  let* f := get_fs in
  match op f with
  | Ok f' => put_fs f'
  | Raise e => raise e
  end.

(** *** Python values *)

(** [str(v)], as an f-string formats a value. *)
Definition py_str (E : Env) (v : json) : string :=
  match v with
  | JStr s => s
  | _ => repr E v
  end.

(** [str(exc)] *)
Definition exn_str (E : Env) (e : exn) : string :=
  match e with
  | ValueError msg => msg
  | RuntimeError msg => msg
  | KeyError key => "'" +:+ key +:+ "'"
  | _ => message E e
  end.

(** [v.get(key, default)]: only a [dict] has the method. *)
Definition py_get (v : json) (key : string) (dflt : json) : result json :=
  match v with
  | JObj d => Ok (default dflt (Json.dict_get key d))
  | _ => Raise AttributeError
  end.

(** [v[key]] for a [dict] [v]. *)
Definition py_item (v : json) (key : string) : result json :=
  match v with
  | JObj d =>
      match Json.dict_get key d with
      | Some x => Ok x
      | None => Raise (KeyError key)
      end
  | _ => Raise TypeError
  end.

(** [len(v)] *)
Definition py_len (v : json) : result nat :=
  match v with
  | JStr s => Ok (Text.len s)
  | JArr l => Ok (length l)
  | JObj d => Ok (length d)
  | _ => Raise TypeError
  end.

(** The values [for x in v] runs through. *)
Definition py_iter (v : json) : result (list json) :=
  match v with
  | JStr s => Ok (map JStr (Text.chars s))
  | JArr l => Ok l
  | JObj d => Ok (map (fun kv => JStr (fst kv)) d)
  | _ => Raise TypeError
  end.

(* ===================================================================== *)
(** ** [LocalLLMClient] *)
(* ===================================================================== *)

Module LocalLLMClient.
Section Client.
Context (E : Env) (model : string).

Definition generate (prompt : string) : M string :=
  fun w =>
    let w' := mkWorld (fs w) (log w) (polls w) (S (llm_calls w)) (shell_calls w) in
    match ollama E (llm_calls w) model prompt with
    | Raise (FileNotFoundError _) =>
        (Raise (RuntimeError "Ollama n'est pas installé ou introuvable dans le PATH."), w')
    | Raise TimeoutExpired =>
        (Raise (RuntimeError "Temps d'exécution du modèle local dépassé."), w')
    | Raise e => (Raise e, w')
    | Ok result =>
        if bool_decide (returncode result ≠ 0%Z) then
          let stderr :=
            if bool_decide (Text.strip (stderr result) = "") then "Erreur inconnue"
            else Text.strip (stderr result) in
          (Raise (RuntimeError ("Échec appel LLM local: " +:+ stderr)), w')
        else (Ok (Text.strip (stdout result)), w')
    end.

End Client.
End LocalLLMClient.

(* ===================================================================== *)
(** ** [WorkspaceExecutor] *)
(* ===================================================================== *)

Module WorkspaceExecutor.

(** The value of [ext_map]: one extension or a tuple of them. *)
Inductive extensions :=
| One (ext : string)
| Several (exts : list string).

Definition ext_map : list (string * extensions) :=
  [ ("python", One ".py");
    ("cpp", Several [".cpp"; ".hpp"; ".h"; ".cc"; ".cxx"]) ].

Fixpoint ext_map_get (key : string) (m : list (string * extensions))
    (dflt : extensions) : extensions :=
  match m with
  | [] => dflt
  | (k, v) :: m' => if bool_decide (k = key) then v else ext_map_get key m' dflt
  end.

(** [match] of [count_loc] for the path [p]. *)
Definition suffix_matches (exts : extensions) (p : list string) : bool :=
  match exts with
  | Several l => bool_decide (Text.lower (PurePath.suffix p) ∈ l)
  | One e => bool_decide (Text.lower (PurePath.suffix p) = e)
  end.

Section Executor.
Context (E : Env) (root : PurePath.t).

Definition _resolve (rel_path : json) : result (list string) :=
  match rel_path with
  | JStr s =>
      let safe := PurePath.resolve (cwd E) (PurePath.div root s) in
      if negb (Text.startswith (PurePath.str safe)
                 (PurePath.str (PurePath.resolve (cwd E) root)))
      then Raise (ValueError ("Chemin hors workspace interdit: " +:+ s))
      else Ok safe
  | _ => Raise TypeError
  end.

Definition mkdir (rel_path : json) : M unit :=
  let* path := lift (_resolve rel_path) in
  do* fs_update (fun f => Fs.mkdir_parents f path) in
  logger ("[mkdir] " +:+ PurePath.str path).

(** [path.write_text(content, encoding="utf-8")] *)
Definition write_text (path : list string) (content : json) : M unit :=
  match content with
  | JStr c => fs_update (fun f => Fs.write false f path c)
  | _ => raise TypeError
  end.

Definition write_file (rel_path content : json) : M unit :=
  let* path := lift (_resolve rel_path) in
  do* fs_update (fun f => Fs.mkdir_parents f (PurePath.parent path)) in
  do* write_text path content in
  let* n := lift (py_len content) in
  logger ("[write_file] " +:+ PurePath.str path +:+ " (" +:+ Text.of_nat n +:+ " chars)").

(** [with path.open("a", encoding="utf-8") as f: f.write(content)]: the
    file is open, and there, before [write] looks at [content]. *)
Definition append_text (path : list string) (content : json) : M unit :=
  do* fs_update (fun f => Fs.write true f path "") in
  match content with
  | JStr c => fs_update (fun f => Fs.write true f path c)
  | _ => raise TypeError
  end.

Definition append_file (rel_path content : json) : M unit :=
  let* path := lift (_resolve rel_path) in
  do* fs_update (fun f => Fs.mkdir_parents f (PurePath.parent path)) in
  do* append_text path content in
  let* n := lift (py_len content) in
  logger ("[append_file] " +:+ PurePath.str path +:+ " (+" +:+ Text.of_nat n +:+ " chars)").

Definition read_file (rel_path : json) : M string :=
  let* path := lift (_resolve rel_path) in
  let* f := get_fs in
  if negb (Fs.exists_ f path) then
    do* logger ("[read_file] introuvable: " +:+ PurePath.str path) in
    ret ""
  else
    let* content := lift (Fs.read_text Text.REPLACEMENT f path) in
    do* logger ("[read_file] " +:+ PurePath.str path +:+ " ("
                +:+ Text.of_nat (Text.len content) +:+ " chars)") in
    ret content.

(** [subprocess.run(command, shell=True, cwd=self.root, capture_output=True,
    text=True, check=False)] *)
Definition subprocess_run (command : json) : M CompletedProcess :=
  fun w =>
    let '(f', r) := shell E (shell_calls w) command
                      (PurePath.resolve (cwd E) root) (fs w) in
    (r, mkWorld f' (log w) (polls w) (llm_calls w) (S (shell_calls w))).

(** The text [run] returns for a command that has completed. *)
Definition run_output (command : json) (result : CompletedProcess) : string :=
  Text.strip ("$ " +:+ py_str E command +:+ Text.str1 Text.LF +:+ stdout result
              +:+ Text.str1 Text.LF +:+ stderr result).

Definition run (command : json) : M string :=
  do* logger ("[run] " +:+ py_str E command) in
  let* result := subprocess_run command in
  let output := run_output command result in
  do* logger ("[run:exit=" +:+ Text.of_Z (returncode result) +:+ "]"
              +:+ Text.str1 Text.LF +:+ Text.first_chars 2000 output) in
  ret output.

(** The lines [count_loc] adds for the entry [p]. *)
Definition loc_of (f : gmap (list string) Fs.node) (exts : extensions)
    (p : list string) : nat :=
  if Fs.is_file f p then
    if suffix_matches exts p then
      match Fs.read_text "" f p with
      | Ok text => length (Text.splitlines text)
      | Raise _ => 0
      end
    else 0
  else 0.

Definition count_loc_in (f : gmap (list string) Fs.node) (language : string) : nat :=
  let extensions := ext_map_get (Text.lower language) ext_map (One ".py") in
  foldr (fun p total => loc_of f extensions p + total) 0
        (Fs.rglob f (PurePath.resolve (cwd E) root)).

Definition count_loc (language : string) : M nat :=
  let* f := get_fs in
  ret (count_loc_in f language).

End Executor.
End WorkspaceExecutor.

(* ===================================================================== *)
(** ** [AutoDevAgent] *)
(* ===================================================================== *)

Definition NL : string := Text.str1 Text.LF.

Definition SYSTEM_PROMPT : string :=
  Text.strip (Text.concat [
"
Tu es un ingénieur logiciel local. Tu dois produire un plan puis des actions JSON.
Format attendu strictement:
"; Json.dq "{
  'summary': '...',
  'actions': [
    {'type': 'mkdir', 'path': '...'},
    {'type': 'write_file', 'path': '...', 'content': '...'},
    {'type': 'append_file', 'path': '...', 'content': '...'},
    {'type': 'read_file', 'path': '...'},
    {'type': 'run', 'cmd': '...'},
    {'type': 'done', 'reason': '...'}
  ]
}
"; "Contraintes:
- Toutes les actions sont locales.
- Ne jamais utiliser d'API distante.
- Privilégier CMake pour C++ et pytest/unittest pour Python.
- Corriger les erreurs de build/test dans les itérations suivantes.
"]).

Record AgentConfig := mkConfig {
  model : string;
  project_dir : string;
  description : string;
  language : string;
  max_iterations : Z;
  target_loc : Z
}.

(** How [run_cycle] ends when no exception leaves it: by the [break] on the
    stop flag, by the [return] of a [done] action, or with the [for] loop
    at the end of its range. *)
Inductive outcome :=
| StoppedByUser
| StoppedByPlan
| Exhausted.

Module AutoDevAgent.

(** The text of [s] before the last [c]. *)
Fixpoint upto_last (c : ascii) (s : string) : option string :=
  match s with
  | EmptyString => None
  | String a s' =>
      match upto_last c s' with
      | Some pre => Some (String a pre)
      | None => if Ascii.eqb a c then Some EmptyString else None
      end
  end.

(** [re.search(r"\{.*\}", raw, re.S)], the text of group 0: the dot
    matching every character and the star being greedy, the match starts
    at the first opening brace and ends at the last closing brace behind
    it; none behind the first opening brace, none behind a later one. *)
Definition search_braces (raw : string) : option string :=
  match Text.cut_at "{" raw with
  | None => None
  | Some (_, after) =>
      match upto_last "}" after with
      | None => None
      | Some body => Some ("{" +:+ body +:+ "}")
      end
  end.

Definition _extract_json (raw : string) : result json :=
  match search_braces raw with
  | None => Raise (ValueError "Réponse LLM sans JSON exploitable.")
  | Some group0 =>
      match Json.loads group0 with
      | Some v => Ok v
      | None => Raise (JSONDecodeError group0)
      end
  end.

(** [a_type == name] *)
Definition type_is (a_type : json) (name : string) : bool :=
  match a_type with
  | JStr s => bool_decide (s = name)
  | _ => false
  end.

Section Agent.
Context (E : Env) (config : AgentConfig) (root : PurePath.t).

(** [self.stop_requested] *)
Definition stop_requested : M bool :=
  fun w => (Ok (stop_flag E (polls w)),
            mkWorld (fs w) (log w) (S (polls w)) (llm_calls w) (shell_calls w)).

Definition _build_prompt (iteration : nat) (history last_output : string) : string :=
  Text.strip (Text.concat [
    NL; SYSTEM_PROMPT; NL;
    NL; "Iteration: "; Text.of_nat iteration; "/"; Text.of_Z (max_iterations config); NL;
    "Langage cible: "; language config; NL;
    "Objectif LOC approximatif: "; Text.of_Z (target_loc config); NL;
    "Description utilisateur:"; NL;
    description config; NL;
    NL; "Historique résumé:"; NL;
    Text.last_chars 5000 history; NL;
    NL; "Dernière sortie build/test:"; NL;
    Text.last_chars 4000 last_output; NL;
    NL; "Renvoie UNIQUEMENT le JSON."; NL ]).

(** The body of the [try] of one action: the output of the iteration once
    the action is done, [None] when the action is [done] and [run_cycle]
    returns. *)
Definition dispatch (action a_type : json) (iteration_output : list string)
  : M (option (list string)) :=
  if type_is a_type "mkdir" then
    let* path := lift (py_item action "path") in
    do* WorkspaceExecutor.mkdir E root path in
    ret (Some iteration_output)
  else if type_is a_type "write_file" then
    let* path := lift (py_item action "path") in
    let* content := lift (py_get action "content" (JStr "")) in
    do* WorkspaceExecutor.write_file E root path content in
    ret (Some iteration_output)
  else if type_is a_type "append_file" then
    let* path := lift (py_item action "path") in
    let* content := lift (py_get action "content" (JStr "")) in
    do* WorkspaceExecutor.append_file E root path content in
    ret (Some iteration_output)
  else if type_is a_type "read_file" then
    let* path := lift (py_item action "path") in
    let* content := WorkspaceExecutor.read_file E root path in
    ret (Some (iteration_output ++
                 ["READ<" +:+ py_str E path +:+ ">" +:+ NL
                  +:+ Text.first_chars 5000 content]))
  else if type_is a_type "run" then
    let* cmd := lift (py_item action "cmd") in
    let* out := WorkspaceExecutor.run E root cmd in
    ret (Some (iteration_output ++ [out]))
  else if type_is a_type "done" then
    let* reason := lift (py_get action "reason" (JStr "Terminé.")) in
    do* logger ("[done] " +:+ py_str E reason) in
    ret None
  else
    do* logger ("Action inconnue ignorée: " +:+ py_str E a_type) in
    ret (Some iteration_output).

(** [except Exception as exc:] of one action. *)
Definition action_failed (a_type : json) (iteration_output : list string)
    (exc : exn) : M (option (list string)) :=
  let err := "Action " +:+ py_str E a_type +:+ " échouée: " +:+ exn_str E exc in
  do* logger err in
  ret (Some (iteration_output ++ [err])).

(** [for action in actions: ...]: the output of the iteration when the
    loop ends or breaks, [None] when a [done] action returns. *)
Fixpoint run_actions (actions : list json) (iteration_output : list string)
  : M (option (list string)) :=
  match actions with
  | [] => ret (Some iteration_output)
  | action :: rest =>
      let* stop := stop_requested in
      if stop then ret (Some iteration_output)
      else
        let* a_type := lift (py_get action "type" (JStr "")) in
        let* r := try_except (dispatch action a_type iteration_output)
                             (action_failed a_type iteration_output) in
        match r with
        | None => ret None
        | Some iteration_output' => run_actions rest iteration_output'
        end
  end.

(** How one pass through the body of the outer [for] ends. *)
Inductive flow :=
| Continue (history last_output : string)
| Break
| Return.

(** What follows a plan that has been decoded. *)
Definition run_plan (i : nat) (plan : json) (history : string) : M flow :=
  let* summary := lift (py_get plan "summary" (JStr "(sans résumé)")) in
  let* actions := lift (py_get plan "actions" (JArr [])) in
  let* n := lift (py_len actions) in
  do* logger ("[plan] " +:+ py_str E summary +:+ " | actions=" +:+ Text.of_nat n) in
  let history := history +:+ NL +:+ "Iteration " +:+ Text.of_nat i +:+ ": "
                 +:+ py_str E summary in
  let* items := lift (py_iter actions) in
  let* r := run_actions items [] in
  match r with
  | None => ret Return
  | Some iteration_output =>
      ret (Continue history (Text.join (NL +:+ NL) iteration_output))
  end.

Definition iteration (i : nat) (history last_output : string) : M flow :=
  let* stop := stop_requested in
  if stop then
    do* logger "Arrêt demandé par l'utilisateur." in
    ret Break
  else
    let* loc := WorkspaceExecutor.count_loc E root (language config) in
    do* logger (NL +:+ "=== Itération " +:+ Text.of_nat i +:+ " | LOC actuel: "
                +:+ Text.of_nat loc +:+ " ===") in
    do* (if (target_loc config <=? Z.of_nat loc)%Z
         then logger "Objectif de volume atteint. Passage en finalisation."
         else ret tt) in
    let prompt := _build_prompt i history last_output in
    let* raw := LocalLLMClient.generate E (model config) prompt in
    do* logger ("[llm] réponse brute (extrait):" +:+ NL +:+ Text.first_chars 1200 raw) in
    match _extract_json raw with
    | Raise exc =>
        do* logger ("Échec parsing JSON: " +:+ exn_str E exc) in
        ret (Continue history (exn_str E exc))
    | Ok plan => run_plan i plan history
    end.

(** [for i in range(i, i + n): ...] *)
Fixpoint cycle (n : nat) (i : nat) (history last_output : string) : M outcome :=
  match n with
  | 0 => ret Exhausted
  | S n' =>
      let* f := iteration i history last_output in
      match f with
      | Continue history' last_output' => cycle n' (S i) history' last_output'
      | Break => ret StoppedByUser
      | Return => ret StoppedByPlan
      end
  end.

Definition run_cycle : M outcome :=
  cycle (Z.to_nat (max_iterations config)) 1 "" "".

End Agent.
End AutoDevAgent.

(* ===================================================================== *)
(** ** Worlds and environments the statements below refer to *)
(* ===================================================================== *)

(** The world after [msgs] have been logged, after one reading of the stop
    flag, and after one invocation of the model. *)
Definition logged (msgs : list string) (w : World) : World :=
  mkWorld (fs w) (log w ++ msgs) (polls w) (llm_calls w) (shell_calls w).
Definition polled (w : World) : World :=
  mkWorld (fs w) (log w) (S (polls w)) (llm_calls w) (shell_calls w).
Definition invoked (w : World) : World :=
  mkWorld (fs w) (log w) (polls w) (S (llm_calls w)) (shell_calls w).


(** [c] occurs in [s]. *)
Fixpoint occurs (c : ascii) (s : string) : bool :=
  match s with
  | EmptyString => false
  | String a s' => Ascii.eqb a c || occurs c s'
  end.

(** The bytes a state of the decoder has read and not yet given out. *)
Definition pending (st : Text.ustate) : string :=
  match st with
  | Text.Idle => ""
  | Text.Pending acc _ _ _ => acc
  end.

Definition all_some (l : list (option string)) : bool :=
  forallb (fun i => bool_decide (is_Some i)) l.

(** The words of the specification, section 4.2: the first balanced
    top-level object of a text, from its first opening brace to the brace
    that closes it.  [close_from depth s] reads [s] behind an opening brace
    that [depth] more closing braces have to answer. *)
Module Spec.

Fixpoint close_from (depth : nat) (s : string) : option string :=
  match s with
  | EmptyString => None
  | String c s' =>
      if Ascii.eqb c "}" then
        match depth with
        | 0 => Some (String c EmptyString)
        | S d => option_map (String c) (close_from d s')
        end
      else if Ascii.eqb c "{" then option_map (String c) (close_from (S depth) s')
      else option_map (String c) (close_from depth s')
  end.

Definition first_balanced_object (raw : string) : option string :=
  match Text.cut_at "{" raw with
  | Some (_, after) => option_map (String "{") (close_from 0 after)
  | None => None
  end.

End Spec.

(** A process whose working directory is [/home/dev], a model that answers
    [answer] each time, a stop flag that is never set, a shell whose
    commands leave the filesystem as it is and end with the status
    [status]. *)
Definition sample_env (answer : string) (status : Z) : Env :=
  {| cwd := ["home"; "dev"];
     ollama := fun _ _ _ => Ok (mkProcess 0 answer "");
     stop_flag := fun _ => false;
     shell := fun _ _ _ f => (f, Ok (mkProcess status "compiled" "1 warning"));
     repr := fun _ => "<object>";
     message := fun _ => "<diagnostic>" |}.

(** The same with a stop flag that is set from its [k]-th reading on. *)
Definition stopping_env (answer : string) (k : nat) : Env :=
  {| cwd := ["home"; "dev"];
     ollama := fun _ _ _ => Ok (mkProcess 0 answer "");
     stop_flag := fun n => bool_decide (k <= n);
     shell := fun _ _ _ f => (f, Ok (mkProcess 0 "" ""));
     repr := fun _ => "<object>";
     message := fun _ => "<diagnostic>" |}.

(** The project directory [/home/dev/ws], empty, beside a directory
    [/home/dev/ws2]. *)
Definition sample_root : PurePath.t := PurePath.parse "/home/dev/ws".

Definition sample_fs : gmap (list string) Fs.node :=
  <[ ["home"; "dev"; "ws2"] := Fs.Dir ]>
    (<[ ["home"; "dev"; "ws"] := Fs.Dir ]>
       (<[ ["home"; "dev"] := Fs.Dir ]> (<[ ["home"] := Fs.Dir ]> ∅))).

Definition sample_world : World := mkWorld sample_fs [] 0 0 0.


(** The plan of the specification: a [done] action first, a [run] action
    second. *)
Definition done_then_run : string :=
  Json.dq "{'summary': 'fini', 'actions': [{'type': 'done', 'reason': 'tout est fait'}, {'type': 'run', 'cmd': 'make test'}]}".

Definition sample_config (n : Z) : AgentConfig :=
  {| model := "llama3.1"; project_dir := "/home/dev/ws";
     description := "Un outil en ligne de commande.";
     language := "python"; max_iterations := n; target_loc := 250000 |}.

(** The provider answers [raw] to the prompt of the iteration [i]: the
    invocation completes with the status 0, and [raw] is its output,
    stripped. *)
Definition provider_answers (E : Env) (config : AgentConfig) (i : nat)
    (history last_output : string) (w : World) (raw : string) : Prop :=
  exists r,
    ollama E (llm_calls w) (model config)
      (AutoDevAgent._build_prompt config i history last_output) = Ok r
    /\ returncode r = 0%Z
    /\ Text.strip (stdout r) = raw.

(** The world of the iteration [i] once the answer [raw] has been logged:
    the stop flag has been read, the lines counted and announced, the model
    invoked. *)
Definition at_plan (E : Env) (config : AgentConfig) (root : PurePath.t)
    (i : nat) (raw : string) (w : World) : World :=
  let loc := WorkspaceExecutor.count_loc_in E root (fs w) (language config) in
  let w1 := logged [NL +:+ "=== Itération " +:+ Text.of_nat i +:+ " | LOC actuel: "
                    +:+ Text.of_nat loc +:+ " ==="] (polled w) in
  let w2 := if (target_loc config <=? Z.of_nat loc)%Z
            then logged ["Objectif de volume atteint. Passage en finalisation."] w1
            else w1 in
  logged ["[llm] réponse brute (extrait):" +:+ NL +:+ Text.first_chars 1200 raw]
         (invoked w2).



(** A computation that invokes the model at no point, and one that does
    not end by the [return] of a [done] action. *)
Definition keeps_llm {A} (m : M A) : Prop :=
  forall w, llm_calls (m w).2 = llm_calls w.

(** A computation that does not read the stop flag. *)
Definition keeps_polls {A} (m : M A) : Prop :=
  forall w, polls (m w).2 = polls w.

(* ===================================================================== *)
(** ** [App]: the worker of the driving surface *)
(* ===================================================================== *)

Module App.

(** The errors of the system that the making of a directory runs into. *)
Inductive errno := ENOENT | EEXIST | ENOTDIR.

(** Where the walk through the directories [names] ends, the path being
    taken as it is written: a [..] goes up from the directory the walk is
    in, a name that is missing ends it with [ENOENT], a file with
    [ENOTDIR]. *)
Inductive reached :=
| At (cur : list string)
| Errno (e : errno).

Fixpoint enter_dirs (f : gmap (list string) Fs.node) (cur names : list string)
  : reached :=
  match names with
  | [] => At cur
  | name :: rest =>
      if bool_decide (name = "..") then enter_dirs f (removelast cur) rest
      else
        match f !! (cur ++ [name]) with
        | None => Errno ENOENT
        | Some (Fs.File _) => Errno ENOTDIR
        | Some Fs.Dir => enter_dirs f (cur ++ [name]) rest
        end
  end.

(** [os.mkdir(path)] for the path of the components [comps] from the
    directory [start]: the filesystem it leaves and the error, if any. *)
Definition os_mkdir (f : gmap (list string) Fs.node) (start comps : list string)
  : gmap (list string) Fs.node * option errno :=
  match comps with
  | [] => (f, Some EEXIST)
  | _ =>
      match enter_dirs f start (removelast comps) with
      | Errno e => (f, Some e)
      | At cur =>
          let name := List.last comps "" in
          if bool_decide (name = "..") then (f, Some EEXIST)
          else
            match f !! (cur ++ [name]) with
            | None => (<[cur ++ [name] := Fs.Dir]> f, None)
            | Some _ => (f, Some EEXIST)
            end
      end
  end.

(** [path.is_dir()] *)
Definition is_dir_at (f : gmap (list string) Fs.node) (start comps : list string)
  : bool :=
  match enter_dirs f start comps with
  | At _ => true
  | Errno _ => false
  end.

(** The exception of an error; it names the path as it is written. *)
Definition error_of (e : errno) (comps : list string) : exn :=
  match e with
  | ENOENT => FileNotFoundError comps
  | EEXIST => FileExistsError comps
  | ENOTDIR => NotADirectoryError comps
  end.

(** [path.mkdir(parents=True, exist_ok=True)] as [pathlib] does it, for
    the path whose components, the last one first, are [rcomps]: the
    directory is made; where a directory above it is missing, the parent
    is made in the same way and the directory is made then; any other
    error is passed over when the path is a directory.  What has been made
    before an error stays. *)
Fixpoint mkdir_parents (f : gmap (list string) Fs.node) (start rcomps : list string)
  : gmap (list string) Fs.node * result unit :=
  let comps := rev rcomps in
  match os_mkdir f start comps with
  | (f', None) => (f', Ok tt)
  | (_, Some ENOENT) =>
      match rcomps with
      | [] => (f, Raise (error_of ENOENT comps))
      | _ :: rparent =>
          match mkdir_parents f start rparent with
          | (f1, Raise e) => (f1, Raise e)
          | (f1, Ok _) =>
              match os_mkdir f1 start comps with
              | (f2, None) => (f2, Ok tt)
              | (_, Some ENOENT) => (f1, Raise (error_of ENOENT comps))
              | (_, Some e) =>
                  if is_dir_at f1 start comps then (f1, Ok tt)
                  else (f1, Raise (error_of e comps))
              end
          end
      end
  | (_, Some e) =>
      if is_dir_at f start comps then (f, Ok tt)
      else (f, Raise (error_of e comps))
  end.

(** [Path(s).mkdir(parents=True, exist_ok=True)] in a process whose
    working directory is [cwd E]. *)
Definition mkdir_path (E : Env) (p : PurePath.t) (f : gmap (list string) Fs.node)
  : gmap (list string) Fs.node * result unit :=
  mkdir_parents f (if PurePath.absolute p then [] else cwd E) (rev (PurePath.parts p)).

Definition mkdir_project (E : Env) (root : PurePath.t) : M unit :=
  fun w =>
    let '(f', r) := mkdir_path E root (fs w) in
    (r, mkWorld f' (log w) (polls w) (llm_calls w) (shell_calls w)).

(** The body of the worker thread: the project directory is made, the
    agent runs, and whatever is raised is logged. *)
Definition _run_agent_thread (E : Env) (cfg : AgentConfig) : M unit :=
  try_except
    (let root := PurePath.parse (project_dir cfg) in
     do* mkdir_project E root in
     let* _ := AutoDevAgent.run_cycle E cfg root in
     logger "Cycle IA terminé.")
    (fun exc => logger ("Erreur fatale: " +:+ exn_str E exc)).

End App.

(* ===================================================================== *)
(** ** More of what the statements refer to *)
(* ===================================================================== *)


(** A value that is a [dict]. *)
Definition is_object (v : json) : bool :=
  match v with
  | JObj _ => true
  | _ => false
  end.

(** The type of an action that is none of the six the loop knows. *)
Definition unknown_type (a_type : json) : bool :=
  negb (AutoDevAgent.type_is a_type "mkdir" || AutoDevAgent.type_is a_type "write_file"
        || AutoDevAgent.type_is a_type "append_file" || AutoDevAgent.type_is a_type "read_file"
        || AutoDevAgent.type_is a_type "run" || AutoDevAgent.type_is a_type "done").

(** A component of a canonical path: not empty, and without a slash. *)
Definition component_ok (name : string) : bool :=
  negb (bool_decide (name = "")) && negb (occurs "/" name).

(** The world of the iteration [i] as the model is invoked: the stop flag
    has been read, the lines counted and announced. *)
Definition before_llm (E : Env) (config : AgentConfig) (root : PurePath.t)
    (i : nat) (w : World) : World :=
  let loc := WorkspaceExecutor.count_loc_in E root (fs w) (language config) in
  let w1 := logged [NL +:+ "=== Itération " +:+ Text.of_nat i +:+ " | LOC actuel: "
                    +:+ Text.of_nat loc +:+ " ==="] (polled w) in
  if (target_loc config <=? Z.of_nat loc)%Z
  then logged ["Objectif de volume atteint. Passage en finalisation."] w1
  else w1.

(** The environment of [sample_env] with a provider that does not answer
    in time. *)
Definition timeout_env : Env :=
  {| cwd := ["home"; "dev"];
     ollama := fun _ _ _ => Raise TimeoutExpired;
     stop_flag := fun _ => false;
     shell := fun _ _ _ f => (f, Ok (mkProcess 0 "" ""));
     repr := fun _ => "<object>";
     message := fun _ => "<diagnostic>" |}.

(** The environment of [sample_env] with a stop flag that is found set at
    its second reading and from then on. *)
Definition late_stop_env (answer : string) : Env := stopping_env answer 1.

(* ===================================================================== *)
(** ** Facts on texts and paths *)
(* ===================================================================== *)

Module TextFacts.

Lemma append_cons (c : ascii) (s t : string) : String c s +:+ t = String c (s +:+ t).
Proof. reflexivity. Qed.

Lemma append_nil_l (t : string) : "" +:+ t = t.
Proof. reflexivity. Qed.

Lemma append_nil_r (s : string) : s +:+ "" = s.
Proof.
  induction s as [|c s IH]; [reflexivity|].
  by rewrite append_cons, IH.
Qed.

Lemma append_assoc (a b c : string) : (a +:+ b) +:+ c = a +:+ b +:+ c.
Proof.
  induction a as [|x a IH]; [reflexivity|].
  by rewrite !append_cons, IH.
Qed.

Lemma startswith_nil (s : string) : Text.startswith s "" = true.
Proof. by destruct s. Qed.

Lemma startswith_append (p s : string) : Text.startswith (p +:+ s) p = true.
Proof.
  induction p as [|c p IH].
  - apply startswith_nil.
  - rewrite append_cons. simpl. by rewrite Ascii.eqb_refl.
Qed.

Lemma startswith_append_both (a s p : string) :
  Text.startswith (a +:+ s) (a +:+ p) = Text.startswith s p.
Proof.
  induction a as [|c a IH]; [reflexivity|].
  rewrite !append_cons. simpl. by rewrite Ascii.eqb_refl.
Qed.

Lemma startswith_refl (s : string) : Text.startswith s s = true.
Proof. induction s as [|c s IH]; simpl; [reflexivity | by rewrite Ascii.eqb_refl]. Qed.

Lemma join_cons (sep a b : string) (l : list string) :
  Text.join sep (a :: b :: l) = a +:+ sep +:+ Text.join sep (b :: l).
Proof. reflexivity. Qed.

(** The rendering of a path starts with the rendering of each of the
    directories above it. *)
Lemma join_app_startswith (r rest : list string) :
  Text.startswith (Text.join "/" (r ++ rest)) (Text.join "/" r) = true.
Proof.
  induction r as [|a r IH].
  - apply startswith_nil.
  - destruct r as [|b r].
    + destruct rest as [|x rest]; simpl app.
      * apply startswith_refl.
      * rewrite join_cons. apply startswith_append.
    + change ((a :: b :: r) ++ rest) with (a :: b :: (r ++ rest)).
      rewrite !join_cons, !startswith_append_both. exact IH.
Qed.

Lemma str_startswith (r rest : list string) :
  Text.startswith (PurePath.str (r ++ rest)) (PurePath.str r) = true.
Proof.
  unfold PurePath.str. rewrite startswith_append_both. apply join_app_startswith.
Qed.

End TextFacts.

(* ===================================================================== *)
(** ** Facts on the UTF-8 decoder and on line ends *)
(* ===================================================================== *)

Module Utf8Facts.
Import TextFacts.

Lemma ustart_cases (c : ascii) :
  Text.ustart c = ([Some (Text.str1 c)], Text.Idle)
  \/ Text.ustart c = ([None], Text.Idle)
  \/ exists need lo hi, Text.ustart c = ([], Text.Pending (Text.str1 c) need lo hi).
Proof.
  unfold Text.ustart.
  repeat match goal with
         | |- context [if ?b then _ else _] => destruct b
         end; eauto 10.
Qed.

(** A step gives out well-formed characters only if what it gives out and
    what it keeps is what it had kept and the byte it has read. *)
Lemma ustep_pending (st : Text.ustate) (c : ascii) (on_error : string) :
  all_some (Text.ustep st c).1 = true ->
  Text.concat (map (default on_error) (Text.ustep st c).1)
    +:+ pending (Text.ustep st c).2 = pending st +:+ Text.str1 c.
Proof.
  destruct st as [|acc need lo hi]; simpl.
  - destruct (ustart_cases c) as [H|[H|(need & lo & hi & H)]];
      rewrite H; simpl; try discriminate; done.
  - destruct (Text.in_range lo hi c).
    + destruct need as [|[|k]]; simpl; intros _;
        by rewrite ?append_nil_r, ?append_nil_l.
    + destruct (Text.ustart c); simpl. discriminate.
Qed.

Lemma items_from_well_formed (on_error : string) (s : string) :
  forall st,
    all_some (Text.items_from st s) = true ->
    Text.concat (map (default on_error) (Text.items_from st s)) = pending st +:+ s.
Proof.
  induction s as [|c s IH]; intros st; simpl.
  - destruct st; simpl; [done | discriminate].
  - pose proof (ustep_pending st c on_error) as Hstep.
    destruct (Text.ustep st c) as [out st'] eqn:Hs. simpl in Hstep.
    unfold all_some. rewrite forallb_app. intros [Hout Hrest]%andb_true_iff.
    rewrite map_app.
    assert (Hcat : forall l1 l2, Text.concat (l1 ++ l2) = Text.concat l1 +:+ Text.concat l2).
    { induction l1 as [|x l1 IH1]; intros l2; simpl; [done|].
      by rewrite IH1, append_assoc. }
    rewrite Hcat, (IH st' Hrest), <- append_assoc, (Hstep Hout), append_assoc.
    done.
Qed.

(** Decoding the encoding of a text gives the text, whatever the error
    handler. *)
Lemma decode_encode (on_error : string) (s : string) :
  Text.well_formed s = true ->
  Text.decode on_error (Text.encode s) = s.
Proof.
  intros H. unfold Text.decode, Text.encode, Text.items.
  by rewrite (items_from_well_formed on_error s Text.Idle H).
Qed.

(** A text without a carriage return has no line end to translate. *)
Lemma universal_newlines_without_cr (s : string) :
  occurs Text.CR s = false -> Text.universal_newlines s = s.
Proof.
  induction s as [|c s IH]; simpl; [done|].
  intros [Hc Hs]%orb_false_iff. rewrite Hc. by rewrite IH.
Qed.

End Utf8Facts.

(* ===================================================================== *)
(** ** Facts on the filesystem *)
(* ===================================================================== *)

Module FsFacts.

Lemma lookup_from_cons (f : gmap (list string) Fs.node) (cur : list string)
    (name : string) (rest : list string) :
  Fs.lookup_from f cur (name :: rest) =
    match f !! (cur ++ [name]) with
    | None => Fs.Missing
    | Some (Fs.File b) =>
        match rest with [] => Fs.Found (Fs.File b) | _ => Fs.NotDir end
    | Some Fs.Dir => Fs.lookup_from f (cur ++ [name]) rest
    end.
Proof. reflexivity. Qed.

(** The walk to a file that has just been written at [p]: it ends on the
    file if, before, it ended on a file or found everything but the last
    component. *)
Lemma lookup_from_write (f : gmap (list string) Fs.node) (p : list string)
    (bytes : string) (todo : list string) :
  forall cur,
    p = cur ++ todo ->
    todo <> [] ->
    (exists b, Fs.lookup_from f cur todo = Fs.Found (Fs.File b))
    \/ (Fs.lookup_from f cur todo = Fs.Missing
        /\ Fs.lookup_from f cur (removelast todo) = Fs.Found Fs.Dir) ->
    Fs.lookup_from (<[p := Fs.File bytes]> f) cur todo = Fs.Found (Fs.File bytes).
Proof.
  induction todo as [|name rest IH]; intros cur Hp Hne Hwalk; [done|].
  rewrite lookup_from_cons.
  destruct rest as [|name2 rest].
  - subst p. by rewrite lookup_insert_eq.
  - assert (Hkey : p <> cur ++ [name]).
    { subst p. intros H%app_inv_head. discriminate. }
    rewrite lookup_insert_ne by done.
    change (removelast (name :: name2 :: rest))
      with (name :: removelast (name2 :: rest)) in Hwalk.
    rewrite !lookup_from_cons in Hwalk.
    destruct (f !! (cur ++ [name])) as [[|b]|] eqn:Hk.
    + apply IH; [by rewrite <- app_assoc | done |].
      rewrite lookup_from_cons. exact Hwalk.
    + destruct Hwalk as [[b' Hw]|[Hw _]]; discriminate.
    + destruct Hwalk as [[b' Hw]|[_ Hw]]; discriminate.
Qed.

(** After a write that has succeeded, the file is there with the text. *)
Lemma lookup_write (f f' : gmap (list string) Fs.node) (p : list string)
    (data : string) :
  Fs.write false f p data = Ok f' ->
  Fs.lookup f' p = Fs.Found (Fs.File (Text.encode data)).
Proof.
  unfold Fs.write, Fs.open_for, Fs.lookup.
  destruct (Fs.lookup_from f [] p) as [[|b]| |] eqn:Hl; try discriminate.
  - intros [= <-]. apply lookup_from_write; [done| |eauto].
    intros ->. discriminate.
  - destruct (Fs.lookup_from f [] (PurePath.parent p)) as [[|b]| |] eqn:Hpar;
      try discriminate.
    intros [= <-]. apply lookup_from_write; [done| |by right].
    intros ->. discriminate.
Qed.

End FsFacts.

(* ===================================================================== *)
(** ** Facts on the JSON decoder *)
(* ===================================================================== *)

Module JsonFacts.

Local Abbreviation sz := String.length.

Lemma skip_ws_length (s : string) : sz (Json.skip_ws s) <= sz s.
Proof.
  induction s as [|c s IH]; simpl; [lia|].
  destruct (Json.is_ws c); simpl; lia.
Qed.

Lemma skip_ws_cons (s : string) (c : ascii) (r : string) :
  Json.skip_ws s = String c r -> sz r < sz s.
Proof.
  intros H. pose proof (skip_ws_length s) as Hl. rewrite H in Hl. simpl in Hl. lia.
Qed.

Lemma prepend_some (pre : string) (x : option (string * string)) (str r : string) :
  Json.prepend pre x = Some (str, r) -> exists str', x = Some (str', r).
Proof.
  destruct x as [[str' r']|]; simpl; [|discriminate].
  intros [= _ <-]. by exists str'.
Qed.

(** A string literal ends behind what has been read of it. *)
Lemma scanstring_length (n : nat) :
  forall s hi str r,
    sz s <= n -> Json.scanstring hi s = Some (str, r) -> sz r < sz s.
Proof.
  induction n as [|n IH]; intros s hi str r Hn.
  - destruct s; [discriminate | simpl in Hn; lia].
  - destruct s as [|c rest]; [discriminate|]. simpl in Hn. simpl.
    destruct (Json.is_ch c Text.QUOTE); [intros [= _ <-]; simpl; lia|].
    destruct (Json.is_ch c "\").
    + destruct rest as [|e rest1]; [discriminate|]. simpl in Hn.
      destruct (Json.is_ch e "u").
      * destruct rest1 as [|h1 [|h2 [|h3 [|h4 rest2]]]]; try discriminate.
        simpl in Hn.
        destruct (Json.hex4 h1 h2 h3 h4) as [u|]; [|discriminate].
        assert (Hrec : forall hi' str' r',
                   Json.scanstring hi' rest2 = Some (str', r') ->
                   sz r' < S (S (S (S (S (S (sz rest2))))))).
        { intros hi' str' r' H. apply IH in H; lia. }
        destruct hi as [h|];
          repeat match goal with
                 | |- context [if ?b then _ else _] => destruct b
                 end;
          intros H; try apply prepend_some in H as [str' H];
          apply Hrec in H; simpl; lia.
      * destruct (Json.unescape e); [|discriminate].
        intros [str' H]%prepend_some. apply IH in H; simpl; lia.
    + destruct (Text.code c <? 32)%N; [discriminate|].
      intros [str' H]%prepend_some. apply IH in H; simpl; lia.
Qed.

Lemma span_digits_length (s d r : string) :
  Json.span_digits s = (d, r) -> sz d + sz r = sz s.
Proof.
  revert d r. induction s as [|c s IH]; intros d r; simpl.
  - by intros [= <- <-].
  - destruct (Json.is_digit c).
    + destruct (Json.span_digits s) as [d' r'] eqn:Hs. intros [= <- <-].
      specialize (IH d' r' eq_refl). simpl. lia.
    + intros [= <- <-]. simpl. lia.
Qed.

Lemma int_part_length (s i r : string) :
  Json.int_part s = Some (i, r) -> sz r < sz s.
Proof.
  destruct s as [|c s]; [discriminate|]. unfold Json.int_part.
  destruct (Json.is_ch c "0"); [intros [= _ <-]; simpl; lia|].
  destruct (Json.is_digit c) eqn:Hd; [|discriminate].
  intros [= H]. simpl in H. rewrite Hd in H.
  destruct (Json.span_digits s) as [d' r'] eqn:Hs. injection H as _ <-.
  apply span_digits_length in Hs. simpl. lia.
Qed.

Lemma frac_part_length (s f r : string) :
  Json.frac_part s = Some (f, r) -> sz r < sz s.
Proof.
  destruct s as [|c s]; [discriminate|]. unfold Json.frac_part.
  destruct (Json.is_ch c "."); [|discriminate].
  destruct (Json.span_digits s) as [d r'] eqn:Hs.
  apply span_digits_length in Hs.
  destruct d; [discriminate|]. intros [= _ <-]. simpl. lia.
Qed.

Lemma opt_char_length (ok : ascii -> bool) (s a r : string) :
  Json.opt_char ok s = (a, r) -> sz r <= sz s.
Proof.
  unfold Json.opt_char. destruct s as [|c s']; [by intros [= _ <-]|].
  destruct (ok c); intros [= _ <-]; simpl; lia.
Qed.

Lemma exp_part_length (s e r : string) :
  Json.exp_part s = Some (e, r) -> sz r < sz s.
Proof.
  destruct s as [|c s]; [discriminate|]. unfold Json.exp_part.
  destruct (_ || _); [|discriminate].
  destruct (Json.opt_char _ s) as [sign s''] eqn:Hs.
  apply opt_char_length in Hs.
  destruct (Json.span_digits s'') as [d r'] eqn:Hd.
  apply span_digits_length in Hd.
  destruct d; [discriminate|]. intros [= _ <-]. simpl. lia.
Qed.

Lemma opt_part_length (part : string -> option (string * string)) (s a r : string) :
  (forall a' r', part s = Some (a', r') -> sz r' < sz s) ->
  Json.opt_part part s = (a, r) -> sz r <= sz s.
Proof.
  intros Hpart. unfold Json.opt_part.
  destruct (part s) as [[a' r']|]; simpl; intros [= _ <-]; [|lia].
  specialize (Hpart a' r' eq_refl). lia.
Qed.

Lemma number_length (s : string) (v : json) (r : string) :
  Json.number s = Some (v, r) -> sz r < sz s.
Proof.
  unfold Json.number.
  destruct (Json.opt_char _ s) as [minus s0] eqn:Hs. apply opt_char_length in Hs.
  destruct (Json.int_part s0) as [[i r0]|] eqn:Hi; [|discriminate].
  apply int_part_length in Hi.
  destruct (Json.opt_part Json.frac_part r0) as [f r1] eqn:Hf.
  apply opt_part_length in Hf; [|intros ? ?; apply frac_part_length].
  destruct (Json.opt_part Json.exp_part r1) as [e r2] eqn:He.
  apply opt_part_length in He; [|intros ? ?; apply exp_part_length].
  destruct (_ && _); intros [= _ <-]; lia.
Qed.

Lemma strip_prefix_length (w s r : string) :
  Json.strip_prefix w s = Some r -> sz r + sz w = sz s.
Proof.
  revert s. induction w as [|a w IH]; intros s; simpl.
  - intros [= <-]. lia.
  - destruct s as [|b s]; [discriminate|].
    destruct (Ascii.eqb a b); [|discriminate].
    intros H%IH. simpl. lia.
Qed.

Lemma literal_length (s : string) (v : json) (r : string) :
  Json.literal s = Some (v, r) -> sz r < sz s.
Proof.
  unfold Json.literal.
  repeat match goal with
         | |- context [Json.strip_prefix ?w s] =>
             let H := fresh "H" in
             destruct (Json.strip_prefix w s) eqn:H;
             [apply strip_prefix_length in H; simpl in H; intros [= _ <-]; lia|]
         | |- context [Json.number s] =>
             let H := fresh "H" in
             destruct (Json.number s) as [[v' r']|] eqn:H;
             [apply number_length in H; intros [= _ <-]; lia|]
         end.
  discriminate.
Qed.

(** *** The scanner *)

Lemma scan_once_S (n : nat) (s : string) :
  Json.scan_once (S n) s =
    match s with
    | EmptyString => None
    | String c rest =>
        if Json.is_ch c Text.QUOTE then
          match Json.scanstring None rest with
          | Some (str, r) => Some (JStr str, r)
          | None => None
          end
        else if Json.is_ch c "{" then Json.JSONObject n rest
        else if Json.is_ch c "[" then Json.JSONArray n rest
        else Json.literal s
    end.
Proof. reflexivity. Qed.

Lemma JSONObject_S (n : nat) (s : string) :
  Json.JSONObject (S n) s =
    match Json.skip_ws s with
    | String c r =>
        if Json.is_ch c "}" then Some (JObj [], r)
        else if Json.is_ch c Text.QUOTE then Json.object_pairs n [] r
        else None
    | EmptyString => None
    end.
Proof. reflexivity. Qed.

Lemma object_pairs_S (n : nat) (acc : list (string * json)) (s : string) :
  Json.object_pairs (S n) acc s =
    match Json.scanstring None s with
    | None => None
    | Some (key, r1) =>
        match Json.skip_ws r1 with
        | String c r2 =>
            if Json.is_ch c ":" then
              match Json.scan_once n (Json.skip_ws r2) with
              | None => None
              | Some (v, r3) =>
                  match Json.skip_ws r3 with
                  | String d r4 =>
                      if Json.is_ch d "}" then Some (JObj (Json.dict_set key v acc), r4)
                      else if Json.is_ch d "," then
                        match Json.skip_ws r4 with
                        | String q r5 =>
                            if Json.is_ch q Text.QUOTE
                            then Json.object_pairs n (Json.dict_set key v acc) r5
                            else None
                        | EmptyString => None
                        end
                      else None
                  | EmptyString => None
                  end
              end
            else None
        | EmptyString => None
        end
    end.
Proof. reflexivity. Qed.

Lemma JSONArray_S (n : nat) (s : string) :
  Json.JSONArray (S n) s =
    match Json.skip_ws s with
    | String c r =>
        if Json.is_ch c "]" then Some (JArr [], r)
        else Json.array_items n [] (Json.skip_ws s)
    | EmptyString => None
    end.
Proof. reflexivity. Qed.

Lemma array_items_S (n : nat) (acc : list json) (s : string) :
  Json.array_items (S n) acc s =
    match Json.scan_once n s with
    | None => None
    | Some (v, r1) =>
        match Json.skip_ws r1 with
        | String d r2 =>
            if Json.is_ch d "]" then Some (JArr (acc ++ [v]), r2)
            else if Json.is_ch d "," then Json.array_items n (acc ++ [v]) (Json.skip_ws r2)
            else None
        | EmptyString => None
        end
    end.
Proof. reflexivity. Qed.

(** What the scanner has read lies before what it leaves. *)
Lemma scanner_length (n : nat) :
  (forall s v r, Json.scan_once n s = Some (v, r) -> sz r < sz s)
  /\ (forall s v r, Json.JSONObject n s = Some (v, r) -> sz r < sz s)
  /\ (forall acc s v r, Json.object_pairs n acc s = Some (v, r) -> sz r < sz s)
  /\ (forall s v r, Json.JSONArray n s = Some (v, r) -> sz r < sz s)
  /\ (forall acc s v r, Json.array_items n acc s = Some (v, r) -> sz r < sz s).
Proof.
  induction n as [|n (IHs & IHo & IHp & IHa & IHi)];
    [repeat split; intros; discriminate|].
  repeat split.
  - intros s v r. rewrite scan_once_S. destruct s as [|c rest]; [discriminate|].
    destruct (Json.is_ch c Text.QUOTE).
    { destruct (Json.scanstring None rest) as [[str r']|] eqn:Hs; [|discriminate].
      intros [= _ <-]. apply (scanstring_length _ _ _ _ _ (le_n _)) in Hs. simpl. lia. }
    destruct (Json.is_ch c "{"); [intros Hrec%IHo; simpl; lia|].
    destruct (Json.is_ch c "["); [intros Hrec%IHa; simpl; lia|].
    apply literal_length.
  - intros s v r. rewrite JSONObject_S.
    destruct (Json.skip_ws s) as [|c r0] eqn:Hw; [discriminate|].
    apply skip_ws_cons in Hw.
    destruct (Json.is_ch c "}"); [intros [= _ <-]; lia|].
    destruct (Json.is_ch c Text.QUOTE); [|discriminate].
    intros Hrec%IHp. lia.
  - intros acc s v r. rewrite object_pairs_S.
    destruct (Json.scanstring None s) as [[key r1]|] eqn:Hk; [|discriminate].
    apply (scanstring_length _ _ _ _ _ (le_n _)) in Hk.
    destruct (Json.skip_ws r1) as [|c r2] eqn:H1; [discriminate|].
    apply skip_ws_cons in H1.
    destruct (Json.is_ch c ":"); [|discriminate].
    destruct (Json.scan_once n (Json.skip_ws r2)) as [[v' r3]|] eqn:Hv; [|discriminate].
    apply IHs in Hv. pose proof (skip_ws_length r2).
    destruct (Json.skip_ws r3) as [|d r4] eqn:H3; [discriminate|].
    apply skip_ws_cons in H3.
    destruct (Json.is_ch d "}"); [intros [= _ <-]; lia|].
    destruct (Json.is_ch d ","); [|discriminate].
    destruct (Json.skip_ws r4) as [|q r5] eqn:H4; [discriminate|].
    apply skip_ws_cons in H4.
    destruct (Json.is_ch q Text.QUOTE); [|discriminate].
    intros Hrec%IHp. lia.
  - intros s v r. rewrite JSONArray_S.
    destruct (Json.skip_ws s) as [|c r0] eqn:Hw; [discriminate|].
    pose proof (skip_ws_cons _ _ _ Hw). pose proof (skip_ws_length s).
    destruct (Json.is_ch c "]"); [intros [= _ <-]; lia|].
    intros Hrec%IHi. simpl in Hrec. lia.
  - intros acc s v r. rewrite array_items_S.
    destruct (Json.scan_once n s) as [[v' r1]|] eqn:Hv; [|discriminate].
    apply IHs in Hv.
    destruct (Json.skip_ws r1) as [|d r2] eqn:H1; [discriminate|].
    apply skip_ws_cons in H1.
    destruct (Json.is_ch d "]"); [intros [= _ <-]; lia|].
    destruct (Json.is_ch d ","); [|discriminate].
    intros Hrec%IHi. pose proof (skip_ws_length r2). lia.
Qed.

(** More fuel than three times the length of the text changes nothing. *)
Lemma scanner_fuel (n : nat) :
  (forall m s, 3 * sz s + 1 <= n -> 3 * sz s + 1 <= m ->
               Json.scan_once n s = Json.scan_once m s)
  /\ (forall m s, 3 * sz s + 3 <= n -> 3 * sz s + 3 <= m ->
                  Json.JSONObject n s = Json.JSONObject m s)
  /\ (forall m acc s, 3 * sz s + 2 <= n -> 3 * sz s + 2 <= m ->
                      Json.object_pairs n acc s = Json.object_pairs m acc s)
  /\ (forall m s, 3 * sz s + 3 <= n -> 3 * sz s + 3 <= m ->
                  Json.JSONArray n s = Json.JSONArray m s)
  /\ (forall m acc s, 3 * sz s + 2 <= n -> 3 * sz s + 2 <= m ->
                      Json.array_items n acc s = Json.array_items m acc s).
Proof.
  induction n as [|n (IHs & IHo & IHp & IHa & IHi)];
    [repeat split; intros; lia|].
  repeat split.
  - intros [|m] s Hn Hm; [lia|]. rewrite !scan_once_S.
    destruct s as [|c rest]; [done|]. simpl in Hn, Hm.
    destruct (Json.is_ch c Text.QUOTE); [done|].
    destruct (Json.is_ch c "{"); [apply IHo; lia|].
    destruct (Json.is_ch c "["); [apply IHa; lia|]. done.
  - intros [|m] s Hn Hm; [lia|]. rewrite !JSONObject_S.
    destruct (Json.skip_ws s) as [|c r0] eqn:Hw; [done|].
    apply skip_ws_cons in Hw.
    destruct (Json.is_ch c "}"); [done|].
    destruct (Json.is_ch c Text.QUOTE); [|done].
    apply IHp; lia.
  - intros [|m] acc s Hn Hm; [lia|]. rewrite !object_pairs_S.
    destruct (Json.scanstring None s) as [[key r1]|] eqn:Hk; [|done].
    apply (scanstring_length _ _ _ _ _ (le_n _)) in Hk.
    destruct (Json.skip_ws r1) as [|c r2] eqn:H1; [done|].
    apply skip_ws_cons in H1.
    destruct (Json.is_ch c ":"); [|done].
    pose proof (skip_ws_length r2).
    rewrite (IHs m (Json.skip_ws r2)) by lia.
    destruct (Json.scan_once m (Json.skip_ws r2)) as [[v' r3]|] eqn:Hv; [|done].
    apply (proj1 (scanner_length m)) in Hv.
    destruct (Json.skip_ws r3) as [|d r4] eqn:H3; [done|].
    apply skip_ws_cons in H3.
    destruct (Json.is_ch d "}"); [done|].
    destruct (Json.is_ch d ","); [|done].
    destruct (Json.skip_ws r4) as [|q r5] eqn:H4; [done|].
    apply skip_ws_cons in H4.
    destruct (Json.is_ch q Text.QUOTE); [|done].
    apply IHp; lia.
  - intros [|m] s Hn Hm; [lia|]. rewrite !JSONArray_S.
    pose proof (skip_ws_length s).
    destruct (Json.skip_ws s) as [|c r0] eqn:Hw; [done|].
    destruct (Json.is_ch c "]"); [done|].
    apply IHi; lia.
  - intros [|m] acc s Hn Hm; [lia|]. rewrite !array_items_S.
    rewrite (IHs m s) by lia.
    destruct (Json.scan_once m s) as [[v' r1]|] eqn:Hv; [|done].
    apply (proj1 (scanner_length m)) in Hv.
    destruct (Json.skip_ws r1) as [|d r2] eqn:H1; [done|].
    apply skip_ws_cons in H1.
    destruct (Json.is_ch d "]"); [done|].
    destruct (Json.is_ch d ","); [|done].
    pose proof (skip_ws_length r2).
    apply IHi; lia.
Qed.

(** The fuel of [loads] is enough: with any more fuel the scanner reads
    the same value off the text. *)
Lemma scan_once_fuel (s : string) (m : nat) :
  3 * sz s + 3 <= m ->
  Json.scan_once m (Json.skip_ws s)
    = Json.scan_once (3 * sz s + 3) (Json.skip_ws s).
Proof.
  intros Hm. pose proof (skip_ws_length s).
  apply (proj1 (scanner_fuel m)); lia.
Qed.

(** A document that starts with an opening brace is an object when it is
    decoded. *)
Lemma object_pairs_object (n : nat) :
  forall acc s v r, Json.object_pairs n acc s = Some (v, r) -> exists d, v = JObj d.
Proof.
  induction n as [|n IH]; intros acc s v r; [discriminate|].
  rewrite object_pairs_S.
  repeat match goal with
         | |- context [match ?x with _ => _ end] => destruct x; try discriminate
         end; eauto.
  intros [= <- _]. eauto.
Qed.

Lemma loads_object (s : string) (v : json) :
  Json.loads (String "{" s) = Some v -> exists d, v = JObj d.
Proof.
  unfold Json.loads.
  change (Json.skip_ws (String "{" s)) with (String "{" s).
  destruct (3 * sz (String "{" s) + 3) as [|[|n]]; [discriminate| |].
  { rewrite scan_once_S. discriminate. }
  rewrite scan_once_S.
  change (Json.is_ch "{" Text.QUOTE) with false.
  change (Json.is_ch "{" "{") with true. cbv iota.
  rewrite JSONObject_S.
  destruct (Json.skip_ws s) as [|c r]; [discriminate|].
  destruct (Json.is_ch c "}").
  { destruct (Json.skip_ws r); [|discriminate]. intros [= <-]. eauto. }
  destruct (Json.is_ch c Text.QUOTE); [|discriminate].
  destruct (Json.object_pairs n [] r) as [[v' r']|] eqn:Hp; [|discriminate].
  apply object_pairs_object in Hp as [d ->].
  destruct (Json.skip_ws r'); [|discriminate]. intros [= <-]. eauto.
Qed.

End JsonFacts.

(* ===================================================================== *)
(** ** The sandboxed executor *)
(* ===================================================================== *)

Module ExecutorFacts.
Import TextFacts.

Ltac run_monad :=
  cbv beta iota zeta delta
    [bind ret raise lift try_except logger fs_update get_fs put_fs];
  cbn [fs log polls llm_calls shell_calls].

(** *** Path resolution *)

(** What [_resolve] accepts, it returns as the canonical path of
    [root / rel_path]; what it accepts or not is decided on the rendering
    of that path. *)
Lemma _resolve_spec (E : Env) (root : PurePath.t) (s : string) :
  let safe := PurePath.resolve (cwd E) (PurePath.div root s) in
  WorkspaceExecutor._resolve E root (JStr s) =
    if Text.startswith (PurePath.str safe)
         (PurePath.str (PurePath.resolve (cwd E) root))
    then Ok safe
    else Raise (ValueError ("Chemin hors workspace interdit: " +:+ s)).
Proof.
  intros safe. unfold WorkspaceExecutor._resolve. fold safe.
  by destruct (Text.startswith _ _).
Qed.

(** A path that resolves to the root or below it is accepted. *)
Lemma _resolve_accepts_within (E : Env) (root : PurePath.t) (s : string) :
  PurePath.within (PurePath.resolve (cwd E) root)
                  (PurePath.resolve (cwd E) (PurePath.div root s)) ->
  WorkspaceExecutor._resolve E root (JStr s) =
    Ok (PurePath.resolve (cwd E) (PurePath.div root s)).
Proof.
  intros [rest Hrest]. rewrite _resolve_spec. cbv zeta.
  rewrite Hrest at 1. by rewrite str_startswith.
Qed.

(** The operations that take a path leave the world as it is when the
    path is refused. *)
Lemma refused_path_no_effect (E : Env) (root : PurePath.t) (p c : json)
    (e : exn) (w : World) :
  WorkspaceExecutor._resolve E root p = Raise e ->
  WorkspaceExecutor.mkdir E root p w = (Raise e, w)
  /\ WorkspaceExecutor.write_file E root p c w = (Raise e, w)
  /\ WorkspaceExecutor.append_file E root p c w = (Raise e, w)
  /\ WorkspaceExecutor.read_file E root p w = (Raise e, w).
Proof.
  intros H.
  unfold WorkspaceExecutor.mkdir, WorkspaceExecutor.write_file,
    WorkspaceExecutor.append_file, WorkspaceExecutor.read_file.
  run_monad. by rewrite H.
Qed.

(** C1.  The check of [_resolve] compares the renderings of the two paths
    as texts.  With the root [/home/dev/ws], the path [../ws2/secret.txt]
    resolves to [/home/dev/ws2/secret.txt], a file of the sibling directory
    [/home/dev/ws2] and so outside the root; [_resolve] accepts it, and
    [write_file] writes the file there. *)
Theorem _resolve_accepts_sibling_directory :
  let E := sample_env "" 0 in
  let outside := ["home"; "dev"; "ws2"; "secret.txt"] in
  PurePath.resolve (cwd E) sample_root = ["home"; "dev"; "ws"]
  /\ ~ PurePath.within (PurePath.resolve (cwd E) sample_root) outside
  /\ WorkspaceExecutor._resolve E sample_root (JStr "../ws2/secret.txt") = Ok outside
  /\ exists w',
       WorkspaceExecutor.write_file E sample_root
         (JStr "../ws2/secret.txt") (JStr "x") sample_world = (Ok tt, w')
       /\ fs w' !! outside = Some (Fs.File "x").
Proof.
  intros E outside. split; [reflexivity|]. split.
  - intros [rest Hrest]. vm_compute in Hrest. discriminate.
  - split; [by vm_compute|].
    eexists. split; [vm_compute; reflexivity|]. by vm_compute.
Qed.

(** *** [write_file] and [read_file] *)

(** C9, as the specification states it: a text with a carriage return does not come
    back as it was written.  [read_file] opens the file in text mode, and
    the carriage return comes back as a line feed. *)
Lemma write_then_read_translates_carriage_return :
  let E := sample_env "" 0 in
  let c := "a" +:+ Text.str1 Text.CR +:+ "b" in
  Text.well_formed c = true
  /\ exists w1,
       WorkspaceExecutor.write_file E sample_root (JStr "notes.txt") (JStr c)
         sample_world = (Ok tt, w1)
       /\ (WorkspaceExecutor.read_file E sample_root (JStr "notes.txt") w1).1
            = Ok ("a" +:+ NL +:+ "b")
       /\ "a" +:+ NL +:+ "b" <> c.
Proof.
  intros E c. split; [by vm_compute|].
  eexists. split; [vm_compute; reflexivity|].
  split; [by vm_compute|]. intros H. vm_compute in H. discriminate.
Qed.

(** C9, amended.  For a path [_resolve] accepts and a text [c]: when
    [write_file] has succeeded, [read_file] returns [c] with its line ends
    translated (CR LF and CR to LF), which is [c] itself when [c] has no
    carriage return; and [read_file] of a path at which nothing exists
    returns the empty text and raises nothing. *)
Theorem write_file_then_read_file (E : Env) (root : PurePath.t) (p c : string)
    (path : list string) (w : World) :
  WorkspaceExecutor._resolve E root (JStr p) = Ok path ->
  Text.well_formed c = true ->
  (forall w1,
     WorkspaceExecutor.write_file E root (JStr p) (JStr c) w = (Ok tt, w1) ->
     WorkspaceExecutor.read_file E root (JStr p) w1 =
       (Ok (Text.universal_newlines c),
        logged ["[read_file] " +:+ PurePath.str path +:+ " ("
                +:+ Text.of_nat (Text.len (Text.universal_newlines c)) +:+ " chars)"] w1)
     /\ (occurs Text.CR c = false -> Text.universal_newlines c = c))
  /\ (Fs.exists_ (fs w) path = false ->
      WorkspaceExecutor.read_file E root (JStr p) w =
        (Ok "", logged ["[read_file] introuvable: " +:+ PurePath.str path] w)).
Proof.
  intros Hres Hwf. split.
  - intros w1 Hwrite. split; [|apply Utf8Facts.universal_newlines_without_cr].
    assert (Hfile : Fs.lookup (fs w1) path = Fs.Found (Fs.File c)).
    { revert Hwrite. unfold WorkspaceExecutor.write_file, WorkspaceExecutor.write_text.
      rewrite Hres. run_monad.
      destruct (Fs.mkdir_parents (fs w) (PurePath.parent path)) as [f1|e1]; run_monad;
        [|discriminate].
      destruct (Fs.write false f1 path c) as [f2|e2] eqn:Hw2; run_monad; [|discriminate].
      intros [= <-]. simpl. exact (FsFacts.lookup_write _ _ _ _ Hw2). }
    unfold WorkspaceExecutor.read_file. rewrite Hres. run_monad.
    unfold Fs.exists_, Fs.read_text. rewrite Hfile. simpl.
    change c with (Text.encode c) at 1 2.
    by rewrite (Utf8Facts.decode_encode _ _ Hwf).
  - intros Hnone. unfold WorkspaceExecutor.read_file. rewrite Hres. run_monad.
    by rewrite Hnone.
Qed.

Lemma write_file_then_read_file_witness :
  let E := sample_env "" 0 in
  let w1 := mkWorld (<[ ["home"; "dev"; "ws"; "src"; "app.py"] := Fs.File "print(1)" ]>
                       (<[ ["home"; "dev"; "ws"; "src"] := Fs.Dir ]> sample_fs))
                    ["[write_file] /home/dev/ws/src/app.py (8 chars)"] 0 0 0 in
  WorkspaceExecutor.read_file E sample_root (JStr "src/app.py") w1 =
    (Ok "print(1)", logged ["[read_file] /home/dev/ws/src/app.py (8 chars)"] w1).
Proof.
  intros E w1.
  exact (proj1 (proj1 (write_file_then_read_file E sample_root "src/app.py" "print(1)"
                         ["home"; "dev"; "ws"; "src"; "app.py"] sample_world
                         eq_refl eq_refl) w1 eq_refl)).
Defined.

(** *** [run] *)

(** C4, as the specification states it: the exit status is not in the text [run]
    returns.  Two commands that end with the status 0 and with the status
    2, their streams being the same, give the same text: no function reads
    the status off it. *)
Lemma run_output_omits_exit_status :
  ~ exists status_of : string -> Z,
      forall (E : Env) (root : PurePath.t) (command : json) (w w' : World)
             (f' : gmap (list string) Fs.node) (r : CompletedProcess) (text : string),
        shell E (shell_calls w) command (PurePath.resolve (cwd E) root) (fs w)
          = (f', Ok r) ->
        WorkspaceExecutor.run E root command w = (Ok text, w') ->
        status_of text = returncode r.
Proof.
  intros [status_of H].
  pose proof (H (sample_env "" 0) sample_root (JStr "make") sample_world _ _ _ _
                eq_refl eq_refl) as H0.
  pose proof (H (sample_env "" 2) sample_root (JStr "make") sample_world _ _ _ _
                eq_refl eq_refl) as H2.
  vm_compute in H0, H2. congruence.
Qed.

(** C4, amended.  [run] hands the command to the shell with the root as
    working directory; when the command completes, with whatever status,
    [run] raises nothing and returns the command line, the standard output
    and the standard error, joined by line ends and stripped.  The exit
    status goes to the log only. *)
Theorem run_returns_streams (E : Env) (root : PurePath.t) (command : json)
    (w : World) (f' : gmap (list string) Fs.node) (r : CompletedProcess) :
  shell E (shell_calls w) command (PurePath.resolve (cwd E) root) (fs w) = (f', Ok r) ->
  let output := Text.strip ("$ " +:+ py_str E command +:+ NL +:+ stdout r
                            +:+ NL +:+ stderr r) in
  WorkspaceExecutor.run E root command w =
    (Ok output,
     mkWorld f'
       (log w ++ ["[run] " +:+ py_str E command;
                  "[run:exit=" +:+ Text.of_Z (returncode r) +:+ "]" +:+ NL
                  +:+ Text.first_chars 2000 output])
       (polls w) (llm_calls w) (S (shell_calls w))).
Proof.
  intros Hshell output.
  unfold WorkspaceExecutor.run, WorkspaceExecutor.subprocess_run. run_monad.
  rewrite Hshell. simpl.
  unfold WorkspaceExecutor.run_output. fold NL. fold output.
  by rewrite <- app_assoc.
Qed.

Lemma run_returns_streams_witness :
  WorkspaceExecutor.run (sample_env "" 2) sample_root (JStr "make") sample_world =
    (Ok ("$ make" +:+ NL +:+ "compiled" +:+ NL +:+ "1 warning"),
     mkWorld sample_fs
       ["[run] make";
        "[run:exit=2]" +:+ NL +:+ "$ make" +:+ NL +:+ "compiled" +:+ NL +:+ "1 warning"]
       0 0 1).
Proof.
  exact (run_returns_streams (sample_env "" 2) sample_root (JStr "make")
           sample_world sample_fs (mkProcess 2 "compiled" "1 warning") eq_refl).
Defined.

(** *** [count_loc] *)




End ExecutorFacts.

(* ===================================================================== *)
(** ** The plan codec *)
(* ===================================================================== *)

Module CodecFacts.
Import TextFacts.

Lemma cut_at_app (c : ascii) (pre rest : string) :
  occurs c pre = false ->
  Text.cut_at c (pre +:+ String c rest) = Some (pre, rest).
Proof.
  induction pre as [|a pre IH]; intros Hpre.
  - rewrite append_nil_l. simpl. by rewrite Ascii.eqb_refl.
  - simpl in Hpre. apply orb_false_iff in Hpre as [Ha Hpre].
    rewrite append_cons. simpl. by rewrite Ha, (IH Hpre).
Qed.

Lemma cut_at_spec (c : ascii) (s pre rest : string) :
  Text.cut_at c s = Some (pre, rest) -> s = pre +:+ String c rest.
Proof.
  revert pre. induction s as [|a s IH]; intros pre; simpl; [discriminate|].
  destruct (Ascii.eqb a c) eqn:Hac.
  - apply Ascii.eqb_eq in Hac as ->. by intros [= <- <-].
  - destruct (Text.cut_at c s) as [[pre' rest']|]; [|discriminate].
    intros [= <- <-]. by rewrite append_cons, (IH pre' eq_refl).
Qed.

Lemma upto_last_none (c : ascii) (s : string) :
  occurs c s = false -> AutoDevAgent.upto_last c s = None.
Proof.
  induction s as [|a s IH]; simpl; [done|].
  intros [Ha Hs]%orb_false_iff. by rewrite (IH Hs), Ha.
Qed.

Lemma upto_last_app (c : ascii) (body post : string) :
  occurs c post = false ->
  AutoDevAgent.upto_last c (body +:+ String c post) = Some body.
Proof.
  intros Hpost. induction body as [|a body IH].
  - rewrite append_nil_l. simpl.
    by rewrite (upto_last_none c post Hpost), Ascii.eqb_refl.
  - rewrite append_cons. simpl. by rewrite IH.
Qed.

Lemma upto_last_spec (c : ascii) (s body : string) :
  AutoDevAgent.upto_last c s = Some body -> exists post, s = body +:+ String c post.
Proof.
  revert body. induction s as [|a s IH]; intros body; simpl; [discriminate|].
  destruct (AutoDevAgent.upto_last c s) as [pre|].
  - intros [= <-]. destruct (IH pre eq_refl) as [post ->].
    exists post. by rewrite append_cons.
  - destruct (Ascii.eqb a c) eqn:Hac; [|discriminate].
    apply Ascii.eqb_eq in Hac as ->. intros [= <-]. by exists s.
Qed.

(** The match of the regular expression: from the first opening brace to
    the last closing brace. *)
Lemma search_braces_app (pre body post : string) :
  occurs "{" pre = false ->
  occurs "}" post = false ->
  AutoDevAgent.search_braces (pre +:+ "{" +:+ body +:+ "}" +:+ post)
    = Some ("{" +:+ body +:+ "}").
Proof.
  intros Hpre Hpost. unfold AutoDevAgent.search_braces.
  change ("{" +:+ body +:+ "}" +:+ post) with (String "{" (body +:+ String "}" post)).
  by rewrite (cut_at_app _ _ _ Hpre), (upto_last_app _ _ _ Hpost).
Qed.

Lemma search_braces_some (raw group0 : string) :
  AutoDevAgent.search_braces raw = Some group0 ->
  exists pre body post, raw = pre +:+ "{" +:+ body +:+ "}" +:+ post.
Proof.
  unfold AutoDevAgent.search_braces.
  destruct (Text.cut_at "{" raw) as [[pre after]|] eqn:Hcut; [|discriminate].
  destruct (AutoDevAgent.upto_last "}" after) as [body|] eqn:Hlast; [|discriminate].
  intros _. apply cut_at_spec in Hcut. apply upto_last_spec in Hlast as [post ->].
  by exists pre, body, post.
Qed.

(** What [_extract_json] returns is an object: the text it decodes starts
    with an opening brace. *)
Lemma _extract_json_object (raw : string) (plan : json) :
  AutoDevAgent._extract_json raw = Ok plan -> exists d, plan = JObj d.
Proof.
  unfold AutoDevAgent._extract_json, AutoDevAgent.search_braces.
  destruct (Text.cut_at "{" raw) as [[pre after]|]; [|discriminate].
  destruct (AutoDevAgent.upto_last "}" after) as [body|]; [|discriminate].
  change ("{" +:+ body +:+ "}") with (String "{" (body +:+ "}")).
  destruct (Json.loads _) as [v|] eqn:Hv; [|discriminate].
  intros [= <-]. exact (JsonFacts.loads_object _ _ Hv).
Qed.

(** C2, as the specification states it: the object [_extract_json] decodes is not
    the first balanced one.  Behind the plan the text has a closing brace;
    the first balanced object of the text is the plan, and it decodes; the
    match of [_extract_json] runs on to the last brace, and the decoder
    refuses it. *)
Lemma _extract_json_runs_to_last_brace :
  let plan := Json.dq "{'summary': 'init', 'actions': []}" in
  let raw := "Voici le plan : " +:+ plan +:+ " (fin du plan :-})" in
  Spec.first_balanced_object raw = Some plan
  /\ Json.loads plan = Some (JObj [("summary", JStr "init"); ("actions", JArr [])])
  /\ AutoDevAgent._extract_json raw
     = Raise (JSONDecodeError (plan +:+ " (fin du plan :-}")).
Proof.
  intros plan raw. split; [by vm_compute|]. split; by vm_compute.
Qed.

(** C2, amended.  [_extract_json] decodes the text from the first opening
    brace to the last closing brace.  An object that stands in a text with
    no opening brace before it and no closing brace behind it is decoded:
    the result is what [json.loads] makes of the object, the plan with its
    summary and its actions.  A text in which no closing brace follows an
    opening brace is refused with the error of the missing plan. *)
Theorem _extract_json_first_to_last_brace (pre body post raw : string) :
  (occurs "{" pre = false ->
   occurs "}" post = false ->
   AutoDevAgent._extract_json (pre +:+ "{" +:+ body +:+ "}" +:+ post) =
     match Json.loads ("{" +:+ body +:+ "}") with
     | Some plan => Ok plan
     | None => Raise (JSONDecodeError ("{" +:+ body +:+ "}"))
     end)
  /\ ((forall a b c, raw <> a +:+ "{" +:+ b +:+ "}" +:+ c) ->
      AutoDevAgent._extract_json raw
        = Raise (ValueError "Réponse LLM sans JSON exploitable.")).
Proof.
  split.
  - intros Hpre Hpost. unfold AutoDevAgent._extract_json.
    by rewrite (search_braces_app _ _ _ Hpre Hpost).
  - intros Hnone. unfold AutoDevAgent._extract_json.
    destruct (AutoDevAgent.search_braces raw) as [group0|] eqn:Hs; [|done].
    destruct (search_braces_some _ _ Hs) as (a & b & c & ->).
    by destruct (Hnone a b c).
Qed.

Lemma _extract_json_first_to_last_brace_witness :
  AutoDevAgent._extract_json
    ("Voici le plan : " +:+ Json.dq "{'summary': 'init', 'actions': []}" +:+ " Fin.")
  = Ok (JObj [("summary", JStr "init"); ("actions", JArr [])]).
Proof.
  exact (proj1 (_extract_json_first_to_last_brace
                  "Voici le plan : " (Json.dq "'summary': 'init', 'actions': []")
                  " Fin." "") eq_refl eq_refl).
Defined.

End CodecFacts.

(* ===================================================================== *)
(** ** The agent loop *)
(* ===================================================================== *)

Module LoopFacts.
Import TextFacts ExecutorFacts.

Section Loop.
Context (E : Env) (config : AgentConfig) (root : PurePath.t).

Local Abbreviation iteration := (AutoDevAgent.iteration E config root).
Local Abbreviation cycle := (AutoDevAgent.cycle E config root).
Local Abbreviation run_plan := (AutoDevAgent.run_plan E root).
Local Abbreviation run_actions := (AutoDevAgent.run_actions E root).
Local Abbreviation dispatch := (AutoDevAgent.dispatch E root).

(** *** One iteration, step by step *)

Lemma generate_answers (i : nat) (h l : string) (w w1 : World) (raw : string) :
  provider_answers E config i h l w raw ->
  llm_calls w1 = llm_calls w ->
  LocalLLMClient.generate E (model config)
    (AutoDevAgent._build_prompt config i h l) w1 = (Ok raw, invoked w1).
Proof.
  intros (r & Hr & Hcode & Hout) Hcalls.
  rewrite <- Hcalls in Hr.
  unfold LocalLLMClient.generate. rewrite Hr, Hcode, Hout.
  reflexivity.
Qed.

(** The iteration up to the decoding of the answer. *)
Lemma iteration_answer (i : nat) (h l : string) (w : World) (raw : string) :
  stop_flag E (polls w) = false ->
  provider_answers E config i h l w raw ->
  iteration i h l w =
    match AutoDevAgent._extract_json raw with
    | Raise exc =>
        (Ok (AutoDevAgent.Continue h (exn_str E exc)),
         logged ["Échec parsing JSON: " +:+ exn_str E exc] (at_plan E config root i raw w))
    | Ok plan => run_plan i plan h (at_plan E config root i raw w)
    end.
Proof.
  intros Hstop Hraw.
  unfold AutoDevAgent.iteration, AutoDevAgent.stop_requested, WorkspaceExecutor.count_loc,
    at_plan.
  run_monad. rewrite Hstop. run_monad. unfold logged, polled, invoked. run_monad.
  destruct (target_loc config <=? _)%Z; run_monad;
    (erewrite generate_answers; [|exact Hraw|reflexivity]);
    by destruct (AutoDevAgent._extract_json raw).
Qed.

Lemma iteration_stop (i : nat) (h l : string) (w : World) :
  stop_flag E (polls w) = true ->
  iteration i h l w =
    (Ok AutoDevAgent.Break, logged ["Arrêt demandé par l'utilisateur."] (polled w)).
Proof.
  intros Hstop. unfold AutoDevAgent.iteration, AutoDevAgent.stop_requested.
  run_monad. by rewrite Hstop.
Qed.

(** *** Decode failures *)

(** C6.  When the answer of the model does not decode, the iteration logs
    the failure and goes on to the next one with the text of the failure as
    [last_output], the text the next prompt is built from; the history, the
    filesystem and the count of shell commands are as they were: no action
    has been executed. *)
Theorem decode_failure_feeds_next_iteration (n i : nat) (h l : string)
    (w : World) (raw : string) (exc : exn) :
  stop_flag E (polls w) = false ->
  provider_answers E config i h l w raw ->
  AutoDevAgent._extract_json raw = Raise exc ->
  let w' := logged ["Échec parsing JSON: " +:+ exn_str E exc]
                   (at_plan E config root i raw w) in
  iteration i h l w = (Ok (AutoDevAgent.Continue h (exn_str E exc)), w')
  /\ cycle (S n) i h l w = cycle n (S i) h (exn_str E exc) w'
  /\ fs w' = fs w
  /\ shell_calls w' = shell_calls w
  /\ llm_calls w' = S (llm_calls w).
Proof.
  intros Hstop Hraw Hexc w'.
  assert (Hit : iteration i h l w = (Ok (AutoDevAgent.Continue h (exn_str E exc)), w')).
  { rewrite (iteration_answer i h l w raw Hstop Hraw). by rewrite Hexc. }
  split; [exact Hit|]. split.
  - change (cycle (S n) i h l w)
      with (bind (iteration i h l)
              (fun f => match f with
                        | AutoDevAgent.Continue h' l' => cycle n (S i) h' l'
                        | AutoDevAgent.Break => ret StoppedByUser
                        | AutoDevAgent.Return => ret StoppedByPlan
                        end) w).
    unfold bind. by rewrite Hit.
  - subst w'. unfold at_plan, logged, invoked, polled.
    by destruct (target_loc config <=? _)%Z.
Qed.

(** *** Plans *)

Lemma cycle_step (n i : nat) (h l : string) (w : World) :
  cycle (S n) i h l w =
    match iteration i h l w with
    | (Ok (AutoDevAgent.Continue h' l'), w') => cycle n (S i) h' l' w'
    | (Ok AutoDevAgent.Break, w') => (Ok StoppedByUser, w')
    | (Ok AutoDevAgent.Return, w') => (Ok StoppedByPlan, w')
    | (Raise e, w') => (Raise e, w')
    end.
Proof.
  change (cycle (S n) i h l w)
    with (bind (iteration i h l)
            (fun f => match f with
                      | AutoDevAgent.Continue h' l' => cycle n (S i) h' l'
                      | AutoDevAgent.Break => ret StoppedByUser
                      | AutoDevAgent.Return => ret StoppedByPlan
                      end) w).
  unfold bind, ret. by destruct (iteration i h l w) as [[[h' l'| |]|e] w'].
Qed.

Lemma run_actions_cons (action : json) (rest : list json) (out : list string)
    (w : World) :
  stop_flag E (polls w) = false ->
  run_actions (action :: rest) out w =
    match py_get action "type" (JStr "") with
    | Raise e => (Raise e, polled w)
    | Ok a_type =>
        match try_except (dispatch action a_type out)
                (AutoDevAgent.action_failed E a_type out) (polled w) with
        | (Ok None, w') => (Ok None, w')
        | (Ok (Some out'), w') => run_actions rest out' w'
        | (Raise e, w') => (Raise e, w')
        end
    end.
Proof.
  intros Hstop. simpl. unfold AutoDevAgent.stop_requested, polled.
  unfold bind at 1. rewrite Hstop. unfold bind, lift, ret.
  destruct (py_get action "type" (JStr "")) as [a_type|e]; [|done].
  by destruct (try_except _ _ _) as [[[out'|]|e] w'].
Qed.

(** The dispatch of a [done] action: the reason is logged and [run_cycle]
    returns. *)
Lemma dispatch_done (d : list (string * json)) (out : list string) (w : World) :
  dispatch (JObj d) (JStr "done") out w =
    (Ok None,
     logged ["[done] " +:+ py_str E (default (JStr "Terminé.") (Json.dict_get "reason" d))] w).
Proof. reflexivity. Qed.

Lemma run_actions_done (d : list (string * json)) (post : list json)
    (out : list string) (w : World) :
  stop_flag E (polls w) = false ->
  Json.dict_get "type" d = Some (JStr "done") ->
  run_actions (JObj d :: post) out w =
    (Ok None,
     logged ["[done] " +:+ py_str E (default (JStr "Terminé.") (Json.dict_get "reason" d))]
            (polled w)).
Proof.
  intros Hstop Hd. rewrite (run_actions_cons _ _ _ _ Hstop).
  unfold py_get. rewrite Hd. unfold try_except. simpl default.
  by rewrite dispatch_done.
Qed.

(** With a stop flag that is never set, the actions of a list are run one
    after the other. *)
Lemma run_actions_app (pre rest : list json) :
  (forall k, stop_flag E k = false) ->
  forall out w,
    run_actions (pre ++ rest) out w =
      match run_actions pre out w with
      | (Ok (Some out'), w') => run_actions rest out' w'
      | other => other
      end.
Proof.
  intros Hstop. induction pre as [|a pre IH]; intros out w; [reflexivity|].
  change ((a :: pre) ++ rest) with (a :: (pre ++ rest)).
  rewrite !run_actions_cons by apply Hstop.
  destruct (py_get a "type" (JStr "")) as [a_type|e]; [|done].
  destruct (try_except _ _ _) as [[[out'|]|e] w']; [|done|done].
  apply IH.
Qed.

(** What [run_plan] does with a plan that is an object. *)
Lemma run_plan_object (i : nat) (d : list (string * json)) (h : string) (w : World) :
  run_plan i (JObj d) h w =
    let summary := default (JStr "(sans résumé)") (Json.dict_get "summary" d) in
    let actions := default (JArr []) (Json.dict_get "actions" d) in
    match py_len actions, py_iter actions with
    | Ok n, Ok items =>
        match run_actions items []
                (logged ["[plan] " +:+ py_str E summary +:+ " | actions=" +:+ Text.of_nat n] w)
        with
        | (Ok None, w') => (Ok AutoDevAgent.Return, w')
        | (Ok (Some iteration_output), w') =>
            (Ok (AutoDevAgent.Continue
                   (h +:+ NL +:+ "Iteration " +:+ Text.of_nat i +:+ ": " +:+ py_str E summary)
                   (Text.join (NL +:+ NL) iteration_output)), w')
        | (Raise e, w') => (Raise e, w')
        end
    | Raise e, _ => (Raise e, w)
    | Ok n, Raise e =>
        (Raise e, logged ["[plan] " +:+ py_str E summary +:+ " | actions=" +:+ Text.of_nat n] w)
    end.
Proof.
  unfold AutoDevAgent.run_plan. cbv zeta.
  unfold py_get at 1 2. run_monad.
  destruct (py_len _) as [n|e]; [|done].
  destruct (py_iter _) as [items|e]; [|done].
  unfold logged.
  by destruct (run_actions items [] _) as [[[out|]|e] w'].
Qed.

Lemma dict_get_app (key k : string) (v : json) (d : list (string * json)) :
  Json.dict_get key (d ++ [(k, v)]) =
    match Json.dict_get key d with
    | Some x => Some x
    | None => if bool_decide (k = key) then Some v else None
    end.
Proof.
  induction d as [|[k' v'] d IH]; [reflexivity|].
  change (((k', v') :: d) ++ [(k, v)]) with ((k', v') :: (d ++ [(k, v)])).
  cbn [Json.dict_get]. destruct (bool_decide (k' = key)); [reflexivity | exact IH].
Qed.

(** C3, amended.  A plan without a summary is run as the same plan with
    the summary [(sans résumé)].  A plan without actions is run as a plan
    with no action: the plan is logged with 0 actions, the summary goes to
    the history, the output of the iteration is empty, nothing else changes
    and the loop continues. *)
Theorem plan_defaults (i : nat) (d : list (string * json)) (h : string) (w : World) :
  (Json.dict_get "summary" d = None ->
   run_plan i (JObj d) h w
     = run_plan i (JObj (d ++ [("summary", JStr "(sans résumé)")])) h w)
  /\ (Json.dict_get "actions" d = None ->
      let summary := default (JStr "(sans résumé)") (Json.dict_get "summary" d) in
      run_plan i (JObj d) h w =
        (Ok (AutoDevAgent.Continue
               (h +:+ NL +:+ "Iteration " +:+ Text.of_nat i +:+ ": " +:+ py_str E summary)
               ""),
         logged ["[plan] " +:+ py_str E summary +:+ " | actions=0"] w)).
Proof.
  split.
  - intros Hnone. rewrite !run_plan_object. cbv zeta.
    rewrite !dict_get_app, Hnone.
    by destruct (Json.dict_get "actions" d).
  - intros Hnone summary. rewrite run_plan_object. cbv zeta. by rewrite Hnone.
Qed.

(** *** The [done] action *)

(** C5.  The stop flag never being set: when the plan of an iteration has
    a [done] action and the actions before it have been run, the loop ends
    there as stopped by the plan.  The world it ends in is the one the
    actions before [done] have left, with the stop flag read once more and
    the reason logged: of the actions [post] behind [done] nothing is in
    it. *)
Theorem done_ends_run (n i : nat) (h l : string) (w : World) (raw : string)
    (plan d : list (string * json)) (pre post : list json)
    (out' : list string) (w' : World) :
  (forall k, stop_flag E k = false) ->
  provider_answers E config i h l w raw ->
  AutoDevAgent._extract_json raw = Ok (JObj plan) ->
  Json.dict_get "actions" plan = Some (JArr (pre ++ JObj d :: post)) ->
  Json.dict_get "type" d = Some (JStr "done") ->
  run_actions pre []
    (logged ["[plan] " +:+ py_str E (default (JStr "(sans résumé)")
                                       (Json.dict_get "summary" plan))
             +:+ " | actions=" +:+ Text.of_nat (length (pre ++ JObj d :: post))]
            (at_plan E config root i raw w))
    = (Ok (Some out'), w') ->
  cycle (S n) i h l w =
    (Ok StoppedByPlan,
     logged ["[done] " +:+ py_str E (default (JStr "Terminé.") (Json.dict_get "reason" d))]
            (polled w')).
Proof.
  intros Hstop Hraw Hplan Hactions Hdone Hpre.
  rewrite cycle_step, (iteration_answer i h l w raw (Hstop _) Hraw), Hplan.
  rewrite run_plan_object. cbv zeta. rewrite Hactions. simpl default.
  cbn [py_len py_iter].
  rewrite (run_actions_app pre (JObj d :: post) Hstop), Hpre.
  by rewrite (run_actions_done d post out' w' (Hstop _) Hdone).
Qed.

(** *** The budget of iterations *)

Lemma keeps_ret {A} (a : A) : keeps_llm (ret a).
Proof. by intros w. Qed.
Lemma keeps_raise {A} (e : exn) : keeps_llm (@raise A e).
Proof. by intros w. Qed.
Lemma keeps_lift {A} (r : result A) : keeps_llm (lift r).
Proof. by intros w. Qed.
Lemma keeps_logger (msg : string) : keeps_llm (logger msg).
Proof. by intros w. Qed.
Lemma keeps_get_fs : keeps_llm get_fs.
Proof. by intros w. Qed.
Lemma keeps_stop_requested : keeps_llm (AutoDevAgent.stop_requested E).
Proof. by intros w. Qed.

Lemma keeps_bind {A B} (m : M A) (k : A -> M B) :
  keeps_llm m -> (forall a, keeps_llm (k a)) -> keeps_llm (bind m k).
Proof.
  intros Hm Hk w. unfold bind. specialize (Hm w).
  destruct (m w) as [[a|e] w1]; simpl in *; [|done].
  by rewrite Hk.
Qed.

Lemma keeps_try_except {A} (m : M A) (handler : exn -> M A) :
  keeps_llm m -> (forall e, keeps_llm (handler e)) -> keeps_llm (try_except m handler).
Proof.
  intros Hm Hh w. unfold try_except. specialize (Hm w).
  destruct (m w) as [[a|e] w1]; simpl in *; [done|].
  by rewrite Hh.
Qed.

Lemma keeps_fs_update op : keeps_llm (fs_update op).
Proof. intros w. unfold fs_update, bind, get_fs. by destruct (op (fs w)). Qed.

Lemma keeps_subprocess_run (command : json) :
  keeps_llm (WorkspaceExecutor.subprocess_run E root command).
Proof. intros w. unfold WorkspaceExecutor.subprocess_run. by destruct (shell _ _ _ _ _). Qed.

Ltac keeps :=
  repeat first
    [ apply keeps_ret | apply keeps_raise | apply keeps_lift | apply keeps_logger
    | apply keeps_get_fs | apply keeps_stop_requested | apply keeps_fs_update
    | apply keeps_subprocess_run
    | apply keeps_bind; [|intros ?]
    | apply keeps_try_except; [|intros ?]
    | match goal with
      | |- keeps_llm (if ?b then _ else _) => destruct b
      | |- keeps_llm (match ?x with _ => _ end) => destruct x
      end ].

Lemma keeps_dispatch (action a_type : json) (out : list string) :
  keeps_llm (dispatch action a_type out).
Proof.
  unfold AutoDevAgent.dispatch, WorkspaceExecutor.mkdir, WorkspaceExecutor.write_file,
    WorkspaceExecutor.append_file, WorkspaceExecutor.read_file, WorkspaceExecutor.run,
    WorkspaceExecutor.write_text, WorkspaceExecutor.append_text.
  keeps.
Qed.

Lemma keeps_action_failed (a_type : json) (out : list string) (e : exn) :
  keeps_llm (AutoDevAgent.action_failed E a_type out e).
Proof. unfold AutoDevAgent.action_failed. keeps. Qed.







(** *** The stop flag *)

Lemma polls_ret {A} (a : A) : keeps_polls (ret a).
Proof. by intros w. Qed.
Lemma polls_raise {A} (e : exn) : keeps_polls (@raise A e).
Proof. by intros w. Qed.
Lemma polls_lift {A} (r : result A) : keeps_polls (lift r).
Proof. by intros w. Qed.
Lemma polls_logger (msg : string) : keeps_polls (logger msg).
Proof. by intros w. Qed.
Lemma polls_get_fs : keeps_polls get_fs.
Proof. by intros w. Qed.

Lemma polls_bind {A B} (m : M A) (k : A -> M B) :
  keeps_polls m -> (forall a, keeps_polls (k a)) -> keeps_polls (bind m k).
Proof.
  intros Hm Hk w. unfold bind. specialize (Hm w).
  destruct (m w) as [[a|e] w1]; simpl in *; [|done].
  by rewrite Hk.
Qed.

Lemma polls_try_except {A} (m : M A) (handler : exn -> M A) :
  keeps_polls m -> (forall e, keeps_polls (handler e)) ->
  keeps_polls (try_except m handler).
Proof.
  intros Hm Hh w. unfold try_except. specialize (Hm w).
  destruct (m w) as [[a|e] w1]; simpl in *; [done|].
  by rewrite Hh.
Qed.

Lemma polls_fs_update op : keeps_polls (fs_update op).
Proof. intros w. unfold fs_update, bind, get_fs. by destruct (op (fs w)). Qed.

Lemma polls_subprocess_run (command : json) :
  keeps_polls (WorkspaceExecutor.subprocess_run E root command).
Proof. intros w. unfold WorkspaceExecutor.subprocess_run. by destruct (shell _ _ _ _ _). Qed.

Ltac polls :=
  repeat first
    [ apply polls_ret | apply polls_raise | apply polls_lift | apply polls_logger
    | apply polls_get_fs | apply polls_fs_update | apply polls_subprocess_run
    | apply polls_bind; [|intros ?]
    | apply polls_try_except; [|intros ?]
    | match goal with
      | |- keeps_polls (if ?b then _ else _) => destruct b
      | |- keeps_polls (match ?x with _ => _ end) => destruct x
      end ].

(** The stop flag is read by the loops only: no action reads it. *)
Lemma polls_dispatch (action a_type : json) (out : list string) :
  keeps_polls (dispatch action a_type out).
Proof.
  unfold AutoDevAgent.dispatch, WorkspaceExecutor.mkdir, WorkspaceExecutor.write_file,
    WorkspaceExecutor.append_file, WorkspaceExecutor.read_file, WorkspaceExecutor.run,
    WorkspaceExecutor.write_text, WorkspaceExecutor.append_text.
  polls.
Qed.

Lemma polls_action (action a_type : json) (out : list string) :
  keeps_polls (try_except (dispatch action a_type out)
                 (AutoDevAgent.action_failed E a_type out)).
Proof.
  apply polls_try_except; [apply polls_dispatch|].
  intros e. unfold AutoDevAgent.action_failed. polls.
Qed.

(** The loop over the actions reads the flag before each action, the
    first one and those behind actions that have been dispatched: when the
    actions [pre] have been run from [w0] with the flag not set at any of
    its readings and have left the world [w], in which the flag is set,
    the loop ends at the action behind [pre]. *)
Lemma run_actions_stops_behind (pre : list json) (action : json) (rest : list json)
    (out0 out : list string) (w0 w : World) :
  stop_flag E (polls w) = true ->
  (forall j, polls w0 <= j < polls w -> stop_flag E j = false) ->
  run_actions pre out0 w0 = (Ok (Some out), w) ->
  run_actions (pre ++ action :: rest) out0 w0 = (Ok (Some out), polled w).
Proof.
  intros Hstop. revert out0 w0.
  induction pre as [|a pre IH]; intros out0 w0 Hclear Hpre.
  - injection Hpre as <- <-. simpl app.
    simpl. unfold AutoDevAgent.stop_requested. run_monad. by rewrite Hstop.
  - destruct (stop_flag E (polls w0)) eqn:Hstop0.
    + exfalso. revert Hpre. simpl. unfold AutoDevAgent.stop_requested.
      unfold bind at 1. rewrite Hstop0. unfold ret. intros [= _ <-].
      specialize (Hclear (polls w0)). cbn [polls] in Hclear.
      rewrite Hstop0 in Hclear. by discriminate Hclear; lia.
    + change ((a :: pre) ++ action :: rest) with (a :: (pre ++ action :: rest)).
      rewrite run_actions_cons in Hpre |- * by done.
      destruct (py_get a "type" (JStr "")) as [a_type|e]; [|discriminate].
      pose proof (polls_action a a_type out0 (polled w0)) as Hpolls.
      destruct (try_except _ _ (polled w0)) as [[[out1|]|e] w1]; try discriminate.
      apply IH; [|done].
      intros j Hj. apply Hclear. cbn [snd polls polled] in Hpolls. lia.
Qed.

(** C8.  When the stop flag is set as the iteration [k] begins, the loop
    ends there as stopped by the user: the flag has been read once, the
    stop has been logged, and the model has not been invoked.  And when
    the flag is set as the loop over the actions comes to an action, the
    first one of the plan or one behind actions [pre] that have been
    dispatched while the flag was not set, neither this action nor one
    behind it is dispatched: the flag is read before each action. *)
Theorem stop_flag_ends_run (n k : nat) (h l : string) (w : World)
    (action : json) (rest : list json) (out : list string) :
  stop_flag E (polls w) = true ->
  let w' := logged ["Arrêt demandé par l'utilisateur."] (polled w) in
  cycle (S n) k h l w = (Ok StoppedByUser, w')
  /\ llm_calls w' = llm_calls w
  /\ run_actions (action :: rest) out w = (Ok (Some out), polled w)
  /\ (forall pre out0 w0,
        (forall j, polls w0 <= j < polls w -> stop_flag E j = false) ->
        run_actions pre out0 w0 = (Ok (Some out), w) ->
        run_actions (pre ++ action :: rest) out0 w0 = (Ok (Some out), polled w)).
Proof.
  intros Hstop w'. split; [|split; [reflexivity|split]].
  - change (cycle (S n) k h l w)
      with (bind (iteration k h l)
              (fun f => match f with
                        | AutoDevAgent.Continue h' l' => cycle n (S k) h' l'
                        | AutoDevAgent.Break => ret StoppedByUser
                        | AutoDevAgent.Return => ret StoppedByPlan
                        end) w).
    unfold bind. by rewrite (iteration_stop k h l w Hstop).
  - simpl. unfold AutoDevAgent.stop_requested. run_monad. by rewrite Hstop.
  - intros pre out0 w0. by apply run_actions_stops_behind.
Qed.

End Loop.

(** C3, as the specification states it: actions that are no sequence are not run as
    an empty plan.  The plan has the number 5 for its actions; [run_cycle]
    raises the [TypeError] of [len(actions)], in its first iteration. *)
Lemma non_sequence_actions_raise :
  let answer := Json.dq "{'summary': 'vide', 'actions': 5}" in
  AutoDevAgent._extract_json answer
    = Ok (JObj [("summary", JStr "vide"); ("actions", JInt 5)])
  /\ (AutoDevAgent.run_cycle (sample_env answer 0) (sample_config 3) sample_root
        sample_world).1 = Raise TypeError.
Proof.
  intros answer. split; by vm_compute.
Qed.

Lemma plan_defaults_witness :
  AutoDevAgent.run_plan (sample_env "" 0) sample_root 1 (JObj []) "" sample_world =
    (Ok (AutoDevAgent.Continue (NL +:+ "Iteration 1: (sans résumé)") ""),
     logged ["[plan] (sans résumé) | actions=0"] sample_world).
Proof.
  exact (proj2 (plan_defaults (sample_env "" 0) sample_root 1 [] "" sample_world)
           eq_refl).
Defined.

Lemma done_ends_run_witness :
  let E := sample_env done_then_run 0 in
  AutoDevAgent.cycle E (sample_config 3) sample_root 3 1 "" "" sample_world =
    (Ok StoppedByPlan,
     logged ["[done] tout est fait"]
       (polled (logged ["[plan] fini | actions=2"]
                  (at_plan E (sample_config 3) sample_root 1 done_then_run sample_world)))).
Proof.
  intros E.
  refine (done_ends_run E (sample_config 3) sample_root 2 1 "" "" sample_world
            done_then_run
            [("summary", JStr "fini");
             ("actions", JArr [JObj [("type", JStr "done"); ("reason", JStr "tout est fait")];
                               JObj [("type", JStr "run"); ("cmd", JStr "make test")]])]
            [("type", JStr "done"); ("reason", JStr "tout est fait")]
            [] [JObj [("type", JStr "run"); ("cmd", JStr "make test")]]
            [] _ (fun _ => eq_refl) _ _ eq_refl eq_refl eq_refl).
  - eexists. split; [reflexivity|]. split; [reflexivity|]. by vm_compute.
  - by vm_compute.
Defined.



Lemma decode_failure_feeds_next_iteration_witness :
  let E := sample_env "Je ne sais pas." 0 in
  AutoDevAgent.iteration E (sample_config 3) sample_root 1 "" "" sample_world =
    (Ok (AutoDevAgent.Continue "" "Réponse LLM sans JSON exploitable."),
     logged ["Échec parsing JSON: Réponse LLM sans JSON exploitable."]
            (at_plan E (sample_config 3) sample_root 1 "Je ne sais pas." sample_world)).
Proof.
  intros E.
  refine (proj1 (decode_failure_feeds_next_iteration E (sample_config 3) sample_root
                   0 1 "" "" sample_world "Je ne sais pas."
                   (ValueError "Réponse LLM sans JSON exploitable.") eq_refl _ _)).
  - eexists. split; [reflexivity|]. split; [reflexivity|]. by vm_compute.
  - by vm_compute.
Defined.

Lemma stop_flag_ends_run_witness :
  let E := stopping_env "{}" 1 in
  let mkdir name := JObj [("type", JStr "mkdir"); ("path", JStr name)] in
  let w := mkWorld (<[ ["home"; "dev"; "ws"; "a"] := Fs.Dir ]> sample_fs)
                   ["[mkdir] /home/dev/ws/a"] 1 0 0 in
  AutoDevAgent.cycle E (sample_config 3) sample_root 3 1 "" "" w
    = (Ok StoppedByUser, logged ["Arrêt demandé par l'utilisateur."] (polled w))
  /\ llm_calls (logged ["Arrêt demandé par l'utilisateur."] (polled w)) = llm_calls w
  /\ AutoDevAgent.run_actions E sample_root [mkdir "b"] [] w = (Ok (Some []), polled w)
  /\ AutoDevAgent.run_actions E sample_root [mkdir "a"; mkdir "b"] [] sample_world
     = (Ok (Some []), polled w).
Proof.
  intros E mkdir w.
  destruct (stop_flag_ends_run E (sample_config 3) sample_root 2 1 "" "" w
              (mkdir "b") [] [] eq_refl) as (Hcycle & Hcalls & Hfirst & Hbehind).
  split; [exact Hcycle|]. split; [exact Hcalls|]. split; [exact Hfirst|].
  refine (Hbehind [mkdir "a"] [] sample_world _ eq_refl).
  intros j Hj. unfold w, sample_world in Hj. cbn [polls] in Hj.
  destruct j as [|j]; [reflexivity|lia].
Defined.

End LoopFacts.

(* ===================================================================== *)
(** ** More on the filesystem operations of the executor *)
(* ===================================================================== *)

Module FsWalks.

Lemma mkdir_from_keeps (p : list string) (todo : list string) :
  forall f cur f',
    Fs.mkdir_from p f cur todo = Ok f' ->
    forall k n, f !! k = Some n -> f' !! k = Some n.
Proof.
  induction todo as [|name rest IH]; intros f cur f'; simpl.
  - by intros [= <-].
  - destruct (f !! (cur ++ [name])) as [[|b]|] eqn:Hk.
    + apply IH.
    + destruct rest; discriminate.
    + intros H k n Hkn. eapply IH; [exact H|].
      rewrite lookup_insert_ne; [done|]. intros <-. congruence.
Qed.

(** After [mkdir], the walk to the path finds a directory. *)
Lemma mkdir_from_dir (p : list string) (todo : list string) :
  forall f cur f',
    Fs.mkdir_from p f cur todo = Ok f' ->
    Fs.lookup_from f' cur todo = Fs.Found Fs.Dir.
Proof.
  induction todo as [|name rest IH]; intros f cur f'; [done|].
  rewrite FsFacts.lookup_from_cons. simpl.
  destruct (f !! (cur ++ [name])) as [[|b]|] eqn:Hk.
  - intros H. rewrite (mkdir_from_keeps _ _ _ _ _ H _ _ Hk). by eapply IH.
  - destruct rest; discriminate.
  - intros H.
    rewrite (mkdir_from_keeps _ _ _ _ _ H (cur ++ [name]) Fs.Dir)
      by apply lookup_insert_eq.
    by eapply IH.
Qed.

(** [mkdir] of a directory that is there changes nothing. *)
Lemma mkdir_from_noop (p : list string) (f : gmap (list string) Fs.node)
    (todo : list string) :
  forall cur,
    Fs.lookup_from f cur todo = Fs.Found Fs.Dir ->
    Fs.mkdir_from p f cur todo = Ok f.
Proof.
  induction todo as [|name rest IH]; intros cur; [done|].
  rewrite FsFacts.lookup_from_cons. simpl.
  destruct (f !! (cur ++ [name])) as [[|b]|]; [apply IH| |discriminate].
  destruct rest; discriminate.
Qed.

(** [mkdir] touches the path and the directories above it, nothing else. *)
Lemma mkdir_from_frame (p : list string) (todo : list string) :
  forall f cur f',
    Fs.mkdir_from p f cur todo = Ok f' ->
    forall q, ~ q `prefix_of` (cur ++ todo) -> f' !! q = f !! q.
Proof.
  induction todo as [|name rest IH]; intros f cur f'; simpl.
  - by intros [= <-].
  - assert (Happ : cur ++ name :: rest = (cur ++ [name]) ++ rest)
      by (by rewrite <- app_assoc).
    destruct (f !! (cur ++ [name])) as [[|b]|] eqn:Hk.
    + intros H q Hq. rewrite Happ in Hq. by eapply IH.
    + destruct rest; discriminate.
    + intros H q Hq. rewrite Happ in Hq.
      rewrite (IH _ _ _ H q Hq). apply lookup_insert_ne.
      intros <-. apply Hq. by apply prefix_app_r.
Qed.

(** The walk does not see an entry that is not on its way. *)
Lemma lookup_from_insert_ne (p : list string) (n : Fs.node)
    (f : gmap (list string) Fs.node) (todo : list string) :
  forall cur,
    ~ p `prefix_of` (cur ++ todo) ->
    Fs.lookup_from (<[p := n]> f) cur todo = Fs.lookup_from f cur todo.
Proof.
  induction todo as [|name rest IH]; intros cur Hp; [done|].
  rewrite !FsFacts.lookup_from_cons.
  assert (Happ : cur ++ name :: rest = (cur ++ [name]) ++ rest)
    by (by rewrite <- app_assoc).
  rewrite Happ in Hp.
  rewrite lookup_insert_ne by (intros ->; apply Hp; by apply prefix_app_r).
  destruct (f !! (cur ++ [name])) as [[|b]|]; [|done|done].
  by apply IH.
Qed.

(** Above a file there are directories. *)
Lemma lookup_from_file_parent (f : gmap (list string) Fs.node) (b : string)
    (todo : list string) :
  forall cur,
    Fs.lookup_from f cur todo = Fs.Found (Fs.File b) ->
    Fs.lookup_from f cur (removelast todo) = Fs.Found Fs.Dir.
Proof.
  induction todo as [|name rest IH]; intros cur; [discriminate|].
  rewrite FsFacts.lookup_from_cons.
  destruct rest as [|name2 rest]; [done|].
  change (removelast (name :: name2 :: rest)) with (name :: removelast (name2 :: rest)).
  rewrite (FsFacts.lookup_from_cons f cur name (removelast (name2 :: rest))).
  destruct (f !! (cur ++ [name])) as [[|b']|]; [apply IH|discriminate|discriminate].
Qed.

Lemma not_prefix_of_parent (p : list string) :
  p <> [] -> ~ p `prefix_of` PurePath.parent p.
Proof.
  intros Hp Hpre. apply prefix_length in Hpre.
  unfold PurePath.parent in Hpre.
  destruct p as [|x p] using rev_ind; [done|].
  rewrite removelast_last, length_app in Hpre. simpl in Hpre. lia.
Qed.

Lemma parent_prefix (p : list string) : PurePath.parent p `prefix_of` p.
Proof.
  unfold PurePath.parent. destruct p as [|x p] using rev_ind; [done|].
  rewrite removelast_last. by apply prefix_app_r.
Qed.

(** What a write that has succeeded leaves: the file, with the text behind
    what it held when the write appends. *)
Lemma write_spec (append : bool) (f f' : gmap (list string) Fs.node)
    (p : list string) (data : string) :
  Fs.write append f p data = Ok f' ->
  exists old,
    f' = <[p := Fs.File (old +:+ data)]> f
    /\ Fs.lookup f' p = Fs.Found (Fs.File (old +:+ data))
    /\ p <> []
    /\ (forall b, Fs.lookup f p = Fs.Found (Fs.File b) -> old = if append then b else "")
    /\ (Fs.lookup f p = Fs.Missing -> old = "").
Proof.
  unfold Fs.write, Fs.open_for, Fs.lookup, Text.encode.
  destruct (Fs.lookup_from f [] p) as [[|b]| |] eqn:Hl; try discriminate.
  - intros [= <-]. exists (if append then b else "").
    assert (Hne : p <> []) by (intros ->; discriminate).
    repeat split; try done.
    + apply FsFacts.lookup_from_write; [done|done|eauto].
    + by intros b' [= <-].
  - destruct (Fs.lookup_from f [] (PurePath.parent p)) as [[|b]| |] eqn:Hpar;
      try discriminate.
    intros [= <-]. exists "".
    assert (Hne : p <> []) by (intros ->; discriminate).
    repeat split; try done.
    apply FsFacts.lookup_from_write; [done|done|by right].
Qed.

Lemma lookup_from_below_file (f : gmap (list string) Fs.node) (cur path : list string)
    (x b : string) :
  Fs.lookup_from f cur path = Fs.Found (Fs.File b) ->
  Fs.lookup_from f cur (path ++ [x]) <> Fs.Missing.
Proof.
  revert cur. induction path as [|y path IH]; intros cur; [discriminate|].
  change ((y :: path) ++ [x]) with (y :: (path ++ [x])).
  rewrite !FsFacts.lookup_from_cons.
  destruct (f !! (cur ++ [y])) as [[|b']|]; [apply IH| |discriminate].
  destruct path; simpl; discriminate.
Qed.

(** The walk to an entry of a directory that is there ends on what the
    filesystem has at its path. *)
Lemma lookup_from_snoc (f : gmap (list string) Fs.node) (cur q : list string)
    (name : string) :
  Fs.lookup_from f cur q = Fs.Found Fs.Dir ->
  Fs.lookup_from f cur (q ++ [name])
    = match f !! (cur ++ q ++ [name]) with
      | Some n => Fs.Found n
      | None => Fs.Missing
      end.
Proof.
  revert cur. induction q as [|y q IH]; intros cur.
  - intros _. simpl. by destruct (f !! (cur ++ [name])) as [[|b]|].
  - change ((y :: q) ++ [name]) with (y :: (q ++ [name])).
    rewrite !FsFacts.lookup_from_cons.
    replace (cur ++ y :: q ++ [name]) with ((cur ++ [y]) ++ q ++ [name])
      by (by rewrite <- app_assoc).
    destruct (f !! (cur ++ [y])) as [[|b]|]; [apply IH| |discriminate].
    by destruct q.
Qed.

(** A file that the walk finds is what the filesystem has at the path. *)
Lemma lookup_file_entry (f : gmap (list string) Fs.node) (p : list string)
    (b : string) :
  Fs.lookup f p = Fs.Found (Fs.File b) -> f !! p = Some (Fs.File b).
Proof.
  intros Hfile. pose proof (lookup_from_file_parent _ _ _ _ Hfile) as Hpar.
  unfold Fs.lookup in *.
  destruct p as [|x p _] using rev_ind; [discriminate|].
  rewrite removelast_last in Hpar.
  rewrite (lookup_from_snoc f [] p x Hpar) in Hfile. simpl in Hfile.
  destruct (f !! (p ++ [x])) as [n|]; [|discriminate]. by injection Hfile as ->.
Qed.

End FsWalks.

Module ExecutorProperties.
Import TextFacts ExecutorFacts.

(** X3.  [mkdir] that has succeeded has made a directory of the path, and
    [mkdir] of the same path again succeeds and leaves the filesystem as it
    is. *)
Theorem mkdir_makes_directory_once (E : Env) (root : PurePath.t) (p : json)
    (path : list string) (w w1 : World) :
  WorkspaceExecutor._resolve E root p = Ok path ->
  WorkspaceExecutor.mkdir E root p w = (Ok tt, w1) ->
  Fs.is_dir (fs w1) path = true
  /\ WorkspaceExecutor.mkdir E root p w1
     = (Ok tt, logged ["[mkdir] " +:+ PurePath.str path] w1).
Proof.
  intros Hres. unfold WorkspaceExecutor.mkdir. rewrite Hres. run_monad.
  destruct (Fs.mkdir_parents (fs w) path) as [f1|e] eqn:Hmk; run_monad; [|discriminate].
  intros [= <-]. cbn [fs]. unfold Fs.mkdir_parents in *.
  pose proof (FsWalks.mkdir_from_dir _ _ _ _ _ Hmk) as Hdir.
  split.
  - unfold Fs.is_dir, Fs.lookup. by rewrite Hdir.
  - by rewrite (FsWalks.mkdir_from_noop path f1 path [] Hdir).
Qed.

Lemma mkdir_makes_directory_once_witness :
  let E := sample_env "" 0 in
  let w1 := mkWorld (<[ ["home"; "dev"; "ws"; "a"; "b"] := Fs.Dir ]>
                       (<[ ["home"; "dev"; "ws"; "a"] := Fs.Dir ]> sample_fs))
                    ["[mkdir] /home/dev/ws/a/b"] 0 0 0 in
  Fs.is_dir (fs w1) ["home"; "dev"; "ws"; "a"; "b"] = true
  /\ WorkspaceExecutor.mkdir E sample_root (JStr "a/b") w1
     = (Ok tt, logged ["[mkdir] /home/dev/ws/a/b"] w1).
Proof.
  intros E w1.
  exact (mkdir_makes_directory_once E sample_root (JStr "a/b")
           ["home"; "dev"; "ws"; "a"; "b"] sample_world w1 eq_refl eq_refl).
Defined.

(** X4.  [write_file] that has succeeded: the content was a text and the
    file holds it, the directory above the file is there, and every entry
    that is neither the file nor a directory above it is as it was. *)
Theorem write_file_writes_one_file (E : Env) (root : PurePath.t) (p c : json)
    (path : list string) (w w1 : World) :
  WorkspaceExecutor._resolve E root p = Ok path ->
  (forall text, c = JStr text -> Text.well_formed text = true) ->
  WorkspaceExecutor.write_file E root p c w = (Ok tt, w1) ->
  (exists text, c = JStr text /\ Fs.lookup (fs w1) path = Fs.Found (Fs.File text))
  /\ Fs.is_dir (fs w1) (PurePath.parent path) = true
  /\ forall q, ~ q `prefix_of` path -> fs w1 !! q = fs w !! q.
Proof.
  intros Hres _. unfold WorkspaceExecutor.write_file, WorkspaceExecutor.write_text.
  rewrite Hres. run_monad.
  destruct (Fs.mkdir_parents (fs w) (PurePath.parent path)) as [f1|e1] eqn:Hmk;
    run_monad; [|discriminate].
  destruct c as [| | | |text| |]; run_monad; try discriminate.
  destruct (Fs.write false f1 path text) as [f2|e2] eqn:Hwr; run_monad; [|discriminate].
  intros [= <-]. cbn [fs].
  destruct (FsWalks.write_spec _ _ _ _ _ Hwr) as (old & Hf2 & Hlook & Hne & Hold & _).
  unfold Fs.mkdir_parents in Hmk.
  split; [|split].
  - exists text. split; [done|].
    rewrite (FsFacts.lookup_write _ _ _ _ Hwr). done.
  - unfold Fs.is_dir, Fs.lookup. rewrite Hf2.
    rewrite FsWalks.lookup_from_insert_ne
      by (simpl; by apply FsWalks.not_prefix_of_parent).
    by rewrite (FsWalks.mkdir_from_dir _ _ _ _ _ Hmk).
  - intros q Hq. rewrite Hf2.
    rewrite lookup_insert_ne by (intros <-; by apply Hq).
    apply (FsWalks.mkdir_from_frame _ _ _ _ _ Hmk). simpl.
    intros Hpre. apply Hq. etrans; [exact Hpre | apply FsWalks.parent_prefix].
Qed.

Lemma write_file_writes_one_file_witness :
  let E := sample_env "" 0 in
  let w1 := mkWorld (<[ ["home"; "dev"; "ws"; "src"; "app.py"] := Fs.File "print(1)" ]>
                       (<[ ["home"; "dev"; "ws"; "src"] := Fs.Dir ]> sample_fs))
                    ["[write_file] /home/dev/ws/src/app.py (8 chars)"] 0 0 0 in
  (exists text, JStr "print(1)" = JStr text
                /\ Fs.lookup (fs w1) ["home"; "dev"; "ws"; "src"; "app.py"]
                   = Fs.Found (Fs.File text))
  /\ Fs.is_dir (fs w1) ["home"; "dev"; "ws"; "src"] = true
  /\ forall q, ~ q `prefix_of` ["home"; "dev"; "ws"; "src"; "app.py"] ->
               fs w1 !! q = sample_fs !! q.
Proof.
  intros E w1.
  refine (write_file_writes_one_file E sample_root (JStr "src/app.py") (JStr "print(1)")
            ["home"; "dev"; "ws"; "src"; "app.py"] sample_world w1 eq_refl _ eq_refl).
  by intros text [= <-].
Defined.

(** X5.  [append_file] that has succeeded: the file holds the text behind
    the bytes the filesystem had at its path before, behind nothing when
    it had nothing there, be the directories above the file new or not;
    and every entry that is neither the file nor a directory above it is
    as it was. *)
Theorem append_file_appends (E : Env) (root : PurePath.t) (p c : string)
    (path : list string) (w w1 : World) :
  WorkspaceExecutor._resolve E root (JStr p) = Ok path ->
  Text.well_formed c = true ->
  WorkspaceExecutor.append_file E root (JStr p) (JStr c) w = (Ok tt, w1) ->
  let old := match fs w !! path with Some (Fs.File b) => b | _ => "" end in
  Fs.lookup (fs w1) path = Fs.Found (Fs.File (old +:+ c))
  /\ (forall b, Fs.lookup (fs w) path = Fs.Found (Fs.File b) -> old = b)
  /\ forall q, ~ q `prefix_of` path -> fs w1 !! q = fs w !! q.
Proof.
  intros Hres _ Happend old. revert Happend.
  unfold WorkspaceExecutor.append_file, WorkspaceExecutor.append_text.
  rewrite Hres. run_monad.
  destruct (Fs.mkdir_parents (fs w) (PurePath.parent path)) as [f1|e1] eqn:Hmk;
    run_monad; [|discriminate].
  destruct (Fs.write true f1 path "") as [f2|e2] eqn:Hw2; run_monad; [|discriminate].
  destruct (Fs.write true f2 path c) as [f3|e3] eqn:Hw3; run_monad; [|discriminate].
  intros [= <-]. cbn [fs].
  destruct (FsWalks.write_spec _ _ _ _ _ Hw2) as (old2 & Hf2 & Hl2 & Hne & Hold & Hmiss).
  destruct (FsWalks.write_spec _ _ _ _ _ Hw3) as (old3 & Hf3 & Hl3 & _ & Hold3 & _).
  rewrite append_nil_r in Hl2, Hf2.
  rewrite (Hold3 _ Hl2) in Hl3, Hf3. clear Hold3 old3.
  unfold Fs.mkdir_parents in Hmk.
  assert (Hframe : forall q, ~ q `prefix_of` path -> f1 !! q = fs w !! q).
  { intros q Hq. apply (FsWalks.mkdir_from_frame _ _ _ _ _ Hmk). simpl.
    intros Hpre. apply Hq. etrans; [exact Hpre | apply FsWalks.parent_prefix]. }
  assert (Hentry : f1 !! path = fs w !! path).
  { apply (FsWalks.mkdir_from_frame _ _ _ _ _ Hmk). simpl.
    by apply FsWalks.not_prefix_of_parent. }
  assert (Hold2 : old2 = old).
  { pose proof (FsWalks.mkdir_from_dir _ _ _ _ _ Hmk) as Hdir.
    assert (Hwalk : Fs.lookup f1 path
                    = match f1 !! path with
                      | Some n => Fs.Found n
                      | None => Fs.Missing
                      end).
    { unfold Fs.lookup, PurePath.parent in *.
      destruct path as [|x path _] using rev_ind; [done|].
      rewrite removelast_last in Hdir.
      by rewrite (FsWalks.lookup_from_snoc f1 [] path x Hdir). }
    subst old. rewrite <- Hentry.
    destruct (f1 !! path) as [[|b]|].
    - exfalso. revert Hw2. unfold Fs.write, Fs.open_for. by rewrite Hwalk.
    - by apply Hold.
    - by apply Hmiss. }
  rewrite Hold2 in Hl3. split; [done|]. split.
  - intros b Hb. subst old. by rewrite (FsWalks.lookup_file_entry _ _ _ Hb).
  - intros q Hq. rewrite Hf3, Hf2.
    rewrite !lookup_insert_ne by (intros <-; by apply Hq). by apply Hframe.
Qed.

Lemma append_file_appends_witness :
  let E := sample_env "" 0 in
  let path := ["home"; "dev"; "ws"; "logs"; "run.txt"] in
  let w1 := mkWorld (<[ path := Fs.File "ok" ]>
                       (<[ ["home"; "dev"; "ws"; "logs"] := Fs.Dir ]> sample_fs))
                    ["[append_file] /home/dev/ws/logs/run.txt (+2 chars)"] 0 0 0 in
  Fs.lookup (fs w1) path = Fs.Found (Fs.File ("" +:+ "ok"))
  /\ (forall b, Fs.lookup (fs sample_world) path = Fs.Found (Fs.File b) -> "" = b)
  /\ forall q, ~ q `prefix_of` path -> fs w1 !! q = fs sample_world !! q.
Proof.
  intros E path w1.
  exact (append_file_appends E sample_root "logs/run.txt" "ok" path
           sample_world w1 eq_refl eq_refl eq_refl).
Defined.

(** X2.  When the rendering of the resolved path does not start with the
    rendering of the resolved root, [mkdir], [write_file], [append_file]
    and [read_file] raise the error of the path outside the workspace, and
    the world is as it was: nothing is made, written, read or logged. *)
Theorem refused_path_changes_nothing (E : Env) (root : PurePath.t) (s : string)
    (c : json) (w : World) :
  Text.startswith (PurePath.str (PurePath.resolve (cwd E) (PurePath.div root s)))
                  (PurePath.str (PurePath.resolve (cwd E) root)) = false ->
  let e := ValueError ("Chemin hors workspace interdit: " +:+ s) in
  WorkspaceExecutor.mkdir E root (JStr s) w = (Raise e, w)
  /\ WorkspaceExecutor.write_file E root (JStr s) c w = (Raise e, w)
  /\ WorkspaceExecutor.append_file E root (JStr s) c w = (Raise e, w)
  /\ WorkspaceExecutor.read_file E root (JStr s) w = (Raise e, w).
Proof.
  intros Hsw e. apply refused_path_no_effect.
  rewrite _resolve_spec. cbv zeta. by rewrite Hsw.
Qed.

Lemma refused_path_changes_nothing_witness :
  let E := sample_env "" 0 in
  let e := ValueError "Chemin hors workspace interdit: ../../etc/passwd" in
  WorkspaceExecutor.mkdir E sample_root (JStr "../../etc/passwd") sample_world
    = (Raise e, sample_world)
  /\ WorkspaceExecutor.write_file E sample_root (JStr "../../etc/passwd") (JStr "x")
       sample_world = (Raise e, sample_world)
  /\ WorkspaceExecutor.append_file E sample_root (JStr "../../etc/passwd") (JStr "x")
       sample_world = (Raise e, sample_world)
  /\ WorkspaceExecutor.read_file E sample_root (JStr "../../etc/passwd") sample_world
     = (Raise e, sample_world).
Proof.
  exact (refused_path_changes_nothing (sample_env "" 0) sample_root "../../etc/passwd"
           (JStr "x") sample_world eq_refl).
Defined.

(** X6.  [read_file] changes nothing but the log: the filesystem and the
    counts of the world are as they were, whether it returns or raises.
    It logs one line when it returns and none when it raises; and of a
    path that is a directory it raises [IsADirectoryError]. *)
Theorem read_file_reads_only (E : Env) (root : PurePath.t) (p : json) (w : World) :
  let r := WorkspaceExecutor.read_file E root p w in
  fs r.2 = fs w /\ polls r.2 = polls w /\ llm_calls r.2 = llm_calls w
  /\ shell_calls r.2 = shell_calls w
  /\ (forall text, r.1 = Ok text -> exists line, log r.2 = log w ++ [line])
  /\ (forall e, r.1 = Raise e -> log r.2 = log w)
  /\ (forall path, WorkspaceExecutor._resolve E root p = Ok path ->
        Fs.is_dir (fs w) path = true -> r.1 = Raise (IsADirectoryError path)).
Proof.
  unfold WorkspaceExecutor.read_file. run_monad.
  destruct (WorkspaceExecutor._resolve E root p) as [path|e0]; run_monad.
  - unfold Fs.exists_, Fs.read_text, Fs.is_dir.
    destruct (Fs.lookup (fs w) path) as [[|b]| |] eqn:Hl; cbn [negb]; run_monad;
      cbn [fst snd fs log polls llm_calls shell_calls];
      do 4 (split; [done|]).
    + split; [intros ? ?; discriminate|]. split; [done|]. by intros ? [= <-] _.
    + split; [intros ? _; by eexists|]. split; [intros ? ?; discriminate|].
      intros ? [= <-]. by rewrite Hl.
    + split; [intros ? _; by eexists|]. split; [intros ? ?; discriminate|].
      intros ? [= <-]. by rewrite Hl.
    + split; [intros ? _; by eexists|]. split; [intros ? ?; discriminate|].
      intros ? [= <-]. by rewrite Hl.
  - cbn [fst snd]. do 4 (split; [done|]). split; [intros ? ?; discriminate|].
    split; [done|]. intros ? ?; discriminate.
Qed.



End ExecutorProperties.

(* ===================================================================== *)
(** ** What [_resolve] accepts *)
(* ===================================================================== *)

Module PathProperties.
Import TextFacts ExecutorFacts.

Lemma slash_cons (Y : string) : "/" +:+ Y = String "/" Y.
Proof. reflexivity. Qed.

Lemma occurs_cons (c a : ascii) (s : string) :
  occurs c (String a s) = false -> a <> c /\ occurs c s = false.
Proof.
  simpl. intros [Ha Hs]%orb_false_elim. split; [|done].
  intros ->. by rewrite Ascii.eqb_refl in Ha.
Qed.

(** A component that is a prefix of a rendering is a prefix of its first
    component. *)
Lemma startswith_component (r s X : string) :
  occurs "/" r = false ->
  X = "" \/ (exists X', X = String "/" X') ->
  Text.startswith (s +:+ X) r = true ->
  exists t, s = r +:+ t.
Proof.
  intros Hr HX. revert s. induction r as [|a r IH]; intros s.
  - intros _. exists s. by rewrite append_nil_l.
  - apply occurs_cons in Hr as [Ha Hr]. destruct s as [|c s].
    + rewrite append_nil_l. destruct HX as [->|[X' ->]]; simpl; [discriminate|].
      destruct (Ascii.eqb_spec a "/"); [done|discriminate].
    + rewrite append_cons. simpl.
      destruct (Ascii.eqb_spec a c) as [->|]; [|discriminate].
      intros [t ->]%(IH Hr). exists t. by rewrite append_cons.
Qed.

(** A component and a slash that are a prefix of a rendering are its first
    component and the slash behind it. *)
Lemma startswith_component_slash (r s X Y : string) :
  occurs "/" r = false ->
  occurs "/" s = false ->
  X = "" \/ (exists X', X = String "/" X') ->
  Text.startswith (s +:+ X) (r +:+ String "/" Y) = true ->
  s = r /\ exists X', X = String "/" X' /\ Text.startswith X' Y = true.
Proof.
  intros Hr Hs HX. revert s Hs. induction r as [|a r IH]; intros s Hs.
  - rewrite append_nil_l. destruct s as [|c s].
    + rewrite append_nil_l. destruct HX as [->|[X' ->]]; simpl; [discriminate|].
      intros H. split; [done|]. by exists X'.
    + apply occurs_cons in Hs as [Hc _]. rewrite append_cons.
      cbn [Text.startswith].
      destruct (Ascii.eqb_spec "/" c) as [<-|]; [done|discriminate].
  - apply occurs_cons in Hr as [Ha Hr]. rewrite append_cons. destruct s as [|c s].
    + rewrite append_nil_l. destruct HX as [->|[X' ->]]; simpl; [discriminate|].
      destruct (Ascii.eqb_spec a "/"); [done|discriminate].
    + apply occurs_cons in Hs as [Hc Hs]. rewrite append_cons. simpl.
      destruct (Ascii.eqb_spec a c) as [->|]; [|discriminate].
      intros [-> H]%(IH Hr); [|done]. by split.
Qed.

Lemma join_tail (s : string) (S : list string) :
  exists X, Text.join "/" (s :: S) = s +:+ X
            /\ (X = "" \/ exists X', X = String "/" X')
            /\ (forall X', X = String "/" X' -> S <> [] /\ X' = Text.join "/" S).
Proof.
  destruct S as [|s2 S].
  - exists "". simpl. rewrite append_nil_r. split; [done|]. split; [by left|]. done.
  - exists (String "/" (Text.join "/" (s2 :: S))). rewrite join_cons, slash_cons.
    split; [done|]. split; [right; eauto|]. by intros X' [= <-].
Qed.

Lemma component_ok_spec (name : string) :
  component_ok name = true -> name <> "" /\ occurs "/" name = false.
Proof.
  unfold component_ok. intros [Hn Ho]%andb_prop. split.
  - by case_bool_decide.
  - by destruct (occurs "/" name).
Qed.

(** The rendering of a path starts with the rendering of another one only
    if the path lies below the directory above the other one, in an entry
    whose name starts with the name of the other one. *)
Lemma startswith_join (r : string) (R S : list string) :
  forallb component_ok (r :: R) = true ->
  forallb component_ok S = true ->
  Text.startswith (Text.join "/" S) (Text.join "/" (r :: R)) = true ->
  exists t rest, S = removelast (r :: R) ++ (List.last (r :: R) "" +:+ t) :: rest.
Proof.
  revert r S. induction R as [|r2 R IH]; intros r S HR HS.
  - apply andb_prop in HR as [[Hne Hr]%component_ok_spec _].
    destruct S as [|s S].
    + simpl. destruct r; [done|discriminate].
    + destruct (join_tail s S) as (X & -> & HX & _).
      intros [t ->]%startswith_component; [|done..]. by exists t, S.
  - apply andb_prop in HR as [Hr HR]. pose proof Hr as [Hne Hr']%component_ok_spec.
    rewrite join_cons, slash_cons. destruct S as [|s S].
    + simpl. destruct r; [done|]. rewrite append_cons. discriminate.
    + apply andb_prop in HS as [[_ Hs]%component_ok_spec HS].
      destruct (join_tail s S) as (X & -> & HX & HS').
      intros [-> (X' & -> & H)]%startswith_component_slash; [|done..].
      destruct (HS' _ eq_refl) as [_ ->].
      destruct (IH r2 S HR HS H) as (t & rest & ->).
      exists t, rest. reflexivity.
Qed.

Lemma occurs_split_on (c : ascii) (s : string) :
  Forall (fun w => occurs c w = false) (Text.split_on c s).
Proof.
  induction s as [|a s IH]; simpl; [by constructor|].
  destruct (Ascii.eqb_spec a c) as [->|Hne]; [by constructor|].
  destruct (Text.split_on c s) as [|w ws].
  - constructor; [|done]. simpl. by destruct (Ascii.eqb_spec a c).
  - inversion IH as [|? ? Hw Hws]; subst. constructor; [|done].
    simpl. by destruct (Ascii.eqb_spec a c).
Qed.

(** The components of [Path(s)] are not empty and hold no slash. *)
Lemma parse_components (s : string) :
  forallb component_ok (PurePath.parts (PurePath.parse s)) = true.
Proof.
  apply forallb_forall. intros name [Hin Hkeep]%filter_In.
  pose proof (occurs_split_on "/" s) as Hall.
  rewrite List.Forall_forall in Hall. apply Hall in Hin.
  unfold component_ok. rewrite Hin.
  unfold PurePath.keep in Hkeep. apply andb_prop in Hkeep as [-> _]. done.
Qed.

Lemma forallb_removelast {A} (P : A -> bool) (l : list A) :
  forallb P l = true -> forallb P (removelast l) = true.
Proof.
  induction l as [|a [|b l] IH]; [done..|].
  intros [Ha Hl]%andb_prop. change (P a && forallb P (removelast (b :: l)) = true).
  by rewrite Ha, IH.
Qed.

(** [resolve] keeps components that are well formed. *)
Lemma resolve_components (cwd : list string) (p : PurePath.t) :
  forallb component_ok cwd = true ->
  forallb component_ok (PurePath.parts p) = true ->
  forallb component_ok (PurePath.resolve cwd p) = true.
Proof.
  intros Hcwd Hp. unfold PurePath.resolve.
  assert (Hstart : forallb component_ok (if PurePath.absolute p then [] else cwd) = true)
    by by destruct (PurePath.absolute p).
  revert Hstart. generalize (if PurePath.absolute p then [] else cwd).
  induction (PurePath.parts p) as [|name l IH]; intros cur Hcur; [done|].
  apply andb_prop in Hp as [Hname Hl]. simpl. apply IH; [done|].
  unfold PurePath.enter. case_bool_decide.
  - by apply forallb_removelast.
  - rewrite forallb_app. simpl. by rewrite Hcur, Hname.
Qed.

Lemma div_components (root : PurePath.t) (s : string) :
  forallb component_ok (PurePath.parts root) = true ->
  forallb component_ok (PurePath.parts (PurePath.div root s)) = true.
Proof.
  intros Hroot. unfold PurePath.div.
  destruct (PurePath.absolute (PurePath.parse s)); [apply parse_components|].
  simpl. rewrite forallb_app, Hroot. apply parse_components.
Qed.

Lemma join_cons_app (a : string) (l l' : list string) (x : string) :
  Text.join "/" (a :: l ++ x :: l') = a +:+ "/" +:+ Text.join "/" (l ++ x :: l').
Proof. destruct l; reflexivity. Qed.

(** The rendering of an entry starts with the rendering of its neighbours
    whose name its own name starts with. *)
Lemma join_name_extension (above rest : list string) (name t : string) :
  Text.startswith (Text.join "/" (above ++ (name +:+ t) :: rest))
                  (Text.join "/" (above ++ [name])) = true.
Proof.
  induction above as [|a above IH].
  - simpl app. destruct rest as [|x rest].
    + apply startswith_append.
    + rewrite join_cons, append_assoc. apply startswith_append.
  - change ((a :: above) ++ (name +:+ t) :: rest)
      with (a :: above ++ (name +:+ t) :: rest).
    change ((a :: above) ++ [name]) with (a :: above ++ [name]).
    rewrite !join_cons_app, !startswith_append_both. exact IH.
Qed.

(** X1.  [_resolve] accepts the path [root / rel_path] exactly when it
    resolves to the root, to an entry below the root, or to an entry at or
    below a neighbour of the root whose name starts with the name of the
    root; every other path it refuses with the error of the path outside
    the workspace. *)
Theorem _resolve_accepts_root_and_name_extensions (E : Env) (root : PurePath.t)
    (s : string) :
  forallb component_ok (cwd E) = true ->
  forallb component_ok (PurePath.parts root) = true ->
  let rootr := PurePath.resolve (cwd E) root in
  let safe := PurePath.resolve (cwd E) (PurePath.div root s) in
  (WorkspaceExecutor._resolve E root (JStr s) = Ok safe
   <-> PurePath.within rootr safe
       \/ exists above name t rest,
            rootr = above ++ [name] /\ safe = above ++ (name +:+ t) :: rest)
  /\ (WorkspaceExecutor._resolve E root (JStr s) = Ok safe
      \/ WorkspaceExecutor._resolve E root (JStr s)
         = Raise (ValueError ("Chemin hors workspace interdit: " +:+ s))).
Proof.
  intros Hcwd Hroot rootr safe.
  pose proof (resolve_components _ _ Hcwd Hroot) as Hrootr.
  pose proof (resolve_components _ _ Hcwd (div_components root s Hroot)) as Hsafe.
  fold rootr in Hrootr. fold safe in Hsafe.
  rewrite _resolve_spec. fold rootr safe. split.
  - split.
    + destruct (Text.startswith _ _) eqn:Hsw; [intros _|discriminate].
      destruct rootr as [|r R]; [left; by exists safe|].
      unfold PurePath.str in Hsw. rewrite !slash_cons in Hsw. simpl in Hsw.
      destruct (startswith_join r R safe Hrootr Hsafe Hsw) as (t & rest & ->).
      right. exists (removelast (r :: R)), (List.last (r :: R) ""), t, rest.
      split; [|done]. by apply app_removelast_last.
    + intros [[rest ->]|(above & name & t & rest & -> & ->)].
      * by rewrite str_startswith.
      * unfold PurePath.str. rewrite !slash_cons. cbn [Text.startswith].
        by rewrite Ascii.eqb_refl, join_name_extension.
  - destruct (Text.startswith _ _); [by left|by right].
Qed.

Lemma _resolve_accepts_root_and_name_extensions_witness :
  (WorkspaceExecutor._resolve (sample_env "" 0) sample_root (JStr "../ws2/x/../y")
     = Ok ["home"; "dev"; "ws2"; "y"]
   <-> PurePath.within ["home"; "dev"; "ws"] ["home"; "dev"; "ws2"; "y"]
       \/ exists above name t rest,
            ["home"; "dev"; "ws"] = above ++ [name]
            /\ ["home"; "dev"; "ws2"; "y"] = above ++ (name +:+ t) :: rest)
  /\ (WorkspaceExecutor._resolve (sample_env "" 0) sample_root (JStr "../ws2/x/../y")
        = Ok ["home"; "dev"; "ws2"; "y"]
      \/ WorkspaceExecutor._resolve (sample_env "" 0) sample_root (JStr "../ws2/x/../y")
         = Raise (ValueError ("Chemin hors workspace interdit: " +:+ "../ws2/x/../y"))).
Proof.
  exact (_resolve_accepts_root_and_name_extensions (sample_env "" 0) sample_root
           "../ws2/x/../y" eq_refl eq_refl).
Defined.

End PathProperties.

(* ===================================================================== *)
(** ** The provider, the decoded plan and the loop: further properties *)
(* ===================================================================== *)

Module ClientProperties.
Import TextFacts ExecutorFacts.

(** The world after [generate]: one more invocation, whatever comes of
    it. *)
Lemma generate_world (E : Env) (model prompt : string) (w : World) :
  (LocalLLMClient.generate E model prompt w).2 = invoked w.
Proof.
  unfold LocalLLMClient.generate, invoked.
  destruct (ollama E (llm_calls w) model prompt) as [p|[]]; try done.
  by case_bool_decide.
Qed.

(** What [generate] returns depends on the world by the count of the
    invocations only. *)
Lemma generate_result (E : Env) (model prompt : string) (w w1 : World) :
  llm_calls w1 = llm_calls w ->
  LocalLLMClient.generate E model prompt w1
    = ((LocalLLMClient.generate E model prompt w).1, invoked w1).
Proof.
  intros Hcalls. unfold LocalLLMClient.generate, invoked. rewrite Hcalls.
  destruct (ollama E (llm_calls w) model prompt) as [p|[]]; try done.
  by case_bool_decide.
Qed.

(** X8.  [generate] invokes the provider once, whatever comes of it.  It
    returns a text exactly when the process has completed with the status
    0, and the text is the standard output, stripped.  A status other than
    0, a process that runs out of time and a program that is not found
    each raise a [RuntimeError]; the message of the first is never without
    a diagnostic. *)
Theorem generate_outcomes (E : Env) (model prompt : string) (w : World) :
  let r := LocalLLMClient.generate E model prompt w in
  r.2 = invoked w
  /\ (forall raw,
        r.1 = Ok raw <->
        exists p, ollama E (llm_calls w) model prompt = Ok p
                  /\ returncode p = 0%Z /\ Text.strip (stdout p) = raw)
  /\ (forall p, ollama E (llm_calls w) model prompt = Ok p -> returncode p <> 0%Z ->
        exists msg, msg <> ""
                    /\ r.1 = Raise (RuntimeError ("Échec appel LLM local: " +:+ msg)))
  /\ (ollama E (llm_calls w) model prompt = Raise TimeoutExpired ->
        r.1 = Raise (RuntimeError "Temps d'exécution du modèle local dépassé."))
  /\ (forall path, ollama E (llm_calls w) model prompt = Raise (FileNotFoundError path) ->
        r.1 = Raise (RuntimeError "Ollama n'est pas installé ou introuvable dans le PATH.")).
Proof.
  intros r. split; [apply generate_world|]. subst r.
  unfold LocalLLMClient.generate.
  destruct (ollama E (llm_calls w) model prompt) as [p|e] eqn:Hp.
  - case_bool_decide as Hcode; cbn [fst].
    + split; [|split; [|split]]; try done.
      * intros raw. split; [done|]. by intros (p' & [= <-] & Hz & _).
      * intros p' [= <-] _. case_bool_decide as Herr.
        -- by exists "Erreur inconnue".
        -- by exists (Text.strip (stderr p)).
    + assert (Hz : returncode p = 0%Z) by (by destruct (decide (returncode p = 0%Z))).
      split; [|split; [|split]]; try done.
      * intros raw. split.
        -- intros [= <-]. by exists p.
        -- by intros (p' & [= <-] & _ & <-).
      * by intros p' [= <-] Hne.
  - assert (Hno : forall raw, (exists p, Raise e = Ok p /\ returncode p = 0%Z
                                          /\ Text.strip (stdout p) = raw) -> False)
      by (by intros raw (p & Hfalse & _)).
    destruct e; cbn [fst];
      (split; [intros raw; split; [done|by intros ?%Hno]|]);
      (split; [done|]); split; try done; by intros ? [=].
Qed.

End ClientProperties.

Module LoopProperties.
Import TextFacts ExecutorFacts LoopFacts ClientProperties.

Section Loop.
Context (E : Env) (config : AgentConfig) (root : PurePath.t).

Local Abbreviation iteration := (AutoDevAgent.iteration E config root).
Local Abbreviation cycle := (AutoDevAgent.cycle E config root).
Local Abbreviation run_plan := (AutoDevAgent.run_plan E root).
Local Abbreviation run_actions := (AutoDevAgent.run_actions E root).
Local Abbreviation dispatch := (AutoDevAgent.dispatch E root).

(** *** The loop over the actions *)

Lemma run_actions_stop (actions : list json) (out : list string) (w : World) :
  stop_flag E (polls w) = true ->
  run_actions actions out w
    = (Ok (Some out), match actions with [] => w | _ => polled w end).
Proof.
  intros Hstop. destruct actions as [|a rest]; [done|].
  simpl. unfold AutoDevAgent.stop_requested, polled.
  unfold bind at 1. by rewrite Hstop.
Qed.

Lemma try_except_dispatch (action a_type : json) (out : list string) (w : World) :
  try_except (dispatch action a_type out) (AutoDevAgent.action_failed E a_type out) w
    = match dispatch action a_type out w with
      | (Ok r, w') => (Ok r, w')
      | (Raise e, w') =>
          let err := "Action " +:+ py_str E a_type +:+ " échouée: " +:+ exn_str E e in
          (Ok (Some (out ++ [err])), logged [err] w')
      end.
Proof.
  unfold try_except. by destruct (dispatch action a_type out w) as [[r|e] w'].
Qed.

(** X10.  No exception leaves the loop over the actions of a plan when
    each of the actions is an object: what an action raises is caught
    there, and the loop itself raises nothing. *)
Theorem run_actions_never_raises (actions : list json) (out : list string)
    (w : World) (e : exn) :
  forallb is_object actions = true ->
  (run_actions actions out w).1 <> Raise e.
Proof.
  revert out w. induction actions as [|a rest IH]; intros out w Hall; [done|].
  apply andb_prop in Hall as [Ha Hrest].
  destruct a as [| | | | | |d]; try discriminate.
  destruct (stop_flag E (polls w)) eqn:Hstop.
  - by rewrite run_actions_stop.
  - rewrite run_actions_cons by done. cbn [py_get].
    rewrite try_except_dispatch.
    destruct (dispatch _ _ _ _) as [[[out1|]|e1] w1]; cbv zeta; [by apply IH|done|by apply IH].
Qed.

(** X11.  An action that is no object is not caught: with the stop flag
    not set as the loop comes to it, a plan whose first action is a value
    without the method [get] makes [run_plan] raise [AttributeError]; the
    plan has been logged, and of its actions none has been run. *)
Theorem non_object_action_raises (i : nat) (d : list (string * json)) (h : string)
    (w : World) (a : json) (post : list json) :
  stop_flag E (polls w) = false ->
  Json.dict_get "actions" d = Some (JArr (a :: post)) ->
  is_object a = false ->
  run_plan i (JObj d) h w =
    (Raise AttributeError,
     polled (logged ["[plan] " +:+ py_str E (default (JStr "(sans résumé)")
                                                (Json.dict_get "summary" d))
                     +:+ " | actions=" +:+ Text.of_nat (S (length post))] w)).
Proof.
  intros Hstop Hactions Ha.
  rewrite run_plan_object, Hactions.
  change (default (JArr []) (Some (JArr (a :: post)))) with (JArr (a :: post)).
  cbn [py_len py_iter length]. cbv zeta.
  rewrite run_actions_cons by done.
  by destruct a.
Qed.

(** X12.  An action whose type is none of the six the loop knows, also
    one that has no type, is passed over: its type is logged as unknown,
    nothing else changes, and the loop goes on with the next action. *)
Theorem unknown_action_ignored (d : list (string * json)) (rest : list json)
    (out : list string) (w : World) :
  stop_flag E (polls w) = false ->
  let a_type := default (JStr "") (Json.dict_get "type" d) in
  unknown_type a_type = true ->
  run_actions (JObj d :: rest) out w =
    run_actions rest out
      (logged ["Action inconnue ignorée: " +:+ py_str E a_type] (polled w)).
Proof.
  intros Hstop a_type Hunknown.
  rewrite run_actions_cons by done. cbn [py_get]. fold a_type.
  rewrite try_except_dispatch. unfold AutoDevAgent.dispatch.
  unfold unknown_type in Hunknown. apply negb_true_iff in Hunknown.
  repeat (apply orb_false_elim in Hunknown as [Hunknown ?]).
  repeat match goal with H : AutoDevAgent.type_is _ _ = false |- _ => rewrite H; clear H end.
  reflexivity.
Qed.

Lemma dispatch_refused (d : list (string * json)) (ty s : string) (out : list string)
    (w : World) :
  In ty ["mkdir"; "write_file"; "append_file"; "read_file"] ->
  Json.dict_get "path" d = Some (JStr s) ->
  Text.startswith (PurePath.str (PurePath.resolve (cwd E) (PurePath.div root s)))
                  (PurePath.str (PurePath.resolve (cwd E) root)) = false ->
  dispatch (JObj d) (JStr ty) out w
    = (Raise (ValueError ("Chemin hors workspace interdit: " +:+ s)), w).
Proof.
  intros Hty Hpath Hsw.
  assert (Hres : WorkspaceExecutor._resolve E root (JStr s)
                 = Raise (ValueError ("Chemin hors workspace interdit: " +:+ s))).
  { rewrite _resolve_spec. cbv zeta. by rewrite Hsw. }
  destruct (refused_path_no_effect E root (JStr s)
              (default (JStr "") (Json.dict_get "content" d)) _ w Hres)
    as (Hmkdir & Hwrite & Happend & Hread).
  unfold AutoDevAgent.dispatch, py_item, py_get. rewrite Hpath.
  simpl in Hty.
  destruct Hty as [<-|[<-|[<-|[<-|[]]]]]; cbn [AutoDevAgent.type_is];
    repeat (case_bool_decide; [try discriminate|try done]);
    run_monad.
  - by rewrite Hmkdir.
  - by rewrite Hwrite.
  - by rewrite Happend.
  - by rewrite Hread.
Qed.

(** X13.  An action of the plan that names a path [_resolve] refuses is
    reported and has no other effect: the error is logged and goes to the
    output of the iteration, the filesystem is as it was, and the loop goes
    on with the next action. *)
Theorem refused_action_is_reported (d : list (string * json)) (ty s : string)
    (rest : list json) (out : list string) (w : World) :
  stop_flag E (polls w) = false ->
  Json.dict_get "type" d = Some (JStr ty) ->
  In ty ["mkdir"; "write_file"; "append_file"; "read_file"] ->
  Json.dict_get "path" d = Some (JStr s) ->
  Text.startswith (PurePath.str (PurePath.resolve (cwd E) (PurePath.div root s)))
                  (PurePath.str (PurePath.resolve (cwd E) root)) = false ->
  let err := "Action " +:+ ty +:+ " échouée: Chemin hors workspace interdit: " +:+ s in
  run_actions (JObj d :: rest) out w
    = run_actions rest (out ++ [err]) (logged [err] (polled w)).
Proof.
  intros Hstop Htype Hty Hpath Hsw err.
  rewrite run_actions_cons by done. cbn [py_get]. rewrite Htype.
  change (default (JStr "") (Some (JStr ty))) with (JStr ty).
  rewrite try_except_dispatch, (dispatch_refused d ty s out _ Hty Hpath Hsw).
  reflexivity.
Qed.

Lemma dispatch_without_operand (d : list (string * json)) (ty key : string)
    (out : list string) (w : World) :
  (In ty ["mkdir"; "write_file"; "append_file"; "read_file"] /\ key = "path")
  \/ (ty = "run" /\ key = "cmd") ->
  Json.dict_get key d = None ->
  dispatch (JObj d) (JStr ty) out w = (Raise (KeyError key), w).
Proof.
  intros Hty Hkey. unfold AutoDevAgent.dispatch, py_item.
  destruct Hty as [[Hty ->]|[-> ->]]; rewrite Hkey.
  - simpl in Hty.
    destruct Hty as [<-|[<-|[<-|[<-|[]]]]]; cbn [AutoDevAgent.type_is];
      repeat (case_bool_decide; [try discriminate|try done]);
      by run_monad.
  - cbn [AutoDevAgent.type_is].
    repeat (case_bool_decide; [try discriminate|try done]);
      by run_monad.
Qed.

(** X20.  An action that lacks what it works on, the path of a file
    action or the command of [run], is reported and has no other effect:
    the missing key is logged as the error of the action and goes to the
    output of the iteration, and the loop goes on with the next action. *)
Theorem action_without_operand_is_reported (d : list (string * json))
    (ty key : string) (rest : list json) (out : list string) (w : World) :
  stop_flag E (polls w) = false ->
  Json.dict_get "type" d = Some (JStr ty) ->
  (In ty ["mkdir"; "write_file"; "append_file"; "read_file"] /\ key = "path")
  \/ (ty = "run" /\ key = "cmd") ->
  Json.dict_get key d = None ->
  let err := "Action " +:+ ty +:+ " échouée: '" +:+ key +:+ "'" in
  run_actions (JObj d :: rest) out w
    = run_actions rest (out ++ [err]) (logged [err] (polled w)).
Proof.
  intros Hstop Htype Hty Hkey err.
  rewrite run_actions_cons by done. cbn [py_get]. rewrite Htype.
  change (default (JStr "") (Some (JStr ty))) with (JStr ty).
  rewrite try_except_dispatch, (dispatch_without_operand d ty key out _ Hty Hkey).
  reflexivity.
Qed.

(** *** One iteration *)

Lemma keeps_run_actions (actions : list json) (out : list string) :
  keeps_llm (run_actions actions out).
Proof.
  revert out. induction actions as [|a rest IH]; intros out; [apply keeps_ret|].
  simpl. apply keeps_bind; [apply keeps_stop_requested|]. intros [|]; [apply keeps_ret|].
  apply keeps_bind; [apply keeps_lift|]. intros a_type.
  apply keeps_bind.
  - apply keeps_try_except; [apply keeps_dispatch|]. intros e. apply keeps_action_failed.
  - intros [out'|]; [apply IH|apply keeps_ret].
Qed.

Lemma keeps_run_plan (i : nat) (plan : json) (h : string) :
  keeps_llm (run_plan i plan h).
Proof.
  unfold AutoDevAgent.run_plan.
  apply keeps_bind; [apply keeps_lift|intros summary].
  apply keeps_bind; [apply keeps_lift|intros actions].
  apply keeps_bind; [apply keeps_lift|intros k].
  apply keeps_bind; [apply keeps_logger|intros _].
  apply keeps_bind; [apply keeps_lift|intros items].
  apply keeps_bind; [apply keeps_run_actions|intros [out|]]; apply keeps_ret.
Qed.

(** What an iteration leaves when the stop flag is not set: the world in
    which the model has been invoked, when the invocation fails, and
    otherwise what the decoding and the plan make of the answer. *)
Lemma iteration_run (i : nat) (h l : string) (w : World) :
  stop_flag E (polls w) = false ->
  iteration i h l w =
    match (LocalLLMClient.generate E (model config)
             (AutoDevAgent._build_prompt config i h l) w).1 with
    | Raise e => (Raise e, invoked (before_llm E config root i w))
    | Ok raw =>
        match AutoDevAgent._extract_json raw with
        | Raise exc =>
            (Ok (AutoDevAgent.Continue h (exn_str E exc)),
             logged ["Échec parsing JSON: " +:+ exn_str E exc]
                    (at_plan E config root i raw w))
        | Ok plan => run_plan i plan h (at_plan E config root i raw w)
        end
    end.
Proof.
  intros Hstop.
  unfold AutoDevAgent.iteration, AutoDevAgent.stop_requested, WorkspaceExecutor.count_loc,
    at_plan, before_llm.
  run_monad. rewrite Hstop. run_monad. unfold logged, polled. run_monad.
  destruct (target_loc config <=? _)%Z; run_monad;
    match goal with
    | |- context [LocalLLMClient.generate E ?m ?p (mkWorld ?a ?b ?c ?d ?e)] =>
        rewrite (generate_result E m p w (mkWorld a b c d e)) by reflexivity
    end;
    (destruct (LocalLLMClient.generate E _ _ w).1 as [raw|e]; [|reflexivity]);
    unfold invoked; run_monad;
    by destruct (AutoDevAgent._extract_json raw).
Qed.

Lemma at_plan_counts (i : nat) (raw : string) (w : World) :
  let w' := at_plan E config root i raw w in
  fs w' = fs w /\ polls w' = S (polls w) /\ llm_calls w' = S (llm_calls w)
  /\ shell_calls w' = shell_calls w.
Proof.
  unfold at_plan, logged, invoked, polled. by destruct (_ <=? _)%Z.
Qed.

Lemma before_llm_counts (i : nat) (w : World) :
  let w' := before_llm E config root i w in
  fs w' = fs w /\ polls w' = S (polls w) /\ llm_calls w' = llm_calls w
  /\ shell_calls w' = shell_calls w.
Proof.
  unfold before_llm, logged, polled. by destruct (_ <=? _)%Z.
Qed.

(** X14.  An invocation of the model that fails ends the run: the error
    of [generate] leaves [run_cycle] from the iteration in which it is
    raised, whatever the budget that is left.  The model has been invoked
    once, not a second time; no plan is run, and the filesystem is as it
    was. *)
Theorem provider_failure_is_fatal (n i : nat) (h l : string) (w : World) (e : exn) :
  stop_flag E (polls w) = false ->
  (LocalLLMClient.generate E (model config)
     (AutoDevAgent._build_prompt config i h l) w).1 = Raise e ->
  let w' := invoked (before_llm E config root i w) in
  cycle (S n) i h l w = (Raise e, w')
  /\ llm_calls w' = S (llm_calls w)
  /\ fs w' = fs w
  /\ shell_calls w' = shell_calls w.
Proof.
  intros Hstop Hgen w'.
  rewrite cycle_step, iteration_run, Hgen by done.
  destruct (before_llm_counts i w) as (Hfs & _ & Hcalls & Hshell).
  subst w'. unfold invoked. cbn [fs llm_calls shell_calls].
  by rewrite Hfs, Hcalls, Hshell.
Qed.

(** X15.  The history of the run only grows: an iteration that goes on to
    the next one hands it the history it has got, or that history with one
    line behind it, the number of the iteration and the summary of its
    plan. *)
Theorem history_grows (i : nat) (h l h' l' : string) (w w' : World) :
  iteration i h l w = (Ok (AutoDevAgent.Continue h' l'), w') ->
  (h' = h
   \/ exists summary,
        h' = h +:+ NL +:+ "Iteration " +:+ Text.of_nat i +:+ ": " +:+ summary)
  /\ Text.startswith h' h = true.
Proof.
  intros Hit.
  assert (Hcases : h' = h
                   \/ exists summary,
                        h' = h +:+ NL +:+ "Iteration " +:+ Text.of_nat i +:+ ": "
                               +:+ summary).
  { destruct (stop_flag E (polls w)) eqn:Hstop.
    - by rewrite iteration_stop in Hit.
    - rewrite iteration_run in Hit by done.
      destruct (LocalLLMClient.generate E _ _ w).1 as [raw|e]; [|discriminate].
      destruct (AutoDevAgent._extract_json raw) as [plan|exc].
      + destruct plan as [| | | | | |d]; try discriminate.
        rewrite run_plan_object in Hit. cbv zeta in Hit.
        destruct (py_len _) as [k|]; [|discriminate].
        destruct (py_iter _) as [items|]; [|discriminate].
        destruct (run_actions items [] _) as [[[o|]|] w1]; try discriminate.
        injection Hit as <- _ _. right. eauto.
      + injection Hit as <- _ _. by left. }
  split; [done|].
  destruct Hcases as [->|[summary ->]]; [apply startswith_refl|apply startswith_append].
Qed.

(** *** The run *)

Lemma iteration_calls (i : nat) (h l : string) (w : World) :
  llm_calls (iteration i h l w).2 <= S (llm_calls w).
Proof.
  destruct (stop_flag E (polls w)) eqn:Hstop.
  - rewrite iteration_stop by done. simpl. lia.
  - rewrite iteration_run by done.
    destruct (at_plan_counts i "" w) as (_ & _ & _ & _).
    destruct (LocalLLMClient.generate E _ _ w).1 as [raw|e].
    + destruct (at_plan_counts i raw w) as (_ & _ & Hcalls & _).
      destruct (AutoDevAgent._extract_json raw) as [plan|exc].
      * rewrite keeps_run_plan, Hcalls. lia.
      * change (llm_calls (_, logged _ ?x).2) with (llm_calls x). rewrite Hcalls. lia.
    + destruct (before_llm_counts i w) as (_ & _ & Hcalls & _).
      change (llm_calls (_, invoked ?x).2) with (S (llm_calls x)). rewrite Hcalls. lia.
Qed.

Lemma cycle_calls (n i : nat) (h l : string) (w : World) :
  llm_calls (cycle n i h l w).2 <= llm_calls w + n.
Proof.
  revert i h l w. induction n as [|n IH]; intros i h l w; [simpl; lia|].
  rewrite cycle_step. pose proof (iteration_calls i h l w) as Hit.
  destruct (iteration i h l w) as [[[h1 l1| |]|e] w1]; simpl in Hit.
  - specialize (IH (S i) h1 l1 w1). lia.
  - simpl. lia.
  - simpl. lia.
  - simpl. lia.
Qed.

(** X16.  However a run ends, with its budget exhausted, stopped or with
    an error, and whatever the provider answers, [run_cycle] has invoked
    the model at most [max_iterations] times. *)
Theorem model_invocations_within_budget (w : World) :
  llm_calls (AutoDevAgent.run_cycle E config root w).2
    <= llm_calls w + Z.to_nat (max_iterations config).
Proof. apply cycle_calls. Qed.

(** X17.  With a budget of no iteration, 0 or below, [run_cycle] returns
    at once: the stop flag is not read, the model is not invoked and
    nothing is logged. *)
Theorem no_budget_no_run (w : World) :
  (max_iterations config <= 0)%Z ->
  AutoDevAgent.run_cycle E config root w = (Ok Exhausted, w).
Proof.
  intros Hmax. unfold AutoDevAgent.run_cycle.
  by destruct (max_iterations config) as [|p|p]; [| lia |].
Qed.

(** X18.  A stop that is requested while the model answers: the flag is
    not set as the iteration begins and is set from then on.  None of the
    actions of the plan that comes back is run, and the filesystem is as
    it was.  With budget left, the next iteration ends the run as stopped
    by the user, and the model is not invoked again; in the last iteration
    of the budget the run ends as exhausted, and the stop is not logged. *)
Theorem stop_while_model_answers (n i : nat) (h l : string) (w : World)
    (raw : string) (plan : list (string * json)) (a : json) (post : list json) :
  stop_flag E (polls w) = false ->
  stop_flag E (S (polls w)) = true ->
  stop_flag E (S (S (polls w))) = true ->
  provider_answers E config i h l w raw ->
  AutoDevAgent._extract_json raw = Ok (JObj plan) ->
  Json.dict_get "actions" plan = Some (JArr (a :: post)) ->
  let w1 := polled (logged ["[plan] " +:+ py_str E (default (JStr "(sans résumé)")
                                                      (Json.dict_get "summary" plan))
                            +:+ " | actions=" +:+ Text.of_nat (S (length post))]
                           (at_plan E config root i raw w)) in
  cycle (S (S n)) i h l w
    = (Ok StoppedByUser, logged ["Arrêt demandé par l'utilisateur."] (polled w1))
  /\ cycle 1 i h l w = (Ok Exhausted, w1)
  /\ fs w1 = fs w
  /\ shell_calls w1 = shell_calls w
  /\ llm_calls w1 = S (llm_calls w).
Proof.
  intros Hstop0 Hstop1 Hstop2 Hraw Hjson Hactions w1.
  destruct (at_plan_counts i raw w) as (Hfs & Hpolls & Hcalls & Hshell).
  assert (Hit : iteration i h l w =
                (Ok (AutoDevAgent.Continue
                       (h +:+ NL +:+ "Iteration " +:+ Text.of_nat i +:+ ": "
                        +:+ py_str E (default (JStr "(sans résumé)")
                                        (Json.dict_get "summary" plan)))
                       ""), w1)).
  { rewrite (iteration_answer E config root i h l w raw Hstop0 Hraw), Hjson.
    rewrite run_plan_object, Hactions.
  change (default (JArr []) (Some (JArr (a :: post)))) with (JArr (a :: post)).
  cbn [py_len py_iter length]. cbv zeta.
    rewrite run_actions_stop; [done|].
    cbn [polls logged]. by rewrite Hpolls. }
  split; [|split; [|split; [|split]]].
  - rewrite cycle_step, Hit, cycle_step, iteration_stop; [done|].
    subst w1. cbn [polls polled logged]. by rewrite Hpolls.
  - by rewrite cycle_step, Hit.
  - done.
  - done.
  - done.
Qed.

End Loop.

Lemma run_actions_never_raises_witness :
  (AutoDevAgent.run_actions (sample_env "" 0) sample_root
     [JObj [("type", JStr "write_file")]; JObj [("type", JStr "run")]] [] sample_world).1
  <> Raise (KeyError "path").
Proof.
  exact (run_actions_never_raises (sample_env "" 0) sample_root
           [JObj [("type", JStr "write_file")]; JObj [("type", JStr "run")]] []
           sample_world (KeyError "path") eq_refl).
Defined.

Lemma non_object_action_raises_witness :
  AutoDevAgent.run_plan (sample_env "" 0) sample_root 1
    (JObj [("actions", JArr [JStr "mkdir src"])]) "" sample_world
  = (Raise AttributeError,
     polled (logged ["[plan] (sans résumé) | actions=1"] sample_world)).
Proof.
  exact (non_object_action_raises (sample_env "" 0) sample_root 1
           [("actions", JArr [JStr "mkdir src"])] "" sample_world (JStr "mkdir src") []
           eq_refl eq_refl eq_refl).
Defined.

Lemma unknown_action_ignored_witness :
  AutoDevAgent.run_actions (sample_env "" 0) sample_root
    [JObj [("type", JStr "delete"); ("path", JStr "src")]] [] sample_world
  = (Ok (Some []), logged ["Action inconnue ignorée: delete"] (polled sample_world)).
Proof.
  exact (unknown_action_ignored (sample_env "" 0) sample_root
           [("type", JStr "delete"); ("path", JStr "src")] [] [] sample_world
           eq_refl eq_refl).
Defined.

Lemma refused_action_is_reported_witness :
  let err := "Action write_file échouée: Chemin hors workspace interdit: ../../etc/passwd" in
  AutoDevAgent.run_actions (sample_env "" 0) sample_root
    [JObj [("type", JStr "write_file"); ("path", JStr "../../etc/passwd");
           ("content", JStr "x")]] [] sample_world
  = (Ok (Some [err]), logged [err] (polled sample_world)).
Proof.
  intros err.
  refine (refused_action_is_reported (sample_env "" 0) sample_root
            [("type", JStr "write_file"); ("path", JStr "../../etc/passwd");
             ("content", JStr "x")]
            "write_file" "../../etc/passwd" [] [] sample_world
            eq_refl eq_refl _ eq_refl eq_refl).
  simpl. by right; left.
Defined.

Lemma provider_failure_is_fatal_witness :
  let w' := invoked (before_llm timeout_env (sample_config 3) sample_root 1 sample_world) in
  AutoDevAgent.cycle timeout_env (sample_config 3) sample_root 3 1 "" "" sample_world
    = (Raise (RuntimeError "Temps d'exécution du modèle local dépassé."), w')
  /\ llm_calls w' = 1
  /\ fs w' = sample_fs
  /\ shell_calls w' = 0.
Proof.
  exact (provider_failure_is_fatal timeout_env (sample_config 3) sample_root 2 1 "" ""
           sample_world (RuntimeError "Temps d'exécution du modèle local dépassé.")
           eq_refl eq_refl).
Defined.

Lemma history_grows_witness :
  ("" +:+ NL +:+ "Iteration 1: fini" = ""
   \/ exists summary,
        "" +:+ NL +:+ "Iteration 1: fini"
        = "" +:+ NL +:+ "Iteration " +:+ Text.of_nat 1 +:+ ": " +:+ summary)
  /\ Text.startswith ("" +:+ NL +:+ "Iteration 1: fini") "" = true.
Proof.
  refine (history_grows
            (sample_env (Json.dq "{'summary': 'fini', 'actions': []}") 0)
            (sample_config 3) sample_root 1 "" "" ("" +:+ NL +:+ "Iteration 1: fini") ""
            sample_world
            (logged ["[plan] fini | actions=0"]
               (at_plan (sample_env (Json.dq "{'summary': 'fini', 'actions': []}") 0)
                  (sample_config 3) sample_root 1
                  (Json.dq "{'summary': 'fini', 'actions': []}") sample_world)) _).
  by vm_compute.
Defined.

Lemma no_budget_no_run_witness :
  AutoDevAgent.run_cycle (sample_env done_then_run 0) (sample_config (-2)) sample_root
    sample_world = (Ok Exhausted, sample_world).
Proof.
  refine (no_budget_no_run (sample_env done_then_run 0) (sample_config (-2)) sample_root
            sample_world _).
  simpl. lia.
Defined.

Lemma stop_while_model_answers_witness :
  let answer := Json.dq "{'summary': 'base', 'actions': [{'type': 'mkdir', 'path': 'src'}]}" in
  let E := late_stop_env answer in
  let w1 := polled (logged ["[plan] base | actions=1"]
                           (at_plan E (sample_config 3) sample_root 1 answer sample_world)) in
  AutoDevAgent.cycle E (sample_config 3) sample_root 3 1 "" "" sample_world
    = (Ok StoppedByUser, logged ["Arrêt demandé par l'utilisateur."] (polled w1))
  /\ AutoDevAgent.cycle E (sample_config 3) sample_root 1 1 "" "" sample_world
     = (Ok Exhausted, w1)
  /\ fs w1 = sample_fs
  /\ shell_calls w1 = 0
  /\ llm_calls w1 = 1.
Proof.
  intros answer E w1.
  refine (stop_while_model_answers E (sample_config 3) sample_root 1 1 "" "" sample_world
            answer
            [("summary", JStr "base");
             ("actions", JArr [JObj [("type", JStr "mkdir"); ("path", JStr "src")]])]
            (JObj [("type", JStr "mkdir"); ("path", JStr "src")]) []
            eq_refl eq_refl eq_refl _ _ eq_refl).
  - eexists. split; [reflexivity|]. split; [reflexivity|]. by vm_compute.
  - by vm_compute.
Defined.

Lemma action_without_operand_is_reported_witness :
  let err := "Action run échouée: 'cmd'" in
  AutoDevAgent.run_actions (sample_env "" 0) sample_root
    [JObj [("type", JStr "run"); ("command", JStr "make")]] [] sample_world
  = (Ok (Some [err]), logged [err] (polled sample_world)).
Proof.
  intros err.
  refine (action_without_operand_is_reported (sample_env "" 0) sample_root
            [("type", JStr "run"); ("command", JStr "make")] "run" "cmd" [] []
            sample_world eq_refl eq_refl _ eq_refl).
  by right.
Defined.

End LoopProperties.

(* ===================================================================== *)
(** ** The plan codec and the worker: further properties *)
(* ===================================================================== *)

Module CodecProperties.
Import TextFacts CodecFacts.

Lemma cut_at_first (c : ascii) (a b : string) :
  exists p r, Text.cut_at c (a +:+ String c b) = Some (p, r +:+ b).
Proof.
  induction a as [|x a (p & r & IH)].
  - rewrite append_nil_l. simpl. rewrite Ascii.eqb_refl. exists "", "".
    by rewrite append_nil_l.
  - rewrite append_cons. simpl. destruct (Ascii.eqb x c).
    + exists "", (a +:+ String c ""). rewrite append_assoc, append_cons.
      by rewrite append_nil_l.
    + rewrite IH. by exists (String x p), r.
Qed.

Lemma upto_last_found (c : ascii) (x y : string) :
  AutoDevAgent.upto_last c (x +:+ String c y) <> None.
Proof.
  induction x as [|a x IH].
  - rewrite append_nil_l. simpl. rewrite Ascii.eqb_refl.
    by destruct (AutoDevAgent.upto_last c y).
  - rewrite append_cons. simpl.
    by destruct (AutoDevAgent.upto_last c (x +:+ String c y)).
Qed.

(** The search finds nothing only in a text without a closing brace
    behind an opening brace. *)
Lemma search_braces_none (raw : string) :
  AutoDevAgent.search_braces raw = None ->
  ~ exists pre body post, raw = pre +:+ "{" +:+ body +:+ "}" +:+ post.
Proof.
  intros Hnone (pre & body & post & ->).
  unfold AutoDevAgent.search_braces in Hnone.
  change ("{" +:+ body +:+ "}" +:+ post) with (String "{" (body +:+ String "}" post))
    in Hnone.
  destruct (cut_at_first "{" pre (body +:+ String "}" post)) as (p & r & Hcut).
  rewrite Hcut in Hnone. rewrite <- append_assoc in Hnone.
  pose proof (upto_last_found "}" (r +:+ body) post) as Hlast.
  by destruct (AutoDevAgent.upto_last _ _).
Qed.

Lemma cut_at_before (c : ascii) (s pre rest : string) :
  Text.cut_at c s = Some (pre, rest) -> occurs c pre = false.
Proof.
  revert pre. induction s as [|a s IH]; intros pre; simpl; [discriminate|].
  destruct (Ascii.eqb a c) eqn:Hac.
  - by intros [= <- _].
  - destruct (Text.cut_at c s) as [[pre' rest']|]; [|discriminate].
    intros [= <- <-]. simpl. rewrite Hac. by apply IH.
Qed.

Lemma upto_last_behind (c : ascii) (s body : string) :
  AutoDevAgent.upto_last c s = Some body ->
  exists post, s = body +:+ String c post /\ occurs c post = false.
Proof.
  revert body. induction s as [|a s IH]; intros body; simpl; [discriminate|].
  destruct (AutoDevAgent.upto_last c s) as [pre|] eqn:Hs.
  - intros [= <-]. destruct (IH pre eq_refl) as (post & -> & Hpost).
    exists post. by rewrite append_cons.
  - destruct (Ascii.eqb_spec a c) as [->|]; [|discriminate].
    intros [= <-]. exists s. rewrite append_nil_l. split; [done|].
    clear IH. induction s as [|x s IH]; [done|].
    simpl in Hs. destruct (AutoDevAgent.upto_last c s); [discriminate|].
    simpl. destruct (Ascii.eqb x c); [discriminate|]. by apply IH.
Qed.

(** X9.  What [_extract_json] returns is an object.  It raises the error
    of the text without a plan exactly when the text has no closing brace
    behind an opening brace; and when it raises the error of the decoder,
    the document the decoder has refused is the part of the text from its
    first opening brace to its last closing brace. *)
Theorem _extract_json_outcomes (raw : string) :
  (forall plan, AutoDevAgent._extract_json raw = Ok plan -> is_object plan = true)
  /\ (AutoDevAgent._extract_json raw = Raise (ValueError "Réponse LLM sans JSON exploitable.")
      <-> ~ exists pre body post, raw = pre +:+ "{" +:+ body +:+ "}" +:+ post)
  /\ (forall doc, AutoDevAgent._extract_json raw = Raise (JSONDecodeError doc) ->
        exists pre body post,
          doc = "{" +:+ body +:+ "}" /\ raw = pre +:+ doc +:+ post
          /\ occurs "{" pre = false /\ occurs "}" post = false).
Proof.
  split; [|split].
  - intros plan Hraw. by destruct (_extract_json_object raw plan Hraw) as [d ->].
  - unfold AutoDevAgent._extract_json.
    destruct (AutoDevAgent.search_braces raw) as [doc|] eqn:Hsearch.
    + split.
      * by destruct (Json.loads doc).
      * intros Hno. exfalso. apply Hno.
        by apply search_braces_some in Hsearch.
    + split; [intros _; by apply search_braces_none|done].
  - intros doc. unfold AutoDevAgent._extract_json.
    destruct (AutoDevAgent.search_braces raw) as [doc'|] eqn:Hsearch; [|discriminate].
    destruct (Json.loads doc'); [discriminate|]. intros [= <-].
    revert Hsearch. unfold AutoDevAgent.search_braces.
    destruct (Text.cut_at "{" raw) as [[pre after]|] eqn:Hcut; [|discriminate].
    destruct (AutoDevAgent.upto_last "}" after) as [body|] eqn:Hlast; [|discriminate].
    intros [= <-].
    pose proof (cut_at_before _ _ _ _ Hcut) as Hpre.
    apply cut_at_spec in Hcut as ->.
    destruct (upto_last_behind _ _ _ Hlast) as (post & -> & Hpost).
    exists pre, body, post. split; [done|]. split; [|done].
    change (String "{" (body +:+ String "}" post)) with ("{" +:+ body +:+ "}" +:+ post).
    by rewrite !append_assoc.
Qed.

End CodecProperties.

Module AppProperties.
Import TextFacts ExecutorFacts.

(** What [os.mkdir] and [mkdir] with its parents leave: the filesystem
    with new directories, and nothing else changed. *)
Lemma os_mkdir_adds (f : gmap (list string) Fs.node) (start comps q : list string) :
  (App.os_mkdir f start comps).1 !! q = f !! q
  \/ (f !! q = None /\ (App.os_mkdir f start comps).1 !! q = Some Fs.Dir).
Proof.
  unfold App.os_mkdir. destruct comps as [|x comps]; [by left|].
  destruct (App.enter_dirs f start _) as [cur|e]; [|by left].
  case_bool_decide; [by left|].
  destruct (f !! (cur ++ [List.last (x :: comps) ""])) as [n|] eqn:Hkey; [by left|].
  cbn [fst]. destruct (decide (q = cur ++ [List.last (x :: comps) ""])) as [->|Hq].
  - right. by rewrite lookup_insert_eq.
  - left. by rewrite lookup_insert_ne.
Qed.

Lemma mkdir_parents_adds (f : gmap (list string) Fs.node) (start rcomps q : list string) :
  (App.mkdir_parents f start rcomps).1 !! q = f !! q
  \/ (f !! q = None /\ (App.mkdir_parents f start rcomps).1 !! q = Some Fs.Dir).
Proof.
  revert f. induction rcomps as [|x rcomps IH]; intros f.
  - pose proof (os_mkdir_adds f start (rev []) q) as Hos.
    cbn [App.mkdir_parents].
    destruct (App.os_mkdir f start (rev [])) as [f' [[| |]|]];
      try destruct (App.is_dir_at _ _ _); cbn [fst] in *; first [by left|done].
  - pose proof (os_mkdir_adds f start (rev (x :: rcomps)) q) as Hos.
    cbn [App.mkdir_parents].
    destruct (App.os_mkdir f start (rev (x :: rcomps))) as [f' [[| |]|]];
      [|destruct (App.is_dir_at _ _ _); by left
       |destruct (App.is_dir_at _ _ _); by left
       |done].
    specialize (IH f).
    destruct (App.mkdir_parents f start rcomps) as [f1 [[]|e]]; cbn [fst] in *; [|done].
    pose proof (os_mkdir_adds f1 start (rev (x :: rcomps)) q) as Hos1.
    assert (Hf2 : forall f2 : gmap (list string) Fs.node,
               f2 !! q = f1 !! q \/ (f1 !! q = None /\ f2 !! q = Some Fs.Dir) ->
               f2 !! q = f !! q \/ (f !! q = None /\ f2 !! q = Some Fs.Dir)).
    { intros f2 [->|[Hnone ->]]; [done|].
      destruct IH as [Heq|[Hf Hdir]]; [|congruence].
      right. by rewrite <- Heq. }
    destruct (App.os_mkdir f1 start (rev (x :: rcomps))) as [f2 [[| |]|]];
      [done
      |destruct (App.is_dir_at _ _ _); done
      |destruct (App.is_dir_at _ _ _); done
      |by apply Hf2].
Qed.

(** X19.  The worker raises nothing: whatever the making of the project
    directory or the run of the agent raises is logged as a fatal error,
    and a run that returns is logged as finished; one of the two lines is
    the last line of the log.  When the project directory cannot be made,
    the agent does not run: the fatal error is logged in a world that
    differs from the one before by the directories made before the error,
    and by nothing else. *)
Theorem _run_agent_thread_reports (E : Env) (cfg : AgentConfig) (w : World) :
  let r := App._run_agent_thread E cfg w in
  let root := PurePath.parse (project_dir cfg) in
  let made := (App.mkdir_path E root (fs w)).1 in
  let w0 := mkWorld made (log w) (polls w) (llm_calls w) (shell_calls w) in
  r.1 = Ok tt
  /\ (exists before line,
        log r.2 = before ++ [line]
        /\ (line = "Cycle IA terminé."
            \/ exists exc, line = "Erreur fatale: " +:+ exn_str E exc))
  /\ (forall exc, (App.mkdir_path E root (fs w)).2 = Raise exc ->
        r.2 = logged ["Erreur fatale: " +:+ exn_str E exc] w0)
  /\ ((App.mkdir_path E root (fs w)).2 = Ok tt ->
      r.2 = match AutoDevAgent.run_cycle E cfg root w0 with
            | (Ok _, w') => logged ["Cycle IA terminé."] w'
            | (Raise exc, w') => logged ["Erreur fatale: " +:+ exn_str E exc] w'
            end)
  /\ (forall q, made !! q = fs w !! q
                \/ (fs w !! q = None /\ made !! q = Some Fs.Dir)).
Proof.
  intros r root made w0. subst r made w0.
  unfold App._run_agent_thread, App.mkdir_project. fold root. run_monad.
  pose proof (fun q => mkdir_parents_adds (fs w)
                         (if PurePath.absolute root then [] else cwd E)
                         (rev (PurePath.parts root)) q) as Hadds.
  fold (App.mkdir_path E root (fs w)) in Hadds.
  destruct (App.mkdir_path E root (fs w)) as [f' [[]|exc0]]; cbn [fst snd] in *.
  - destruct (AutoDevAgent.run_cycle E cfg root _) as [[o|exc1] w1];
      cbn [fst snd log].
    + split; [done|]. split; [exists (log w1), "Cycle IA terminé."; split; [done|by left]|].
      split; [intros ? ?; discriminate|]. by split.
    + split; [done|].
      split; [exists (log w1), ("Erreur fatale: " +:+ exn_str E exc1); split; [done|eauto]|].
      split; [intros ? ?; discriminate|]. by split.
  - split; [done|].
    split; [exists (log w), ("Erreur fatale: " +:+ exn_str E exc0); split; [done|eauto]|].
    split; [by intros ? [= <-]|]. split; [intros ?; discriminate|done].
Qed.

Lemma _run_agent_thread_reports_witness :
  let E := sample_env "" 0 in
  let cfg := {| model := "llama3.1"; project_dir := "new/../f"; description := "";
                language := "python"; max_iterations := 3; target_loc := 100 |} in
  let f := <[ ["home"; "dev"; "f"] := Fs.File "" ]> sample_fs in
  (App._run_agent_thread E cfg (mkWorld f [] 0 0 0)).2
    = mkWorld (<[ ["home"; "dev"; "new"] := Fs.Dir ]> f)
              ["Erreur fatale: <diagnostic>"] 0 0 0.
Proof.
  intros E cfg f.
  exact (proj1 (proj2 (proj2 (_run_agent_thread_reports E cfg (mkWorld f [] 0 0 0))))
           (FileExistsError ["new"; ".."; "f"]) eq_refl).
Defined.

End AppProperties.

(* ===================================================================== *)
(** ** The model on concrete inputs *)
(* ===================================================================== *)

(** Values the Python library gives on these inputs (CPython 3.11, POSIX),
    computed by the definitions above. *)
Module Tests.

Example decode_replace_ill_formed :
  Text.decode Text.REPLACEMENT
    (Text.utf8 [0xE2; 0x82; 65; 0xED; 0xA0; 0x80; 0xF0; 0x90; 0x80; 0xC2]%N)
  = Text.concat [Text.REPLACEMENT; "A"; Text.REPLACEMENT; Text.REPLACEMENT;
                 Text.REPLACEMENT; Text.REPLACEMENT; Text.REPLACEMENT].
Proof. by vm_compute. Qed.

Example decode_ignore_ill_formed :
  Text.decode "" (Text.utf8 [0xE2; 0x82; 65; 0xED; 0xA0; 0x80; 0xC2]%N) = "A".
Proof. by vm_compute. Qed.

Example splitlines_boundaries :
  Text.splitlines
    (Text.utf8 [97; 11; 98; 12; 99; 0x1C; 100; 0x1D; 101; 0x1E; 102; 0xC2; 0x85; 103;
                0xE2; 0x80; 0xA8; 104; 0xE2; 0x80; 0xA9; 105; 13; 10; 106; 10]%N)
  = ["a"; "b"; "c"; "d"; "e"; "f"; "g"; "h"; "i"; "j"].
Proof. by vm_compute. Qed.

Example splitlines_empty :
  Text.splitlines "" = [] /\ Text.splitlines NL = [""] /\ Text.splitlines "a" = ["a"].
Proof. by vm_compute. Qed.

Example strip_unicode_space :
  Text.strip (Text.utf8 [32; 0x1F; 0xC2; 0x85; 0xC2; 0xA0; 97; 32; 98; 0xE3; 0x80; 0x80]%N)
  = "a b".
Proof. by vm_compute. Qed.

Example slices_count_characters :
  Text.len "héé" = 3 /\ Text.first_chars 2 "héé" = "hé" /\ Text.last_chars 2 "héllo" = "lo"
  /\ Text.last_chars 9 "héllo" = "héllo".
Proof. by vm_compute. Qed.

Example suffixes :
  map PurePath.suffix_of_name
    ["a.py"; ".py"; "a."; "..py"; "a.tar.gz"; "a..py"; ".a.py"; "a.PY"; "abc"]
  = [".py"; ""; ""; ".py"; ".gz"; ".py"; ".py"; ".PY"; ""].
Proof. by vm_compute. Qed.

Example resolve_paths :
  PurePath.resolve ["tmp"; "pt"] (PurePath.div (PurePath.parse "/tmp/pt/ws") "../ws2/x")
    = ["tmp"; "pt"; "ws2"; "x"]
  /\ PurePath.resolve ["tmp"; "pt"] (PurePath.div (PurePath.parse "ws") "./a//b/.")
     = ["tmp"; "pt"; "ws"; "a"; "b"]
  /\ PurePath.resolve ["tmp"; "pt"] (PurePath.div (PurePath.parse "ws") "/etc/passwd")
     = ["etc"; "passwd"]
  /\ PurePath.resolve ["tmp"; "pt"] (PurePath.div (PurePath.parse "ws") "../../../../a")
     = ["a"]
  /\ PurePath.str [] = "/".
Proof. by vm_compute. Qed.

Example loads_values :
  map (fun doc => Json.loads (Json.dq doc))
    ["{'a': NaN, 'b': -Infinity, 'a': 2}"; "{'a':1.5e3, 'b': -0, 'c': 1E+2}";
     "{ }"; "{'a':'é\/'}"; " [1, 2 , 3 ] "; "{'a':{'b':[[[]]]}}";
     "[null, true, false, -12]"]
  = [Some (JObj [("a", JInt 2); ("b", JFloat "-Infinity")]);
     Some (JObj [("a", JFloat "1.5e3"); ("b", JInt 0); ("c", JFloat "1E+2")]);
     Some (JObj []); Some (JObj [("a", JStr "é/")]);
     Some (JArr [JInt 1; JInt 2; JInt 3]);
     Some (JObj [("a", JObj [("b", JArr [JArr [JArr []]])])]);
     Some (JArr [JNull; JBool true; JBool false; JInt (-12)])].
Proof. by vm_compute. Qed.

Example loads_refuses :
  map (fun doc => Json.loads (Json.dq doc))
    ["{'a':1} x }"; "{'a':01}"; "{'a':[1,]}"; "{'a':1,}"; "{'a': .5}"; "{'a': 1.}";
     "{'a': +1}"; "{'a':tru}"; "{'a':'\x'}"; "{'a':-}"; "{'a':1e}"; "{'a' 1}"; "'abc";
     "[1 2]"; "{a:1}"]
  = replicate 15 None.
Proof. by vm_compute. Qed.

Example loads_surrogate_pair :
  Json.loads (Json.dq "['😀']") = Some (JArr [JStr "😀"]).
Proof. by vm_compute. Qed.

Example mkdir_through_a_file :
  let f := <[ ["ws"; "file"] := Fs.File "x" ]> (<[ ["ws"] := Fs.Dir ]> ∅) in
  Fs.mkdir_parents f ["ws"; "file"; "sub"] = Raise (NotADirectoryError ["ws"; "file"; "sub"])
  /\ Fs.mkdir_parents f ["ws"; "file"] = Raise (FileExistsError ["ws"; "file"])
  /\ Fs.write false f ["ws"] "c" = Raise (IsADirectoryError ["ws"])
  /\ Fs.exists_ f ["ws"; "file"; "sub"] = false.
Proof. by vm_compute. Qed.

(** A plan with an action of an unknown type and a [write_file] action:
    the file is written, and the run goes on to the end of its budget. *)
Example unknown_action_is_skipped :
  let answer := Json.dq "{'summary': 'init', 'actions': [{'type': 'chmod', 'path': 'a'}, {'type': 'write_file', 'path': 'src/app.py', 'content': 'print(1)\n'}]}" in
  exists w',
    AutoDevAgent.run_cycle (sample_env answer 0) (sample_config 1) sample_root sample_world
      = (Ok Exhausted, w')
    /\ fs w' !! ["home"; "dev"; "ws"; "src"; "app.py"] = Some (Fs.File ("print(1)" +:+ NL))
    /\ log w' = [ NL +:+ "=== Itération 1 | LOC actuel: 0 ===";
                  "[llm] réponse brute (extrait):" +:+ NL +:+ answer;
                  "[plan] init | actions=2";
                  "Action inconnue ignorée: chmod";
                  "[write_file] /home/dev/ws/src/app.py (9 chars)" ].
Proof.
  intros answer. eexists. split; [vm_compute; reflexivity|]. split; by vm_compute.
Qed.

(** The plan with [done] first and [run] second: the shell is not called,
    and the log has no line of [run]. *)
Example done_then_run_runs_nothing :
  exists w',
    AutoDevAgent.run_cycle (sample_env done_then_run 0) (sample_config 3) sample_root
      sample_world = (Ok StoppedByPlan, w')
    /\ shell_calls w' = 0
    /\ llm_calls w' = 1
    /\ log w' = [ NL +:+ "=== Itération 1 | LOC actuel: 0 ===";
                  "[llm] réponse brute (extrait):" +:+ NL +:+ done_then_run;
                  "[plan] fini | actions=2";
                  "[done] tout est fait" ].
Proof.
  eexists. split; [vm_compute; reflexivity|]. repeat split; by vm_compute.
Qed.

(** A stop flag set after the first iteration: the second iteration does
    not invoke the model. *)
Example stop_before_second_iteration :
  exists w',
    AutoDevAgent.run_cycle (stopping_env "{}" 1) (sample_config 3) sample_root
      sample_world = (Ok StoppedByUser, w')
    /\ llm_calls w' = 1
    /\ polls w' = 2.
Proof.
  eexists. split; [vm_compute; reflexivity|]. split; reflexivity.
Qed.

(** [append_file] twice on a fresh path, then [read_file]. *)
Example append_twice :
  let E := sample_env "" 0 in
  exists w1 w2,
    WorkspaceExecutor.append_file E sample_root (JStr "log.txt") (JStr "un") sample_world
      = (Ok tt, w1)
    /\ WorkspaceExecutor.append_file E sample_root (JStr "log.txt") (JStr "deux") w1
       = (Ok tt, w2)
    /\ (WorkspaceExecutor.read_file E sample_root (JStr "log.txt") w2).1 = Ok "undeux".
Proof.
  intros E. do 2 eexists.
  split; [vm_compute; reflexivity|]. split; [vm_compute; reflexivity|]. by vm_compute.
Qed.

Example mkdir_keeps_what_it_made :
  let f := <[ ["home"; "dev"; "f"] := Fs.File "" ]> sample_fs in
  App.mkdir_path (sample_env "" 0) (PurePath.parse "new/../f") f
    = (<[ ["home"; "dev"; "new"] := Fs.Dir ]> f,
       Raise (FileExistsError ["new"; ".."; "f"]))
  /\ App.mkdir_path (sample_env "" 0) (PurePath.parse "new/../f/x") f
    = (<[ ["home"; "dev"; "new"] := Fs.Dir ]> f,
       Raise (FileExistsError ["new"; ".."; "f"]))
  /\ App.mkdir_path (sample_env "" 0) (PurePath.parse "f/x") f
    = (f, Raise (NotADirectoryError ["f"; "x"]))
  /\ App.mkdir_path (sample_env "" 0) (PurePath.parse "a/../b/c") f
    = (<[ ["home"; "dev"; "b"; "c"] := Fs.Dir ]>
         (<[ ["home"; "dev"; "b"] := Fs.Dir ]>
            (<[ ["home"; "dev"; "a"] := Fs.Dir ]> f)), Ok tt)
  /\ App.mkdir_path (sample_env "" 0) (PurePath.parse "/home/dev/ws") f = (f, Ok tt).
Proof. intros f. repeat split; reflexivity. Qed.

End Tests.
